(** * Multiplayer room routes of the Diablo Web backend

    A shallow embedding of the room routes of [src/server/index.js]
    (Express + Mongoose), with the two other back ends of the repository
    (the native MongoDB driver and Firestore) embedded next to it where
    their room routes differ.

    The database is explicit state: a handler takes the collections as
    they are when the request arrives and returns the collections after
    it, the HTTP response, and the Socket.IO events it emitted, in order.
    Request bodies are typed: a field that JSON may leave out is an
    [option] ([None] is JavaScript's [undefined]), a number is a
    [Number], and dates are milliseconds in [Z]. A string is the sequence
    of its code units, each below 256.

    [handle] runs one request from start to end, with no other request in
    between; properties stated with [handle] are properties of requests
    handled that way. The section on two join requests in flight makes
    the [await]s of the join handler explicit and lets two handlers
    interleave there. *)

From Stdlib Require Import QArith Qcanon.
From stdpp Require Import gmap strings list sorting.

Local Open Scope string_scope.
Local Open Scope list_scope.
Local Open Scope Z_scope.

(** A field of a stored or serialized document: the key may be missing
    ([undefined] is never stored nor serialized), hold [null], or hold a
    value. *)
Inductive Field (A : Type) :=
  | missing
  | null
  | value (a : A).
Arguments missing {A}.
Arguments null {A}.
Arguments value {A} a.

Global Instance Field_eq_dec {A} `{EqDecision A} : EqDecision (Field A).
Proof. solve_decision. Defined.

(** ** Numbers

    A number of a JSON body is a double. The routes test numbers for zero,
    store them, and compare [maxPlayers] with an array length; they do no
    arithmetic. A finite double is the rational it stands for; a literal
    too large for a double parses to an infinity. *)
Inductive Number :=
  | finite (q : Qc)
  | infinity
  | minus_infinity.

Global Instance Number_eq_dec : EqDecision Number.
Proof. solve_decision. Defined.

(** The whole number [n]. *)
Definition whole (n : Z) : Number := finite (Qc_of_Z n).
Coercion whole : Z >-> Number.

(** [a <= b] and [a < b] on numbers. *)
Definition Number_le (a b : Number) : Prop :=
  match a, b with
  | minus_infinity, _ | _, infinity => True
  | finite p, finite q => (p ≤ q)%Qc
  | _, _ => False
  end.

Definition Number_lt (a b : Number) : Prop :=
  match a, b with
  | infinity, _ | _, minus_infinity => False
  | finite p, finite q => (p < q)%Qc
  | _, _ => True
  end.

Arguments Number_le : simpl never.
Arguments Number_lt : simpl never.

Declare Scope number_scope.
Delimit Scope number_scope with num.
Infix "≤" := Number_le : number_scope.
Infix "<" := Number_lt : number_scope.

Global Instance Number_le_dec : RelDecision Number_le.
Proof. intros [p| |] [q| |]; unfold Number_le; apply _. Defined.

Global Instance Number_lt_dec : RelDecision Number_lt.
Proof. intros [p| |] [q| |]; unfold Number_lt; apply _. Defined.

(** A number without a fractional part. *)
Definition is_whole (m : Number) : Prop := ∃ n : Z, m = whole n.

(** ** JavaScript's [||] and truthiness on the body fields *)

(** [!!s] for a string field that may be missing. *)
Definition truthy (o : option string) : bool :=
  match o with
  | Some s => bool_decide (s ≠ "")
  | None => false
  end.

(** [s || d] on strings: [d] when [s] is missing or empty. *)
Definition or_string (o : option string) (d : string) : string :=
  match o with
  | Some s => if bool_decide (s = "") then d else s
  | None => d
  end.

(** [n || d] on numbers: [d] when [n] is missing or [0]. *)
Definition or_number (o : option Number) (d : Number) : Number :=
  match o with
  | Some n => if bool_decide (n = whole 0) then d else n
  | None => d
  end.

(** [s || undefined]: the field is kept only when it is a non-empty string. *)
Definition or_undefined (o : option string) : Field string :=
  match o with
  | Some s => if bool_decide (s = "") then missing else value s
  | None => missing
  end.

(** [s || null]. *)
Definition or_null (o : option string) : Field string :=
  match o with
  | Some s => if bool_decide (s = "") then null else value s
  | None => null
  end.

(** A body field whose type the route does not look at. *)
Inductive JsValue :=
  | js_undefined
  | js_null
  | js_bool (b : bool)
  | js_number (n : Number)
  | js_string (s : string).

(** [v !== false]. *)
Definition not_false (v : JsValue) : bool :=
  match v with
  | js_bool false => false
  | _ => true
  end.

(** ** Documents (the Mongoose schemas) *)

(** Identifiers ([ObjectId]s, Firestore document ids and uids) are opaque
    keys; a request that names one has already been parsed and
    authenticated. *)
Abbreviation ObjectId := positive.

Record User := {
  username : string;
}.

Inductive Status := waiting | in_game | closed.

Global Instance Status_eq_dec : EqDecision Status.
Proof. solve_decision. Defined.

(** An element of [players]. *)
Record Player := {
  userId : ObjectId;
  playerName : string;
  characterClass : string;
  level : Number;
  joinedAt : Z;
}.

(** A [MultiplayerRoom] document. *)
Record Room := {
  name : string;
  host : ObjectId;
  players : list Player;
  maxPlayers : Number;
  isPublic : bool;
  status : Status;
  password : Field string;
  createdAt : Z;
}.

Definition set_players (r : Room) (ps : list Player) : Room :=
  {| name := name r; host := host r; players := ps;
     maxPlayers := maxPlayers r; isPublic := isPublic r; status := status r;
     password := password r; createdAt := createdAt r |}.

Definition set_host (r : Room) (h : ObjectId) : Room :=
  {| name := name r; host := h; players := players r;
     maxPlayers := maxPlayers r; isPublic := isPublic r; status := status r;
     password := password r; createdAt := createdAt r |}.

(** The two collections the room routes touch, and the [_id] the database
    gives the next inserted room ([_id]s are never reused). *)
Record Db := {
  users : gmap ObjectId User;
  rooms : gmap ObjectId Room;
  nextId : ObjectId;
}.

Definition set_rooms (db : Db) (rs : gmap ObjectId Room) : Db :=
  {| users := users db; rooms := rs; nextId := nextId db |}.

(** [new MultiplayerRoom(..).save()]: insert under a fresh [_id]. *)
Definition insert_room (r : Room) (db : Db) : Db :=
  {| users := users db; rooms := <[nextId db := r]> (rooms db);
     nextId := Pos.succ (nextId db) |}.

(** ** What goes over the wire *)

(** The [host] field of a serialized room: the bare id, the result of
    [.populate('host', 'username')] ([None] when no such user exists), or
    an object holding only the name. *)
Inductive HostJson :=
  | HostId (h : ObjectId)
  | HostPopulated (u : option (ObjectId * string))
  | HostName (u : string).

(** A room as handed to [res.json] or to [emit]; [j_password = missing]
    means the object has no [password] key. (JSON then writes an infinite
    number as [null].) *)
Record RoomJson := {
  j_id : option ObjectId;
  j_name : string;
  j_host : HostJson;
  j_players : list Player;
  j_maxPlayers : Number;
  j_isPublic : bool;
  j_status : Status;
  j_password : Field string;
  j_createdAt : Z;
}.

(** Serializing a document as it is in memory. *)
Definition toJSON (id : ObjectId) (r : Room) : RoomJson :=
  {| j_id := Some id; j_name := name r; j_host := HostId (host r);
     j_players := players r; j_maxPlayers := maxPlayers r;
     j_isPublic := isPublic r; j_status := status r;
     j_password := password r; j_createdAt := createdAt r |}.

(** [.populate('host', 'username')]. *)
Definition populate_host (us : gmap ObjectId User) (r : Room) : HostJson :=
  HostPopulated ((λ u, (host r, username u)) <$> us !! host r).

(** [.populate('host', 'username').select('-password')] on one document. *)
Definition populated (us : gmap ObjectId User) (id : ObjectId) (r : Room)
  : RoomJson :=
  {| j_id := Some id; j_name := name r; j_host := populate_host us r;
     j_players := players r; j_maxPlayers := maxPlayers r;
     j_isPublic := isPublic r; j_status := status r;
     j_password := missing; j_createdAt := createdAt r |}.

(** [MultiplayerRoom.findById(id).populate('host', 'username')
    .select('-password')]; [None] is [null]. *)
Definition findById_populated (db : Db) (id : ObjectId) : option RoomJson :=
  populated (users db) id <$> rooms db !! id.

Inductive Payload :=
  | PRoom (j : option RoomJson)
  | PRoomId (id : ObjectId).

(** [io.emit(ev, p)] reaches every connection, [io.to(room).emit(ev, p)]
    the sockets that joined [room]. *)
Inductive Event :=
  | io_emit (ev : string) (p : Payload)
  | io_to_emit (room : ObjectId) (ev : string) (p : Payload).

Inductive Body :=
  | BError (error : string)
  | BMessage (message : string)
  | BRoom (j : option RoomJson)
  | BRooms (js : list RoomJson).

(** [res.status(code).json(body)]. *)
Record Response := {
  code : Z;
  body : Body;
}.

(** What a handler leaves behind. *)
Record Outcome := {
  db_after : Db;
  response : Response;
  emitted : list Event;
}.

(** A handler that answers without touching the database. *)
Definition reply (db : Db) (r : Response) : Outcome :=
  {| db_after := db; response := r; emitted := [] |}.

Definition json (c : Z) (b : Body) : Response := {| code := c; body := b |}.

(** The responses of the room routes, under the names the specification
    gives the failures. *)
Definition ValidationError_name : Response := json 400 (BError "Room name required").
Definition ValidationError_join : Response :=
  json 400 (BError "Room ID and player name required").
Definition UserNotFound : Response := json 404 (BError "User not found").
Definition NotFound : Response := json 404 (BError "Room not found").
Definition InvalidState : Response := json 400 (BError "Room is not accepting players").
Definition RoomFull : Response := json 400 (BError "Room is full").
Definition Unauthorized : Response := json 401 (BError "Invalid room password").
Definition AlreadyJoined : Response := json 400 (BError "Already in room").
Definition InternalError : Response := json 500 (BError "Internal server error").
Definition LeftRoom : Response := json 200 (BMessage "Left room successfully").

(** ** POST /api/multiplayer/rooms *)

Record CreateBody := {
  cb_name : option string;
  cb_maxPlayers : option Number;
  cb_isPublic : JsValue;
  cb_password : option string;
  cb_playerName : option string;
  cb_characterClass : option string;
  cb_level : option Number;
}.

(** The document built by [new MultiplayerRoom({..})]; the schema defaults
    fill [status], [createdAt] and the player's [joinedAt]. *)
Definition new_room (now : Z) (uid : ObjectId) (user : User) (b : CreateBody)
  : Room :=
  {| name := default "" (cb_name b);
     host := uid;
     maxPlayers := or_number (cb_maxPlayers b) 4;
     isPublic := not_false (cb_isPublic b);
     password := or_undefined (cb_password b);
     players := [ {| userId := uid;
                     playerName := or_string (cb_playerName b) (username user);
                     characterClass := or_string (cb_characterClass b) "Warrior";
                     level := or_number (cb_level b) 1;
                     joinedAt := now |} ];
     status := waiting;
     createdAt := now |}.

Definition post_rooms (now : Z) (uid : ObjectId) (b : CreateBody) (db : Db)
  : Outcome :=
  if negb (truthy (cb_name b)) then reply db ValidationError_name
  else
    match users db !! uid with
    | None => reply db UserNotFound
    | Some user =>
        let room := new_room now uid user b in
        let db1 := insert_room room db in
        let populatedRoom := findById_populated db1 (nextId db) in
        {| db_after := db1;
           response := json 201 (BRoom populatedRoom);
           emitted := [io_emit "room-created" (PRoom populatedRoom)] |}
    end.

(** ** POST /api/multiplayer/rooms/join *)

Record JoinBody := {
  jb_roomId : option ObjectId;
  jb_playerName : option string;
  jb_characterClass : option string;
  jb_level : option Number;
  jb_password : option string;
}.

(** [room.password && room.password !== password]. *)
Definition wrong_password (stored : Field string) (supplied : option string)
  : bool :=
  match stored with
  | value s => bool_decide (s ≠ "") && bool_decide (supplied ≠ Some s)
  | _ => false
  end.

(** [room.players.find(p => p.userId && p.userId.toString() === uid)]. *)
Definition existingPlayer (uid : ObjectId) (ps : list Player) : option Player :=
  find (λ p, bool_decide (userId p = uid)) ps.

(** From the arrival of the request to the [push] on the loaded document:
    the first read of the room, and every check, which all look at what
    that read returned. The result is the rejection, or the room id and the
    player to append. *)
Definition join_check (now : Z) (uid : ObjectId) (b : JoinBody) (db : Db)
  : Response + (ObjectId * Player) :=
  match jb_roomId b with
  | None => inl ValidationError_join
  | Some roomId =>
      if negb (truthy (jb_playerName b)) then inl ValidationError_join
      else
        match rooms db !! roomId with
        | None => inl NotFound
        | Some room =>
            if bool_decide (status room ≠ waiting) then inl InvalidState
            else if bool_decide (maxPlayers room ≤ Z.of_nat (length (players room)))%num
            then inl RoomFull
            else if wrong_password (password room) (jb_password b)
            then inl Unauthorized
            else
              match existingPlayer uid (players room) with
              | Some _ => inl AlreadyJoined
              | None =>
                  inr (roomId,
                       {| userId := uid;
                          playerName := default "" (jb_playerName b);
                          characterClass := or_string (jb_characterClass b) "Warrior";
                          level := or_number (jb_level b) 1;
                          joinedAt := now |})
              end
        end
  end.

(** [room.save()] after the [push]: Mongoose sends the change as a
    [$push] of the new player onto the stored array (the native-driver back
    end spells the same update out with [updateOne]); [None] when the
    document is gone. *)
Definition join_save (roomId : ObjectId) (newPlayer : Player) (db : Db)
  : option Db :=
  (λ room, set_rooms db
     (<[roomId := set_players room (players room ++ [newPlayer])]> (rooms db)))
  <$> rooms db !! roomId.

(** The second read, the broadcast and the answer. *)
Definition join_reply (roomId : ObjectId) (db : Db) : Response * list Event :=
  let populatedRoom := findById_populated db roomId in
  (json 200 (BRoom populatedRoom),
   [io_to_emit roomId "player-joined" (PRoom populatedRoom)]).

Definition post_rooms_join (now : Z) (uid : ObjectId) (b : JoinBody) (db : Db)
  : Outcome :=
  match join_check now uid b db with
  | inl rejection => reply db rejection
  | inr (roomId, newPlayer) =>
      match join_save roomId newPlayer db with
      | None => reply db InternalError
      | Some db1 =>
          {| db_after := db1;
             response := (join_reply roomId db1).1;
             emitted := (join_reply roomId db1).2 |}
      end
  end.

(** ** POST /api/multiplayer/rooms/leave *)

(** [room.host = room.players[0].userId]. *)
Definition first_player_hosts (r : Room) : Room :=
  match players r with
  | p :: _ => set_host r (userId p)
  | [] => r
  end.

Definition post_rooms_leave (uid : ObjectId) (roomId : option ObjectId)
  (db : Db) : Outcome :=
  match roomId ≫= λ id, pair id <$> rooms db !! id with
  | None => reply db NotFound
  | Some (roomId, room) =>
      let room := set_players room (filter (λ p, userId p ≠ uid) (players room)) in
      if bool_decide (length (players room) = 0%nat) then
        {| db_after := set_rooms db (delete roomId (rooms db));
           response := LeftRoom;
           emitted := [io_emit "room-closed" (PRoomId roomId)] |}
      else
        let room :=
          if bool_decide (host room = uid) then first_player_hosts room
          else room in
        {| db_after := set_rooms db (<[roomId := room]> (rooms db));
           response := LeftRoom;
           emitted := [io_to_emit roomId "player-left"
                         (PRoom (Some (toJSON roomId room)))] |}
  end.

(** ** GET /api/multiplayer/rooms *)

(** [.sort({ createdAt: -1 })]. *)
Definition newest_first (a b : ObjectId * Room) : Prop :=
  createdAt b.2 ≤ createdAt a.2.

Global Instance newest_first_dec : RelDecision newest_first.
Proof. intros a b. unfold newest_first. apply _. Defined.

Definition get_rooms (db : Db) : Outcome :=
  let found :=
    filter (λ ir : ObjectId * Room, status ir.2 = waiting ∧ isPublic ir.2 = true)
      (map_to_list (rooms db)) in
  reply db (json 200 (BRooms ((λ ir, populated (users db) ir.1 ir.2)
                                <$> merge_sort newest_first found))).

(** ** The server as a transition system *)

Inductive Request :=
  | CreateRoom (uid : ObjectId) (b : CreateBody)
  | JoinRoom (uid : ObjectId) (b : JoinBody)
  | LeaveRoom (uid : ObjectId) (roomId : option ObjectId)
  | ListRooms.

(** One request handled from start to end, [now] being what [Date.now]
    returns while it runs. *)
Definition handle (now : Z) (q : Request) (db : Db) : Outcome :=
  match q with
  | CreateRoom uid b => post_rooms now uid b db
  | JoinRoom uid b => post_rooms_join now uid b db
  | LeaveRoom uid roomId => post_rooms_leave uid roomId db
  | ListRooms => get_rooms db
  end.

(** Requests handled in turn, each from start to end before the next
    begins, with what [Date.now] returned while each ran. The server also
    reaches databases no such run gives: its handlers interleave at their
    [await]s, as in the section on two join requests in flight. *)
Definition run (requests : list (Z * Request)) (db : Db) : Db :=
  foldl (λ db tq, db_after (handle tq.1 tq.2 db)) db requests.

(** The clock never went back during the run. *)
Definition clock_never_back (requests : list (Z * Request)) : Prop :=
  StronglySorted Z.le requests.*1.

(** Every payload a response or an event carries to clients. *)
Definition body_rooms (b : Body) : list RoomJson :=
  match b with
  | BRoom (Some j) => [j]
  | BRooms js => js
  | _ => []
  end.

Definition event_rooms (e : Event) : list RoomJson :=
  match e with
  | io_emit _ (PRoom (Some j)) | io_to_emit _ _ (PRoom (Some j)) => [j]
  | _ => []
  end.

Definition sent_rooms (o : Outcome) : list RoomJson :=
  body_rooms (body (response o)) ++ emitted o ≫= event_rooms.

(** A 2xx answer. *)
Definition succeeded (r : Response) : bool :=
  bool_decide (200 ≤ code r < 300).

(** ** Two join requests in flight

    A handler gives the event loop back at each [await]: after the first
    [findById], after [save], and after the second [findById]. What runs
    between two awaits runs alone. A task is a join request at one of
    these points; the scheduler picks which of two tasks moves next. *)

Inductive JoinTask :=
  | Arrived (now : Z) (uid : ObjectId) (b : JoinBody)
  | Pushed (roomId : ObjectId) (newPlayer : Player)
  | Saved (roomId : ObjectId)
  | Answered (r : Response).

Definition task_step (t : JoinTask) (db : Db) : JoinTask * Db * list Event :=
  match t with
  | Arrived now uid b =>
      match join_check now uid b db with
      | inl rejection => (Answered rejection, db, [])
      | inr (roomId, newPlayer) => (Pushed roomId newPlayer, db, [])
      end
  | Pushed roomId newPlayer =>
      match join_save roomId newPlayer db with
      | None => (Answered InternalError, db, [])
      | Some db1 => (Saved roomId, db1, [])
      end
  | Saved roomId =>
      (Answered (join_reply roomId db).1, db, (join_reply roomId db).2)
  | Answered r => (Answered r, db, [])
  end.

Record Race := {
  task1 : JoinTask;
  task2 : JoinTask;
  shared : Db;
  log : list Event;
}.

(** The scheduler resumes the second task ([true]) or the first. *)
Definition race_step (s : Race) (second : bool) : Race :=
  if second then
    let '(t, db, evs) := task_step (task2 s) (shared s) in
    {| task1 := task1 s; task2 := t; shared := db; log := log s ++ evs |}
  else
    let '(t, db, evs) := task_step (task1 s) (shared s) in
    {| task1 := t; task2 := task2 s; shared := db; log := log s ++ evs |}.

Definition race (schedule : list bool) (s : Race) : Race :=
  foldl race_step s schedule.

Definition two_joins (db : Db) (now1 : Z) (uid1 : ObjectId) (b1 : JoinBody)
  (now2 : Z) (uid2 : ObjectId) (b2 : JoinBody) : Race :=
  {| task1 := Arrived now1 uid1 b1; task2 := Arrived now2 uid2 b2;
     shared := db; log := [] |}.

Definition answer (t : JoinTask) : option Response :=
  match t with
  | Answered r => Some r
  | _ => None
  end.

(** Both read the room before either saves. *)
Definition both_read_first : list bool :=
  [false; true; false; true; false; true].

(** Both read, and the second saves before the first does. *)
Definition second_overtakes : list bool :=
  [false; true; true; false; true; false].

(** ** The native-driver back end ([src/unnamed/part_002]) *)

Module Native.

(** The routes write [new require('mongodb').ObjectId(id)], which is
    [(new require('mongodb')).ObjectId(id)]: [ObjectId] is called as a
    function, without [new]. The sources do not say which driver is
    installed. Up to version 4 of the driver such a call returns the id;
    from version 5 on [ObjectId] is a class, the call throws, and the
    [catch] of the route answers 500. [plain_call] tells whether the driver
    lets [ObjectId] be called that way. *)

(** [updateOne({ _id }, { $pull: { players: { userId } } })]. *)
Definition pull_player (uid roomId : ObjectId) (db : Db) : Db :=
  set_rooms db
    (alter (λ r, set_players r (filter (λ p, userId p ≠ uid) (players r)))
       roomId (rooms db)).

(** [updateOne({ _id }, { $set: { host } })]. *)
Definition set_room_host (h roomId : ObjectId) (db : Db) : Db :=
  set_rooms db (alter (λ r, set_host r h) roomId (rooms db)).

Definition post_rooms_leave (plain_call : bool) (uid : ObjectId)
  (roomId : option ObjectId) (db : Db) : Outcome :=
  if negb plain_call then reply db InternalError
  else
  match roomId ≫= λ id, pair id <$> rooms db !! id with
  | None => reply db NotFound
  | Some (roomId, room) =>
      let db1 := pull_player uid roomId db in
      match rooms db1 !! roomId with
      | Some updatedRoom =>
          if bool_decide (length (players updatedRoom) = 0%nat) then
            {| db_after := set_rooms db1 (delete roomId (rooms db1));
               response := LeftRoom;
               emitted := [io_emit "room-closed" (PRoomId roomId)] |}
          else
            let db2 :=
              if bool_decide (host room = uid) then
                match players updatedRoom with
                | p :: _ => set_room_host (userId p) roomId db1
                | [] => db1
                end
              else db1 in
            {| db_after := db2;
               response := LeftRoom;
               emitted := [io_to_emit roomId "player-left"
                             (PRoom (Some (toJSON roomId updatedRoom)))] |}
      | None =>
          {| db_after := set_rooms db1 (delete roomId (rooms db1));
             response := LeftRoom;
             emitted := [io_emit "room-closed" (PRoomId roomId)] |}
      end
  end.

End Native.

(** ** The Firestore back end ([src/unnamed/part_003]) *)

Module Firestore.

Definition SaveNotFound : Response := json 404 (BError "Save not found").

(** The object literal of the create route; the user's [displayName] is
    kept in [username]. *)
Definition new_room (now : Z) (uid : ObjectId) (user : User) (b : CreateBody)
  : Room :=
  {| name := default "" (cb_name b);
     host := uid;
     maxPlayers := or_number (cb_maxPlayers b) 4;
     isPublic := not_false (cb_isPublic b);
     password := or_null (cb_password b);
     players := [ {| userId := uid;
                     playerName := or_string (cb_playerName b) (username user);
                     characterClass := or_string (cb_characterClass b) "Warrior";
                     level := or_number (cb_level b) 1;
                     joinedAt := now |} ];
     status := waiting;
     createdAt := now |}.

(** [{ ...room, host: { username: user.displayName } }] once [room.id] is
    set. *)
Definition with_host_name (id : ObjectId) (r : Room) (user : User) : RoomJson :=
  {| j_id := Some id; j_name := name r; j_host := HostName (username user);
     j_players := players r; j_maxPlayers := maxPlayers r;
     j_isPublic := isPublic r; j_status := status r;
     j_password := password r; j_createdAt := createdAt r |}.

Definition post_rooms (now : Z) (uid : ObjectId) (b : CreateBody) (db : Db)
  : Outcome :=
  if negb (truthy (cb_name b)) then reply db ValidationError_name
  else
    match users db !! uid with
    | None => reply db UserNotFound
    | Some user =>
        let room := new_room now uid user b in
        let populatedRoom := with_host_name (nextId db) room user in
        {| db_after := insert_room room db;
           response := json 201 (BRoom (Some populatedRoom));
           emitted := [io_emit "room-created" (PRoom (Some populatedRoom))] |}
    end.

(** [doc.data()]: the stored fields, without the document id. *)
Definition data (r : Room) : RoomJson :=
  {| j_id := None; j_name := name r; j_host := HostId (host r);
     j_players := players r; j_maxPlayers := maxPlayers r;
     j_isPublic := isPublic r; j_status := status r;
     j_password := password r; j_createdAt := createdAt r |}.

Definition post_rooms_leave (uid : ObjectId) (roomId : option ObjectId)
  (db : Db) : Outcome :=
  match roomId with
  | None => reply db InternalError
  | Some roomId =>
      match rooms db !! roomId with
      | None => reply db SaveNotFound
      | Some room =>
          let players' := filter (λ p, userId p ≠ uid) (players room) in
          if bool_decide (length players' = 0%nat) then
            {| db_after := set_rooms db (delete roomId (rooms db));
               response := LeftRoom;
               emitted := [io_emit "room-closed" (PRoomId roomId)] |}
          else
            let newHost :=
              if bool_decide (host room = uid) then
                match players' with
                | p :: _ => userId p
                | [] => host room
                end
              else host room in
            let updatedRoom := set_host (set_players room players') newHost in
            {| db_after := set_rooms db (<[roomId := updatedRoom]> (rooms db));
               response := LeftRoom;
               emitted := [io_to_emit roomId "player-left"
                             (PRoom (Some (data updatedRoom)))] |}
      end
  end.

End Firestore.

(** ** Properties of rooms *)

(** The invariant of a registered room. *)
Definition room_ok (r : Room) : Prop :=
  (1 ≤ Z.of_nat (length (players r))
   ∧ (Z.of_nat (length (players r)) ≤ maxPlayers r)%num)
  ∧ host r ∈ userId <$> players r.

Global Instance room_ok_dec r : Decision (room_ok r).
Proof. unfold room_ok. apply _. Defined.

Definition registry_ok (db : Db) : Prop :=
  map_Forall (λ _ r, room_ok r) (rooms db).

(** [j] is a snapshot of the room stored under [id]: it names the room and
    shows its name, players, capacity, visibility, status and creation
    time. (How it shows the host, and whether it shows the password, is
    the back end's choice.) *)
Definition snapshot_of (id : ObjectId) (r : Room) (j : RoomJson) : Prop :=
  j_id j = Some id ∧ j_name j = name r ∧ j_players j = players r
  ∧ j_maxPlayers j = maxPlayers r ∧ j_isPublic j = isPublic r
  ∧ j_status j = status r ∧ j_createdAt j = createdAt r.

(** What a create request asks for as capacity, after the default. *)
Definition create_capacity (q : Request) : option Number :=
  match q with
  | CreateRoom _ b => Some (or_number (cb_maxPlayers b) 4)
  | _ => None
  end.

(** The capacity of the room a join request names, if the room is there. *)
Definition joined_capacity (q : Request) (db : Db) : option Number :=
  match q with
  | JoinRoom _ b => jb_roomId b ≫= λ roomId, maxPlayers <$> rooms db !! roomId
  | _ => None
  end.

(** Members in the order they joined. *)
Definition joined_before (p q : Player) : Prop := joinedAt p ≤ joinedAt q.

Definition in_join_order (ps : list Player) : Prop :=
  StronglySorted joined_before ps.

(** [p] is a member of [ps] no other member joined before. *)
Definition earliest (p : Player) (ps : list Player) : Prop :=
  p ∈ ps ∧ Forall (joined_before p) ps.

(** No serialized room of the list has a [password] key. *)
Definition password_omitted (js : list RoomJson) : Prop :=
  Forall (λ j, j_password j = missing) js.

Global Instance password_omitted_dec js : Decision (password_omitted js).
Proof. unfold password_omitted. apply _. Defined.

(** The players of a room stand in the order they joined, and none of
    them joined after time [t]. *)
Definition room_timeline (t : Z) (r : Room) : Prop :=
  in_join_order (players r) ∧ Forall (λ p, joinedAt p ≤ t) (players r).

Definition registry_timeline (t : Z) (db : Db) : Prop :=
  map_Forall (λ _ r, room_timeline t r) (rooms db).

(** ** A small world to run the routes in *)

Definition alice : ObjectId := 1%positive.
Definition bob : ObjectId := 2%positive.
Definition carol : ObjectId := 3%positive.

(** Three registered users and no room. *)
Definition db0 : Db :=
  {| users := <[alice := {| username := "alice" |}]>
                (<[bob := {| username := "bob" |}]>
                   (<[carol := {| username := "carol" |}]> ∅));
     rooms := ∅;
     nextId := 1%positive |}.

Definition create_body (n : string) (mp : option Number) (pub : JsValue)
  (pw : option string) : CreateBody :=
  {| cb_name := Some n; cb_maxPlayers := mp; cb_isPublic := pub;
     cb_password := pw; cb_playerName := None; cb_characterClass := None;
     cb_level := None |}.

Definition join_body (roomId : ObjectId) (pn : option string)
  (pw : option string) : JoinBody :=
  {| jb_roomId := Some roomId; jb_playerName := pn;
     jb_characterClass := None; jb_level := None; jb_password := pw |}.

(** Alice opens the public room "Warriors" for two players at time 10. *)
Definition db_warriors : Db :=
  db_after
    (handle 10
       (CreateRoom alice (create_body "Warriors" (Some (whole 2)) (js_bool true) None))
       db0).

(** The room as stored then. *)
Definition room_warriors : Room :=
  {| name := "Warriors"; host := alice;
     players :=
       [ {| userId := alice; playerName := "alice";
            characterClass := "Warrior"; level := 1; joinedAt := 10 |} ];
     maxPlayers := 2; isPublic := true; status := waiting;
     password := missing; createdAt := 10 |}.

(** Bob joins it at time 20: the room is full. *)
Definition db_warriors_full : Db :=
  db_after
    (handle 20 (JoinRoom bob (join_body 1%positive (Some "Bob") None))
       db_warriors).

(** The room with both of them. *)
Definition room_warriors_full : Room :=
  {| name := "Warriors"; host := alice;
     players :=
       [ {| userId := alice; playerName := "alice";
            characterClass := "Warrior"; level := 1; joinedAt := 10 |};
         {| userId := bob; playerName := "Bob";
            characterClass := "Warrior"; level := 1; joinedAt := 20 |} ];
     maxPlayers := 2; isPublic := true; status := waiting;
     password := missing; createdAt := 10 |}.

(** Alice opens a room with the password "secret" for four players, and Bob
    joins it with the password. *)
Definition db_secret : Db :=
  db_after
    (handle 20
       (JoinRoom bob (join_body 1%positive (Some "Bob") (Some "secret")))
       (db_after
          (handle 10
             (CreateRoom alice
                (create_body "Vault" None js_undefined (Some "secret")))
             db0))).

(** Alice opens a room for one and a half players. *)
Definition one_and_a_half : Number := finite (Q2Qc (3 # 2)%Q).

Definition db_half : Db :=
  db_after
    (handle 10
       (CreateRoom alice
          (create_body "Half" (Some one_and_a_half) js_undefined None))
       db0).

(** Alice opens "Arena" with the default capacity of four. *)
Definition db_arena : Db :=
  db_after
    (handle 10 (CreateRoom alice (create_body "Arena" None js_undefined None))
       db0).

(** Then Bob's join is handled at 20 and Carol's at 30. *)
Definition arena_requests : list (Z * Request) :=
  [ (10, CreateRoom alice (create_body "Arena" None js_undefined None));
    (20, JoinRoom bob (join_body 1%positive (Some "Bob") None));
    (30, JoinRoom carol (join_body 1%positive (Some "Carol") None)) ].

Definition db_arena_three : Db := run arena_requests db0.

Definition room_arena_three : Room :=
  {| name := "Arena"; host := alice;
     players :=
       [ {| userId := alice; playerName := "alice";
            characterClass := "Warrior"; level := 1; joinedAt := 10 |};
         {| userId := bob; playerName := "Bob";
            characterClass := "Warrior"; level := 1; joinedAt := 20 |};
         {| userId := carol; playerName := "Carol";
            characterClass := "Warrior"; level := 1; joinedAt := 30 |} ];
     maxPlayers := 4; isPublic := true; status := waiting;
     password := missing; createdAt := 10 |}.

(** ** More predicates on the registry *)

(** No user is twice among the players of a room. *)
Definition members_unique (db : Db) : Prop :=
  map_Forall (λ _ r, NoDup (userId <$> players r)) (rooms db).

(** The room a request names, if it names one. *)
Definition target (q : Request) : option ObjectId :=
  match q with
  | JoinRoom _ b => jb_roomId b
  | LeaveRoom _ roomId => roomId
  | _ => None
  end.

(** ** The other room routes of the native-driver back end
    ([src/unnamed/part_002]) *)

Definition set_password (r : Room) (pw : Field string) : Room :=
  {| name := name r; host := host r; players := players r;
     maxPlayers := maxPlayers r; isPublic := isPublic r; status := status r;
     password := pw; createdAt := createdAt r |}.

Definition set_j_host (j : RoomJson) (h : HostJson) : RoomJson :=
  {| j_id := j_id j; j_name := j_name j; j_host := h;
     j_players := j_players j; j_maxPlayers := j_maxPlayers j;
     j_isPublic := j_isPublic j; j_status := j_status j;
     j_password := j_password j; j_createdAt := j_createdAt j |}.

Module NativeRoutes.

(** [insertOne(room)]: the driver writes a field that is [undefined] in
    the object as [null]. *)
Definition as_inserted (r : Room) : Room :=
  match password r with
  | missing => set_password r null
  | _ => r
  end.

(** The create route. The room object it builds is the one of the Mongoose
    route, with the schema defaults written out; the answer and the event
    carry [{ ...room }] with [host] replaced by the user's name. The user
    is looked up by [ObjectId(req.user.userId)] ([plain_call], see
    [Native]). *)
Definition post_rooms (plain_call : bool) (now : Z) (uid : ObjectId)
  (b : CreateBody) (db : Db) : Outcome :=
  if negb (truthy (cb_name b)) then reply db ValidationError_name
  else if negb plain_call then reply db InternalError
  else
    match users db !! uid with
    | None => reply db UserNotFound
    | Some user =>
        let room := new_room now uid user b in
        let populatedRoom := Firestore.with_host_name (nextId db) room user in
        {| db_after := insert_room (as_inserted room) db;
           response := json 201 (BRoom (Some populatedRoom));
           emitted := [io_emit "room-created" (PRoom (Some populatedRoom))] |}
    end.

(** A stored room with its host looked up in [users] (projection
    [{ username: 1 }]), every other field as stored. *)
Definition with_host (us : gmap ObjectId User) (id : ObjectId) (r : Room)
  : RoomJson :=
  set_j_host (toJSON id r) (populate_host us r).

(** The join route: the checks of the Mongoose route on the room as read,
    the [$push], and the room read again, sent with its host looked up.
    The room is looked up by [ObjectId(roomId)] once the body has been
    checked for [roomId] and [playerName]. *)
Definition post_rooms_join (plain_call : bool) (now : Z) (uid : ObjectId)
  (b : JoinBody) (db : Db) : Outcome :=
  if negb plain_call then
    if bool_decide (is_Some (jb_roomId b)) && truthy (jb_playerName b)
    then reply db InternalError
    else reply db ValidationError_join
  else
  match join_check now uid b db with
  | inl rejection => reply db rejection
  | inr (roomId, newPlayer) =>
      match join_save roomId newPlayer db with
      | None => reply db InternalError
      | Some db1 =>
          match rooms db1 !! roomId with
          | None => reply db1 InternalError
          | Some updatedRoom =>
              let updatedRoom := with_host (users db1) roomId updatedRoom in
              {| db_after := db1;
                 response := json 200 (BRoom (Some updatedRoom));
                 emitted := [io_to_emit roomId "player-joined"
                               (PRoom (Some updatedRoom))] |}
          end
      end
  end.

(** The list route: [find({ status: 'waiting', isPublic: true })
    .sort({ createdAt: -1 })], each room with its host looked up by
    [ObjectId(room.host)]. *)
Definition get_rooms (plain_call : bool) (db : Db) : Outcome :=
  let found :=
    filter (λ ir : ObjectId * Room, status ir.2 = waiting ∧ isPublic ir.2 = true)
      (map_to_list (rooms db)) in
  if negb plain_call && bool_decide (found ≠ []) then reply db InternalError
  else
    reply db (json 200 (BRooms ((λ ir, with_host (users db) ir.1 ir.2)
                                  <$> merge_sort newest_first found))).

End NativeRoutes.

(** ** The join route of the Firestore back end ([src/unnamed/part_003]) *)

Module FirestoreRoutes.

(** The checks are those of the Mongoose route. The update is written
    [roomRef.update({ players: admin.firestore.FieldValue.arrayUnion(..) })],
    and [admin] is declared only inside [authenticateToken]: evaluating the
    argument throws a ReferenceError before [update] is called, and the
    [catch] of the route answers 500. *)
Definition post_rooms_join (now : Z) (uid : ObjectId) (b : JoinBody) (db : Db)
  : Outcome :=
  match join_check now uid b db with
  | inl rejection => reply db rejection
  | inr _ => reply db InternalError
  end.

End FirestoreRoutes.

(** ** The token middleware ([authenticateToken])

    [jwt.verify] belongs to a library: it is a parameter, telling for each
    token whether it is a valid one and, if so, which user it names. *)

From Stdlib Require Import Ascii.

(** [s.split(' ')]: the pieces of [s] between single spaces; never empty. *)
Fixpoint split_space (s : string) : list string :=
  match s with
  | EmptyString => [""]
  | String c s' =>
      if decide (c = " "%char) then "" :: split_space s'
      else
        match split_space s' with
        | piece :: pieces => String c piece :: pieces
        | [] => [String c ""]
        end
  end.

(** Whether a string holds a space. *)
Fixpoint has_space (s : string) : bool :=
  match s with
  | EmptyString => false
  | String c s' => bool_decide (c = " "%char) || has_space s'
  end.

(** [authHeader && authHeader.split(' ')[1]], for the header as sent
    ([None] when the request has none). What comes out is falsy when it is
    [None] or [""]. *)
Definition header_token (authHeader : option string) : option string :=
  match authHeader with
  | None => None
  | Some h => if bool_decide (h = "") then Some "" else split_space h !! 1%nat
  end.

Definition AccessTokenRequired : Response :=
  json 401 (BError "Access token required").
Definition InvalidToken : Response :=
  json 403 (BError "Invalid or expired token").

Section middleware.

Variable jwt_verify : string → option ObjectId.

(** The answer that ends the request, or the user id put into [req.user]
    before [next()]. *)
Definition authenticateToken (authHeader : option string)
  : Response + ObjectId :=
  if negb (truthy (header_token authHeader)) then inl AccessTokenRequired
  else
    match jwt_verify (default "" (header_token authHeader)) with
    | None => inl InvalidToken
    | Some user => inr user
    end.

(** A route registered behind the middleware. *)
Definition behind_token (authHeader : option string)
  (route : ObjectId → Db → Outcome) (db : Db) : Outcome :=
  match authenticateToken authHeader with
  | inl refusal => reply db refusal
  | inr uid => route uid db
  end.

(** The four room routes as registered: the list is open, the others are
    behind the middleware. *)
Inductive Call :=
  | GetRooms
  | PostRooms (authHeader : option string) (b : CreateBody)
  | PostJoin (authHeader : option string) (b : JoinBody)
  | PostLeave (authHeader : option string) (roomId : option ObjectId).

Definition serve (now : Z) (c : Call) (db : Db) : Outcome :=
  match c with
  | GetRooms => get_rooms db
  | PostRooms h b => behind_token h (λ uid, post_rooms now uid b) db
  | PostJoin h b => behind_token h (λ uid, post_rooms_join now uid b) db
  | PostLeave h roomId => behind_token h (λ uid, post_rooms_leave uid roomId) db
  end.

End middleware.

(** ** What the lobby sends ([MultiplayerLobby.js])

    The lobby calls [fetch] with a [Content-Type] header only. *)

(** The request of [handleCreateRoom]. *)
Definition lobby_create (roomName playerName : string) : Call :=
  PostRooms None
    {| cb_name := Some roomName; cb_maxPlayers := Some (whole 4);
       cb_isPublic := js_bool true; cb_password := None;
       cb_playerName := Some playerName; cb_characterClass := None;
       cb_level := None |}.

(** The request of [handleJoinRoom]. *)
Definition lobby_join (roomId : ObjectId) (playerName : string) : Call :=
  PostJoin None
    {| jb_roomId := Some roomId; jb_playerName := Some playerName;
       jb_characterClass := None; jb_level := None; jb_password := None |}.

(** The request of [loadRooms]. *)
Definition lobby_load : Call := GetRooms.

(** ** The save-game routes of [src/server/index.js]

    A [Buffer] is the string of its bytes. [Buffer.from(s, 'base64')]
    belongs to the platform: it is a parameter of the routes. *)

(** A [SaveGame] document. *)
Record SaveGame := {
  s_userId : ObjectId;
  s_characterName : string;
  s_characterClass : string;
  s_level : Number;
  s_saveData : string;
  s_lastSaved : Z;
  s_gameVersion : string;
}.

(** The collection, and the [_id] of the next inserted save. *)
Record SaveStore := {
  savegames : gmap ObjectId SaveGame;
  nextSaveId : ObjectId;
}.

(** A save as listed: [.select('-saveData')]. *)
Record SaveInfo := {
  i_id : ObjectId;
  i_userId : ObjectId;
  i_characterName : string;
  i_characterClass : string;
  i_level : Number;
  i_lastSaved : Z;
  i_gameVersion : string;
}.

Definition info (id : ObjectId) (x : SaveGame) : SaveInfo :=
  {| i_id := id; i_userId := s_userId x;
     i_characterName := s_characterName x;
     i_characterClass := s_characterClass x; i_level := s_level x;
     i_lastSaved := s_lastSaved x; i_gameVersion := s_gameVersion x |}.

(** The [save] object of the answer to a POST. *)
Record SavedJson := {
  v_id : ObjectId;
  v_characterName : string;
  v_characterClass : string;
  v_level : Number;
  v_lastSaved : Z;
}.

Definition saved (id : ObjectId) (x : SaveGame) : SavedJson :=
  {| v_id := id; v_characterName := s_characterName x;
     v_characterClass := s_characterClass x; v_level := s_level x;
     v_lastSaved := s_lastSaved x |}.

Inductive SaveBody :=
  | SvError (error : string)
  | SvMessage (message : string)
  | SvList (saves : list SaveInfo)
  | SvFile (filename : string) (data : string)
  | SvSaved (message : string) (save : SavedJson).

Record SaveResponse := {
  sv_code : Z;
  sv_body : SaveBody;
}.

Definition SaveNotFound : SaveResponse :=
  {| sv_code := 404; sv_body := SvError "Save not found" |}.
Definition MissingFields : SaveResponse :=
  {| sv_code := 400; sv_body := SvError "Missing required fields" |}.
Definition SaveInternalError : SaveResponse :=
  {| sv_code := 500; sv_body := SvError "Internal server error" |}.
Definition SaveDeleted : SaveResponse :=
  {| sv_code := 200; sv_body := SvMessage "Save deleted successfully" |}.

(** [!!n] for a number field that may be missing. *)
Definition truthy_number (o : option Number) : bool :=
  match o with
  | Some n => bool_decide (n ≠ whole 0)
  | None => false
  end.

(** [findOne(query)]: a document that matches, if there is one. Which one
    comes back when several match is the database's choice; here it is the
    first of the collection as listed. *)
Definition findOne (matches : ObjectId * SaveGame → Prop)
  `{∀ ix, Decision (matches ix)} (m : gmap ObjectId SaveGame)
  : option (ObjectId * SaveGame) :=
  head (filter matches (map_to_list m)).

(** [.sort({ lastSaved: -1 })]. *)
Definition latest_first (a b : ObjectId * SaveGame) : Prop :=
  s_lastSaved b.2 ≤ s_lastSaved a.2.

Global Instance latest_first_dec : RelDecision latest_first.
Proof. intros a b. unfold latest_first. apply _. Defined.

(** GET /api/saves *)
Definition get_saves (uid : ObjectId) (st : SaveStore) : SaveResponse :=
  let found :=
    filter (λ ix : ObjectId * SaveGame, s_userId ix.2 = uid)
      (map_to_list (savegames st)) in
  {| sv_code := 200;
     sv_body := SvList ((λ ix, info ix.1 ix.2) <$> merge_sort latest_first found) |}.

(** Node refuses a header value that holds a code unit other than a tab,
    0x20 to 0x7e, or 0x80 to 0xff: [setHeader] throws. *)
Definition header_char (c : ascii) : bool :=
  let n := nat_of_ascii c in
  ((n =? 9) || ((32 <=? n) && (n <=? 126)) || (128 <=? n))%nat.

Fixpoint header_value (s : string) : bool :=
  match s with
  | EmptyString => true
  | String c s' => header_char c && header_value s'
  end.

(** GET /api/saves/:id. The character name goes into the
    [Content-Disposition] header, between [attachment; filename=] and
    [.sv]; when [res.set] throws, the [catch] of the route answers 500. *)
Definition get_save (uid : ObjectId) (id : ObjectId) (st : SaveStore)
  : SaveResponse :=
  match findOne (λ ix, ix.1 = id ∧ s_userId ix.2 = uid) (savegames st) with
  | None => SaveNotFound
  | Some (_, save) =>
      if header_value (s_characterName save) then
        {| sv_code := 200;
           sv_body := SvFile (s_characterName save +:+ ".sv")
                        (s_saveData save) |}
      else SaveInternalError
  end.

Record SaveRequest := {
  sr_characterName : option string;
  sr_characterClass : option string;
  sr_level : option Number;
  sr_saveData : option string;
}.

Section saves.

Variable from_base64 : string → string.

(** POST /api/saves. The schema requires [saveData]: Mongoose refuses an
    empty buffer, [save()] throws and the route answers 500. *)
Definition post_saves (now : Z) (uid : ObjectId) (b : SaveRequest)
  (st : SaveStore) : SaveStore * SaveResponse :=
  if negb (truthy (sr_characterName b)) || negb (truthy (sr_characterClass b))
     || negb (truthy_number (sr_level b)) || negb (truthy (sr_saveData b))
  then (st, MissingFields)
  else
    let characterName := default "" (sr_characterName b) in
    let buffer := from_base64 (default "" (sr_saveData b)) in
    match findOne (λ ix, s_userId ix.2 = uid
                         ∧ s_characterName ix.2 = characterName)
            (savegames st) with
    | Some (id, existingSave) =>
        if bool_decide (buffer = "") then (st, SaveInternalError)
        else
          let saveGame :=
            {| s_userId := s_userId existingSave;
               s_characterName := s_characterName existingSave;
               s_characterClass := s_characterClass existingSave;
               s_level := default (whole 0) (sr_level b);
               s_saveData := buffer;
               s_lastSaved := now;
               s_gameVersion := s_gameVersion existingSave |} in
          ({| savegames := <[id := saveGame]> (savegames st);
              nextSaveId := nextSaveId st |},
           {| sv_code := 201;
              sv_body := SvSaved "Game saved successfully" (saved id saveGame) |})
    | None =>
        if bool_decide (buffer = "") then (st, SaveInternalError)
        else
          let saveGame :=
            {| s_userId := uid;
               s_characterName := characterName;
               s_characterClass := default "" (sr_characterClass b);
               s_level := default (whole 0) (sr_level b);
               s_saveData := buffer;
               s_lastSaved := now;
               s_gameVersion := "1.0" |} in
          ({| savegames := <[nextSaveId st := saveGame]> (savegames st);
              nextSaveId := Pos.succ (nextSaveId st) |},
           {| sv_code := 201;
              sv_body := SvSaved "Game saved successfully"
                           (saved (nextSaveId st) saveGame) |})
    end.

End saves.

(** DELETE /api/saves/:id *)
Definition delete_save (uid : ObjectId) (id : ObjectId) (st : SaveStore)
  : SaveStore * SaveResponse :=
  match findOne (λ ix, ix.1 = id ∧ s_userId ix.2 = uid) (savegames st) with
  | None => (st, SaveNotFound)
  | Some (found, _) =>
      ({| savegames := delete found (savegames st);
          nextSaveId := nextSaveId st |},
       SaveDeleted)
  end.

(** Every save has an [_id] the database has given out, and no user has
    two saves of one character name. *)
Definition store_ok (st : SaveStore) : Prop :=
  (∀ i, is_Some (savegames st !! i) → (i < nextSaveId st)%positive)
  ∧ ∀ i j x y,
      savegames st !! i = Some x → savegames st !! j = Some y →
      s_userId x = s_userId y → s_characterName x = s_characterName y →
      i = j.

Definition no_saves : SaveStore :=
  {| savegames := ∅; nextSaveId := 1%positive |}.

Definition save_request (n c : string) (l : Number) (d : string) : SaveRequest :=
  {| sr_characterName := Some n; sr_characterClass := Some c;
     sr_level := Some l; sr_saveData := Some d |}.

(** Alice's save of Conan, and the collection that holds just it. *)
Definition conan : SaveGame :=
  {| s_userId := alice; s_characterName := "Conan";
     s_characterClass := "Warrior"; s_level := 7; s_saveData := "c2F2ZQ==";
     s_lastSaved := 10; s_gameVersion := "1.0" |}.

Definition one_save : SaveStore :=
  {| savegames := {[ 1%positive := conan ]}; nextSaveId := 2%positive |}.

(** ** The account routes of [src/server/index.js]

    A string is the sequence of its code units. [bcrypt.hash] (which draws
    a salt), [bcrypt.compare] and [jwt.sign] belong to libraries: they are
    parameters of the routes. *)

(** A [User] document. *)
Record Account := {
  a_username : string;
  a_email : string;
  a_password : string;
  a_createdAt : Z;
  a_lastLogin : Z;
}.

Record Accounts := {
  accounts : gmap ObjectId Account;
  nextAccountId : ObjectId;
}.

(** [{ token, user: { id, username, email } }]. *)
Record Session := {
  token : string;
  user_id : ObjectId;
  user_username : string;
  user_email : string;
}.

Inductive AuthBody :=
  | AuError (error : string)
  | AuSession (s : Session).

Record AuthResponse := {
  au_code : Z;
  au_body : AuthBody;
}.

Definition auth_error (c : Z) (e : string) : AuthResponse :=
  {| au_code := c; au_body := AuError e |}.

(** [User.findOne(query)], with the database's choice among several
    matches as for the saves. *)
Definition findUser (matches : ObjectId * Account → Prop)
  `{∀ ia, Decision (matches ia)} (m : gmap ObjectId Account)
  : option (ObjectId * Account) :=
  head (filter matches (map_to_list m)).

Record RegisterBody := {
  rb_username : option string;
  rb_email : option string;
  rb_password : option string;
}.

Record LoginBody := {
  lb_username : option string;
  lb_password : option string;
}.

Section accounts.

Variable bcrypt_hash : string → string → string.
Variable bcrypt_compare : string → string → bool.
Variable jwt_sign : ObjectId → Z → string.

(** POST /api/auth/register, [salt] being what [bcrypt.hash] draws. *)
Definition register (now : Z) (salt : string) (b : RegisterBody)
  (st : Accounts) : Accounts * AuthResponse :=
  if negb (truthy (rb_username b)) || negb (truthy (rb_email b))
     || negb (truthy (rb_password b))
  then (st, auth_error 400 "Username, email and password required")
  else
    let username := default "" (rb_username b) in
    let email := default "" (rb_email b) in
    let password := default "" (rb_password b) in
    if bool_decide (String.length password < 6)%nat
    then (st, auth_error 400 "Password must be at least 6 characters")
    else
      match findUser (λ ia, a_username ia.2 = username ∨ a_email ia.2 = email)
              (accounts st) with
      | Some _ => (st, auth_error 400 "User already exists")
      | None =>
          let user := {| a_username := username; a_email := email;
                         a_password := bcrypt_hash salt password;
                         a_createdAt := now; a_lastLogin := now |} in
          ({| accounts := <[nextAccountId st := user]> (accounts st);
              nextAccountId := Pos.succ (nextAccountId st) |},
           {| au_code := 201;
              au_body := AuSession
                           {| token := jwt_sign (nextAccountId st) now;
                              user_id := nextAccountId st;
                              user_username := username;
                              user_email := email |} |})
      end.

(** POST /api/auth/login *)
Definition login (now : Z) (b : LoginBody) (st : Accounts)
  : Accounts * AuthResponse :=
  if negb (truthy (lb_username b)) || negb (truthy (lb_password b))
  then (st, auth_error 400 "Username and password required")
  else
    let username := default "" (lb_username b) in
    let password := default "" (lb_password b) in
    match findUser (λ ia, a_username ia.2 = username ∨ a_email ia.2 = username)
            (accounts st) with
    | None => (st, auth_error 400 "Invalid credentials")
    | Some (id, user) =>
        if negb (bcrypt_compare password (a_password user))
        then (st, auth_error 400 "Invalid credentials")
        else
          let user := {| a_username := a_username user;
                         a_email := a_email user;
                         a_password := a_password user;
                         a_createdAt := a_createdAt user;
                         a_lastLogin := now |} in
          ({| accounts := <[id := user]> (accounts st);
              nextAccountId := nextAccountId st |},
           {| au_code := 200;
              au_body := AuSession
                           {| token := jwt_sign id now;
                              user_id := id;
                              user_username := a_username user;
                              user_email := a_email user |} |})
    end.

End accounts.

(** No two accounts share a user name, and no two share an email. *)
Definition accounts_unique (st : Accounts) : Prop :=
  ∀ i j x y,
    accounts st !! i = Some x → accounts st !! j = Some y →
    a_username x = a_username y ∨ a_email x = a_email y → i = j.

Definition no_accounts : Accounts :=
  {| accounts := ∅; nextAccountId := 1%positive |}.

Definition register_body (u e p : string) : RegisterBody :=
  {| rb_username := Some u; rb_email := Some e; rb_password := Some p |}.

Definition login_body (u p : string) : LoginBody :=
  {| lb_username := Some u; lb_password := Some p |}.

(** Stand-ins for bcrypt and jwt in examples: the hash is the password
    itself. *)
Definition toy_hash (salt password : string) : string := password.

Definition toy_compare (password hash : string) : bool :=
  bool_decide (hash = password).

Definition toy_sign (id : ObjectId) (now : Z) : string := "token".

(** ** The Socket.IO handlers of [src/server/index.js]

    The state is Socket.IO's: for each connected socket, by its id, the
    rooms it is in. A socket is in the room named by its own id from the
    moment it connects, and in no room once it has disconnected. *)

Inductive Message :=
  | on_connection
  | on_join_room (roomId : string)
  | on_leave_room (roomId : string)
  | on_game_event (roomId : string) (data : string)
  | on_chat_message (roomId : string) (data : string)
  | on_disconnect.

(** The sockets in a room. *)
Definition in_room (room : string) (sockets : gmap string (gset string))
  : gset string :=
  dom (filter (λ kv : string * gset string, room ∈ kv.2) sockets).

(** What a message from socket [sid] does: the state after, and the event
    relayed with the sockets it is sent to. *)
Definition on_message (sid : string) (m : Message)
  (sockets : gmap string (gset string))
  : gmap string (gset string) * option (gset string * string * string) :=
  match m with
  | on_connection => (<[sid := {[sid]}]> sockets, None)
  | on_join_room roomId => (alter (λ rooms, rooms ∪ {[roomId]}) sid sockets, None)
  | on_leave_room roomId => (alter (λ rooms, rooms ∖ {[roomId]}) sid sockets, None)
  | on_game_event roomId data =>
      (sockets, Some (in_room roomId sockets ∖ {[sid]}, "game-event", data))
  | on_chat_message roomId data =>
      (sockets, Some (in_room roomId sockets, "chat-message", data))
  | on_disconnect => (delete sid sockets, None)
  end.

(** The sockets a message is relayed to. *)
Definition receivers (sid : string) (m : Message)
  (sockets : gmap string (gset string)) : gset string :=
  match (on_message sid m sockets).2 with
  | Some (to, _, _) => to
  | None => ∅
  end.

(** * Properties *)

(** ** Numbers *)

Lemma Number_lt_nge a b : (a < b)%num ↔ ¬ (b ≤ a)%num.
Proof.
  destruct a as [p| |], b as [q| |]; unfold Number_lt, Number_le;
    try tauto. apply Qclt_nge.
Qed.

Lemma whole_le n m : (whole n ≤ whole m)%num ↔ n ≤ m.
Proof. unfold Number_le, whole. symmetry. apply Z2Qc_inj_le. Qed.

Lemma whole_lt n m : (whole n < whole m)%num ↔ n < m.
Proof. unfold Number_lt, whole. symmetry. apply Z2Qc_inj_lt. Qed.

Lemma Number_le_trans a b c : (a ≤ b)%num → (b ≤ c)%num → (a ≤ c)%num.
Proof.
  destruct a as [p| |], b as [q| |], c as [r| |]; unfold Number_le;
    try tauto. apply Qcle_trans.
Qed.

Lemma whole_inj n m : whole n = whole m → n = m.
Proof. intros [= H]. done. Qed.

(** Below a whole number, the next whole number is still within it. *)
Lemma whole_lt_succ n m : (whole n < m)%num → is_whole m → (whole (n + 1) ≤ m)%num.
Proof.
  intros Hlt [k ->]. apply (proj1 (whole_lt _ _)) in Hlt.
  apply (proj2 (whole_le _ _)). lia.
Qed.

(** ** Truthiness *)

Lemma truthy_false (o : option string) :
  truthy o = false ↔ o = None ∨ o = Some "".
Proof.
  destruct o as [s|]; simpl; [|by split; [left|]].
  rewrite bool_decide_eq_false. split.
  - intros Hs. right. f_equal. by destruct (decide (s = "")).
  - intros [|[= ->]]; [done|]. by intros [].
Qed.

Lemma truthy_true (o : option string) :
  truthy o = true ↔ ∃ s, o = Some s ∧ s ≠ "".
Proof.
  destruct o as [s|]; simpl.
  - rewrite bool_decide_eq_true. split; [by exists s|].
    by intros (s' & [= ->] & Hs).
  - split; [done|]. by intros (s & Hs & _).
Qed.

Lemma or_number_spec (o : option Number) (d : Number) :
  (o = None ∨ o = Some (whole 0) → or_number o d = d)
  ∧ (∀ n, o = Some n → n ≠ whole 0 → or_number o d = n).
Proof.
  split.
  - intros [->| ->]; reflexivity.
  - intros n -> Hn. unfold or_number. by rewrite bool_decide_eq_false_2.
Qed.

Lemma wrong_password_passwordless (stored : Field string) supplied :
  stored = missing ∨ stored = null ∨ stored = value "" →
  wrong_password stored supplied = false.
Proof. intros [->|[->| ->]]; reflexivity. Qed.

Lemma existingPlayer_None uid ps :
  existingPlayer uid ps = None ↔ uid ∉ (userId <$> ps).
Proof.
  unfold existingPlayer. induction ps as [|p ps IH]; simpl.
  - split; [intros _; apply not_elem_of_nil | done].
  - rewrite not_elem_of_cons, <- IH. case_bool_decide as Hp.
    + split; [done|]. by intros [[] _].
    + split; [by split|]. by intros [_ ?].
Qed.

(** ** Creating a room *)

Lemma new_room_players now uid user b :
  players (new_room now uid user b) =
    [ {| userId := uid;
         playerName := or_string (cb_playerName b) (username user);
         characterClass := or_string (cb_characterClass b) "Warrior";
         level := or_number (cb_level b) 1;
         joinedAt := now |} ].
Proof. reflexivity. Qed.

Lemma post_rooms_accepts now uid b db user :
  truthy (cb_name b) = true →
  users db !! uid = Some user →
  post_rooms now uid b db =
    {| db_after := insert_room (new_room now uid user b) db;
       response := json 201 (BRoom (Some (populated (users db) (nextId db)
                                            (new_room now uid user b))));
       emitted := [io_emit "room-created"
                     (PRoom (Some (populated (users db) (nextId db)
                                     (new_room now uid user b))))] |}.
Proof.
  intros Hname Huser. unfold post_rooms. rewrite Hname, Huser. simpl.
  unfold findById_populated, insert_room. simpl.
  by rewrite lookup_insert_eq.
Qed.

(** A create request is accepted exactly when it names the room and its
    sender is a known user. *)
Lemma post_rooms_succeeded now uid b db :
  succeeded (response (post_rooms now uid b db)) = true ↔
  truthy (cb_name b) = true ∧ is_Some (users db !! uid).
Proof.
  unfold post_rooms. destruct (truthy (cb_name b)); simpl.
  - destruct (users db !! uid); simpl; [|by split; [|intros [_ []]]].
    split; [by eauto|]. intros _. reflexivity.
  - split; [done | by intros []].
Qed.

(** C4 (as amended): a create request whose [name] is missing or empty is
    answered 400 "Room name required"; the database is left as it was and
    nothing is emitted. Nothing is promised for [maxPlayers < 1]. *)
Theorem C4_create_without_name_rejected now uid b db :
  cb_name b = None ∨ cb_name b = Some "" →
  let o := post_rooms now uid b db in
  response o = ValidationError_name ∧ db_after o = db ∧ emitted o = [].
Proof.
  intros Hname%truthy_false. unfold post_rooms. by rewrite Hname.
Qed.

Lemma C4_create_without_name_rejected_witness :
  let b := {| cb_name := Some ""; cb_maxPlayers := Some (whole 2);
              cb_isPublic := js_undefined; cb_password := None;
              cb_playerName := None; cb_characterClass := None;
              cb_level := None |} in
  let o := post_rooms 10 alice b db0 in
  response o = ValidationError_name ∧ db_after o = db0 ∧ emitted o = [].
Proof.
  apply (C4_create_without_name_rejected 10 alice _ db0). right. reflexivity.
Defined.

(** C4 as stated fails: [maxPlayers = 0 < 1] with a name is accepted, and a
    room (of capacity 4) is registered. *)
Lemma C4_zero_capacity_accepted :
  let b := create_body "Arena" (Some (whole 0)) js_undefined None in
  let o := post_rooms 10 alice b db0 in
  cb_maxPlayers b = Some (whole 0)
  ∧ code (response o) = 201
  ∧ rooms db0 !! 1%positive = None
  ∧ maxPlayers <$> rooms (db_after o) !! 1%positive = Some (whole 4).
Proof. vm_compute. done. Qed.

(** The Firestore create route accepts what the Mongoose one accepts. *)
Lemma Firestore_post_rooms_succeeded now uid b db :
  succeeded (response (Firestore.post_rooms now uid b db)) = true ↔
  truthy (cb_name b) = true ∧ is_Some (users db !! uid).
Proof.
  unfold Firestore.post_rooms. destruct (truthy (cb_name b)); simpl.
  - destruct (users db !! uid); simpl; [|by split; [|intros [_ []]]].
    split; [by eauto|]. intros _. reflexivity.
  - split; [done | by intros []].
Qed.

(** C7 (as amended): every accepted create request emits exactly one
    event, [room-created] to all connections with a snapshot of the new
    room, whether the room is public or not; a rejected one emits nothing.
    This holds for the Mongoose route and for the Firestore route. *)
Theorem C7_room_created_for_every_room now uid b db :
  (let o := post_rooms now uid b db in
   if succeeded (response o) then
     ∃ room j,
       rooms (db_after o) !! nextId db = Some room
       ∧ isPublic room = not_false (cb_isPublic b)
       ∧ snapshot_of (nextId db) room j
       ∧ emitted o = [io_emit "room-created" (PRoom (Some j))]
   else emitted o = [])
  ∧ (let o := Firestore.post_rooms now uid b db in
     if succeeded (response o) then
       ∃ room j,
         rooms (db_after o) !! nextId db = Some room
         ∧ isPublic room = not_false (cb_isPublic b)
         ∧ snapshot_of (nextId db) room j
         ∧ emitted o = [io_emit "room-created" (PRoom (Some j))]
     else emitted o = []).
Proof.
  split.
  - intros o. destruct (succeeded (response o)) eqn:Hok.
    + apply post_rooms_succeeded in Hok as [Hname [user Huser]].
      subst o. rewrite (post_rooms_accepts _ _ _ _ user) by done. simpl.
      eexists _, _. rewrite lookup_insert_eq.
      split; [reflexivity|]. split; [reflexivity|]. split; [|reflexivity].
      by repeat split.
    + subst o. revert Hok. unfold post_rooms.
      destruct (truthy (cb_name b)); simpl; [|done].
      by destruct (users db !! uid).
  - intros o. destruct (succeeded (response o)) eqn:Hok.
    + apply Firestore_post_rooms_succeeded in Hok as [Hname [user Huser]].
      subst o. unfold Firestore.post_rooms. rewrite Hname, Huser. simpl.
      eexists _, _. rewrite lookup_insert_eq.
      split; [reflexivity|]. split; [reflexivity|]. split; [|reflexivity].
      by repeat split.
    + subst o. revert Hok. unfold Firestore.post_rooms.
      destruct (truthy (cb_name b)); simpl; [|done].
      by destruct (users db !! uid).
Qed.

(** C7 as stated fails: creating a private room emits [room-created] to
    all connections, on the Mongoose route and on the Firestore route. *)
Lemma C7_private_room_announced :
  let b := create_body "Den" None (js_bool false) None in
  (let o := post_rooms 10 alice b db0 in
   code (response o) = 201
   ∧ isPublic <$> rooms (db_after o) !! 1%positive = Some false
   ∧ ∃ p, emitted o = [io_emit "room-created" p])
  ∧ (let o := Firestore.post_rooms 10 alice b db0 in
     code (response o) = 201
     ∧ isPublic <$> rooms (db_after o) !! 1%positive = Some false
     ∧ ∃ p, emitted o = [io_emit "room-created" p]).
Proof.
  split; (split; [by vm_compute|]; split; [by vm_compute | eexists; by vm_compute]).
Qed.

(** C9: an accepted create request stores capacity 4 when [maxPlayers] is
    left out or is 0 and the given number otherwise, stores a private room
    exactly when [isPublic] is [false], and seeds the creator with class
    "Warrior" and level 1 when those are left out (or are "" and 0). *)
Theorem C9_create_defaults now uid b db :
  succeeded (response (post_rooms now uid b db)) = true →
  ∃ room p,
    rooms (db_after (post_rooms now uid b db)) !! nextId db = Some room
    ∧ players room = [p]
    ∧ userId p = uid
    ∧ (cb_maxPlayers b = None ∨ cb_maxPlayers b = Some (whole 0) →
       maxPlayers room = 4)
    ∧ (∀ n, cb_maxPlayers b = Some n → n ≠ whole 0 → maxPlayers room = n)
    ∧ (isPublic room = false ↔ cb_isPublic b = js_bool false)
    ∧ characterClass p = match cb_characterClass b with
                         | None | Some "" => "Warrior"
                         | Some c => c
                         end
    ∧ (cb_level b = None ∨ cb_level b = Some (whole 0) → level p = 1)
    ∧ (∀ n, cb_level b = Some n → n ≠ whole 0 → level p = n).
Proof.
  intros [Hname [user Huser]]%post_rooms_succeeded.
  rewrite (post_rooms_accepts _ _ _ _ user) by done. simpl.
  eexists (new_room now uid user b), _.
  rewrite lookup_insert_eq, new_room_players. simpl.
  do 3 (split; [reflexivity|]).
  split; [apply or_number_spec|].
  split; [apply or_number_spec|].
  split; [destruct (cb_isPublic b) as [| |[]| |]; simpl; split; congruence|].
  split; [destruct (cb_characterClass b) as [[|a c]|]; reflexivity|].
  split; apply or_number_spec.
Qed.

Lemma C9_create_defaults_witness :
  ∃ room p,
    rooms (db_after (post_rooms 10 alice (create_body "Arena" (Some (whole 0)) js_undefined None) db0))
      !! nextId db0 = Some room
    ∧ players room = [p]
    ∧ userId p = alice
    ∧ maxPlayers room = 4
    ∧ (isPublic room = false ↔ js_undefined = js_bool false)
    ∧ characterClass p = "Warrior"
    ∧ level p = 1.
Proof.
  destruct (C9_create_defaults 10 alice
              (create_body "Arena" (Some (whole 0)) js_undefined None) db0)
    as (room & p & Hroom & Hp & Hu & Hmax & _ & Hpub & Hclass & Hlevel & _).
  - reflexivity.
  - exists room, p. split_and!; [exact Hroom|exact Hp|exact Hu| |exact Hpub
                                |exact Hclass|].
    + apply Hmax. right. reflexivity.
    + apply Hlevel. left. reflexivity.
Defined.

(** ** Joining a room *)

(** The checks pass exactly for a well-formed request on a waiting room
    with a free slot, the right password if one is set, and a new member. *)
Lemma join_check_passes now uid b db roomId room :
  jb_roomId b = Some roomId →
  truthy (jb_playerName b) = true →
  rooms db !! roomId = Some room →
  status room = waiting →
  (Z.of_nat (length (players room)) < maxPlayers room)%num →
  wrong_password (password room) (jb_password b) = false →
  uid ∉ (userId <$> players room) →
  join_check now uid b db =
    inr (roomId,
         {| userId := uid;
            playerName := default "" (jb_playerName b);
            characterClass := or_string (jb_characterClass b) "Warrior";
            level := or_number (jb_level b) 1;
            joinedAt := now |}).
Proof.
  intros Hid Hname Hroom Hstatus Hfree Hpw Hnew%existingPlayer_None.
  unfold join_check. rewrite Hid, Hname, Hroom, Hpw, Hnew. simpl.
  rewrite bool_decide_eq_false_2 by (intros Hne; by apply Hne).
  by rewrite bool_decide_eq_false_2 by (by apply Number_lt_nge).
Qed.

Lemma join_save_found roomId newPlayer db room :
  rooms db !! roomId = Some room →
  join_save roomId newPlayer db =
    Some (set_rooms db
            (<[roomId := set_players room (players room ++ [newPlayer])]>
               (rooms db))).
Proof. intros Hroom. unfold join_save. by rewrite Hroom. Qed.

(** What an accepted join leaves behind. *)
Lemma post_rooms_join_passed now uid b db roomId room newPlayer :
  join_check now uid b db = inr (roomId, newPlayer) →
  rooms db !! roomId = Some room →
  let room' := set_players room (players room ++ [newPlayer]) in
  post_rooms_join now uid b db =
    {| db_after := set_rooms db (<[roomId := room']> (rooms db));
       response := json 200 (BRoom (Some (populated (users db) roomId room')));
       emitted := [io_to_emit roomId "player-joined"
                     (PRoom (Some (populated (users db) roomId room')))] |}.
Proof.
  intros Hcheck Hroom. unfold post_rooms_join, join_save, join_reply.
  rewrite Hcheck, Hroom. simpl. unfold findById_populated. simpl.
  by rewrite lookup_insert_eq.
Qed.

(** A join that passes the checks names a room that is there. *)
Lemma join_check_room now uid b db roomId newPlayer :
  join_check now uid b db = inr (roomId, newPlayer) →
  ∃ room,
    rooms db !! roomId = Some room
    ∧ status room = waiting
    ∧ (Z.of_nat (length (players room)) < maxPlayers room)%num
    ∧ (uid ∉ userId <$> players room)
    ∧ userId newPlayer = uid
    ∧ joinedAt newPlayer = now.
Proof.
  unfold join_check. destruct (jb_roomId b) as [id|]; [|done].
  destruct (truthy (jb_playerName b)); simpl; [|done].
  destruct (rooms db !! id) as [room|] eqn:Hroom; [|done].
  case_bool_decide as Hstatus; [done|].
  case_bool_decide as Hfull; [done|].
  destruct (wrong_password _ _); [done|].
  destruct (existingPlayer uid (players room)) eqn:Hnew; [done|].
  intros [= <- <-]. exists room. simpl.
  apply existingPlayer_None in Hnew.
  split_and!; [done| |by apply Number_lt_nge|done|done|done].
  by destruct (decide (status room = waiting)).
Qed.

(** Every rejection of the join route is a 4xx answer. *)
Lemma join_check_rejection now uid b db rejection :
  join_check now uid b db = inl rejection → succeeded rejection = false.
Proof.
  unfold join_check. intros Hcheck.
  repeat (case_match; simplify_eq; try reflexivity).
Qed.

(** What a passed check tells about the request and the room. *)
Lemma join_check_passed now uid b db roomId newPlayer :
  join_check now uid b db = inr (roomId, newPlayer) →
  ∃ room n,
    jb_roomId b = Some roomId
    ∧ jb_playerName b = Some n ∧ n ≠ ""
    ∧ rooms db !! roomId = Some room
    ∧ status room = waiting
    ∧ (Z.of_nat (length (players room)) < maxPlayers room)%num
    ∧ wrong_password (password room) (jb_password b) = false
    ∧ (uid ∉ userId <$> players room)
    ∧ newPlayer = {| userId := uid; playerName := n;
                     characterClass := or_string (jb_characterClass b) "Warrior";
                     level := or_number (jb_level b) 1;
                     joinedAt := now |}.
Proof.
  unfold join_check. destruct (jb_roomId b) as [id|]; [|done].
  destruct (truthy (jb_playerName b)) eqn:Hname; simpl; [|done].
  apply truthy_true in Hname as (n & Hn & Hne).
  destruct (rooms db !! id) as [room|] eqn:Hroom; [|done].
  case_bool_decide as Hstatus; [done|].
  case_bool_decide as Hfull; [done|].
  destruct (wrong_password _ _) eqn:Hpw; [done|].
  destruct (existingPlayer uid (players room)) eqn:Hnew; [done|].
  intros [= <- <-]. exists room, n. rewrite Hn. simpl.
  apply existingPlayer_None in Hnew.
  assert (status room = waiting) as Hwaiting
    by (by destruct (decide (status room = waiting))).
  split_and!; try done. by apply Number_lt_nge.
Qed.

(** A rejected join changes nothing and emits nothing. *)
Lemma post_rooms_join_rejected now uid b db rejection :
  join_check now uid b db = inl rejection →
  post_rooms_join now uid b db = reply db rejection.
Proof. intros Hcheck. unfold post_rooms_join. by rewrite Hcheck. Qed.

(** On a full waiting room a well-formed join stops at the capacity
    check. *)
Lemma join_check_full now uid b db roomId room :
  jb_roomId b = Some roomId →
  truthy (jb_playerName b) = true →
  rooms db !! roomId = Some room →
  status room = waiting →
  (maxPlayers room ≤ Z.of_nat (length (players room)))%num →
  join_check now uid b db = inl RoomFull.
Proof.
  intros Hid Hname Hroom Hstatus Hfull.
  unfold join_check. rewrite Hid, Hname, Hroom. simpl.
  rewrite bool_decide_eq_false_2 by (intros Hne; by apply Hne).
  by rewrite bool_decide_eq_true_2.
Qed.

(** C5 (as amended): a join request that names the room and carries a
    non-empty player name, on a waiting room whose [players.length] is at
    least [maxPlayers], is answered 400 "Room is full"; the database (and
    with it the room) is left as it was and nothing is emitted. *)
Theorem C5_join_full_room now uid b db roomId room :
  jb_roomId b = Some roomId →
  (∃ n, jb_playerName b = Some n ∧ n ≠ "") →
  rooms db !! roomId = Some room →
  status room = waiting →
  (maxPlayers room ≤ Z.of_nat (length (players room)))%num →
  let o := post_rooms_join now uid b db in
  response o = RoomFull ∧ db_after o = db ∧ emitted o = [].
Proof.
  intros Hid Hname%truthy_true Hroom Hstatus Hfull.
  pose proof (join_check_full now uid b db roomId room Hid Hname Hroom
                Hstatus Hfull) as Hcheck.
  simpl. by rewrite (post_rooms_join_rejected _ _ _ _ _ Hcheck).
Qed.

Lemma C5_join_full_room_witness :
  let o := post_rooms_join 30 carol (join_body 1%positive (Some "Carol") None)
             db_warriors_full in
  response o = RoomFull ∧ db_after o = db_warriors_full ∧ emitted o = [].
Proof.
  eapply (C5_join_full_room 30 carol _ db_warriors_full 1%positive).
  - reflexivity.
  - exists "Carol". split; [reflexivity | discriminate].
  - reflexivity.
  - reflexivity.
  - vm_compute. discriminate.
Defined.

(** C5 as stated fails: a join without a player name on a full waiting
    room is answered "Room ID and player name required", not "Room is
    full". *)
Lemma C5_join_without_player_name :
  let o := post_rooms_join 30 carol (join_body 1%positive None None)
             db_warriors_full in
  (∃ room, rooms db_warriors_full !! 1%positive = Some room
           ∧ status room = waiting
           ∧ (maxPlayers room ≤ Z.of_nat (length (players room)))%num)
  ∧ response o = ValidationError_join
  ∧ response o ≠ RoomFull.
Proof.
  split; [|split; [reflexivity | discriminate]].
  eexists. split; [reflexivity|]. split; [reflexivity|]. vm_compute. discriminate.
Qed.

(** C10: a create request with the password "" stores a room without the
    [password] field; and on a room whose stored password is missing, null
    or "", a join that meets every other condition is accepted whatever
    password its body holds: the new member is appended and the answer is
    200. *)
Theorem C10_passwordless_rooms nowc uidc bc dbc now uid b db roomId room :
  (cb_password bc = Some "" →
   succeeded (response (post_rooms nowc uidc bc dbc)) = true →
   password <$> rooms (db_after (post_rooms nowc uidc bc dbc)) !! nextId dbc
     = Some missing)
  ∧ (password room = missing ∨ password room = null ∨ password room = value "" →
     jb_roomId b = Some roomId →
     (∃ n, jb_playerName b = Some n ∧ n ≠ "") →
     rooms db !! roomId = Some room →
     status room = waiting →
     (Z.of_nat (length (players room)) < maxPlayers room)%num →
     uid ∉ (userId <$> players room) →
     let o := post_rooms_join now uid b db in
     code (response o) = 200
     ∧ ∃ p, userId p = uid
            ∧ rooms (db_after o) !! roomId
              = Some (set_players room (players room ++ [p]))).
Proof.
  split.
  - intros Hpw [Hname [user Huser]]%post_rooms_succeeded.
    rewrite (post_rooms_accepts _ _ _ _ user) by done. simpl.
    rewrite lookup_insert_eq. simpl. by rewrite Hpw.
  - intros Hpw Hid Hname%truthy_true Hroom Hstatus Hfree Hnew.
    pose proof (join_check_passes now uid b db roomId room Hid Hname Hroom
                  Hstatus Hfree
                  (wrong_password_passwordless _ (jb_password b) Hpw) Hnew)
      as Hcheck.
    simpl. rewrite (post_rooms_join_passed _ _ _ _ _ _ _ Hcheck Hroom). simpl.
    split; [done|]. eexists. split; [|by rewrite lookup_insert_eq]. done.
Qed.

Lemma C10_passwordless_rooms_witness :
  let bc := create_body "Open" None js_undefined (Some "") in
  let b := join_body 1%positive (Some "Bob") (Some "anything") in
  let db := db_after (post_rooms 10 alice bc db0) in
  password <$> rooms db !! 1%positive = Some missing
  ∧ code (response (post_rooms_join 20 bob b db)) = 200.
Proof.
  pose (bc := create_body "Open" None js_undefined (Some "")).
  pose (b := join_body 1%positive (Some "Bob") (Some "anything")).
  pose (db := db_after (post_rooms 10 alice bc db0)).
  destruct (C10_passwordless_rooms 10 alice bc db0 20 bob b db 1%positive
              (new_room 10 alice {| username := "alice" |} bc)) as [Hcreate Hjoin].
  split.
  - apply Hcreate; reflexivity.
  - apply Hjoin.
    + left. reflexivity.
    + reflexivity.
    + exists "Bob". split; [reflexivity | discriminate].
    + reflexivity.
    + reflexivity.
    + vm_compute. reflexivity.
    + simpl. apply not_elem_of_cons. split; [discriminate | apply not_elem_of_nil].
Defined.

(** ** Leaving a room *)

Lemma post_rooms_leave_lookup (roomId : ObjectId) room db :
  rooms db !! roomId = Some room →
  (Some roomId ≫= λ id, pair id <$> rooms db !! id) = Some (roomId, room).
Proof. intros Hroom. simpl. by rewrite Hroom. Qed.

(** Leaving a room that is not there. *)
Lemma post_rooms_leave_absent uid roomId db :
  rooms db !! roomId = None →
  post_rooms_leave uid (Some roomId) db = reply db NotFound.
Proof. intros Hroom. unfold post_rooms_leave. simpl. by rewrite Hroom. Qed.

(** Leaving when nobody else is in the room. *)
Lemma post_rooms_leave_last uid roomId room db :
  rooms db !! roomId = Some room →
  filter (λ p, userId p ≠ uid) (players room) = [] →
  post_rooms_leave uid (Some roomId) db =
    {| db_after := set_rooms db (delete roomId (rooms db));
       response := LeftRoom;
       emitted := [io_emit "room-closed" (PRoomId roomId)] |}.
Proof.
  intros Hroom Hnone. unfold post_rooms_leave.
  rewrite (post_rooms_leave_lookup roomId room db Hroom). simpl.
  by rewrite Hnone.
Qed.

(** Leaving when somebody else stays: the room is stored again with the
    remaining players, under the first of them if the host left, and is
    sent as stored to the sockets of the room. *)
Lemma post_rooms_leave_stays uid roomId room db p ps :
  rooms db !! roomId = Some room →
  filter (λ p, userId p ≠ uid) (players room) = p :: ps →
  let room' :=
    if bool_decide (host room = uid)
    then set_host (set_players room (p :: ps)) (userId p)
    else set_players room (p :: ps) in
  post_rooms_leave uid (Some roomId) db =
    {| db_after := set_rooms db (<[roomId := room']> (rooms db));
       response := LeftRoom;
       emitted := [io_to_emit roomId "player-left"
                     (PRoom (Some (toJSON roomId room')))] |}.
Proof.
  intros Hroom Hsome. unfold post_rooms_leave.
  rewrite (post_rooms_leave_lookup roomId room db Hroom). simpl.
  rewrite Hsome. simpl. by case_bool_decide.
Qed.

Lemma filter_others_sole uid (ps : list Player) :
  userId <$> ps = [uid] → filter (λ p, userId p ≠ uid) ps = [].
Proof.
  destruct ps as [|p [|q ps]]; [done| |done].
  intros [= Hp]. rewrite filter_cons_False; [done|]. by intros [].
Qed.

(** C6: when the only member of a room leaves it, the room is deleted from
    the registry, the handler emits exactly one event, [room-closed] with
    the room id, to all connections, and a later leave or join that names
    the room is answered 404 "Room not found". *)
Theorem C6_sole_member_leaves uid roomId room db :
  rooms db !! roomId = Some room →
  userId <$> players room = [uid] →
  let o := post_rooms_leave uid (Some roomId) db in
  rooms (db_after o) = delete roomId (rooms db)
  ∧ rooms (db_after o) !! roomId = None
  ∧ emitted o = [io_emit "room-closed" (PRoomId roomId)]
  ∧ (∀ uid', response (post_rooms_leave uid' (Some roomId) (db_after o))
             = NotFound)
  ∧ (∀ now uid' b,
       jb_roomId b = Some roomId →
       truthy (jb_playerName b) = true →
       response (post_rooms_join now uid' b (db_after o)) = NotFound).
Proof.
  intros Hroom Hsole%filter_others_sole. simpl.
  rewrite (post_rooms_leave_last uid roomId room db Hroom Hsole). simpl.
  assert (delete roomId (rooms db) !! roomId = None) as Hgone
    by apply lookup_delete_eq.
  split_and!; [done|done|done| |].
  - intros uid'. by rewrite post_rooms_leave_absent.
  - intros now uid' b Hid Hname.
    rewrite (post_rooms_join_rejected _ _ _ _ NotFound); [done|].
    unfold join_check. rewrite Hid, Hname. simpl. by rewrite Hgone.
Qed.

Lemma C6_sole_member_leaves_witness :
  let o := post_rooms_leave alice (Some 1%positive) db_warriors in
  rooms (db_after o) = delete 1%positive (rooms db_warriors)
  ∧ rooms (db_after o) !! 1%positive = None
  ∧ emitted o = [io_emit "room-closed" (PRoomId 1%positive)]
  ∧ (∀ uid', response (post_rooms_leave uid' (Some 1%positive) (db_after o))
             = NotFound)
  ∧ (∀ now uid' b,
       jb_roomId b = Some 1%positive →
       truthy (jb_playerName b) = true →
       response (post_rooms_join now uid' b (db_after o)) = NotFound).
Proof.
  eapply (C6_sole_member_leaves alice 1%positive _ db_warriors);
    reflexivity.
Defined.

(** ** What clients get to see *)

(** The snapshots of the create route have no [password] key. *)
Lemma post_rooms_omits_password now uid b db :
  password_omitted (sent_rooms (post_rooms now uid b db)).
Proof.
  unfold post_rooms. destruct (truthy (cb_name b)); simpl; [|constructor].
  destruct (users db !! uid); simpl; [|constructor].
  unfold sent_rooms, findById_populated, insert_room. simpl.
  rewrite lookup_insert_eq. simpl. by repeat constructor.
Qed.

(** Neither have the snapshots of the join route. *)
Lemma post_rooms_join_omits_password now uid b db :
  password_omitted (sent_rooms (post_rooms_join now uid b db)).
Proof.
  destruct (join_check now uid b db) as [rejection|[roomId newPlayer]] eqn:Hcheck.
  - rewrite (post_rooms_join_rejected _ _ _ _ _ Hcheck).
    unfold sent_rooms. simpl. rewrite app_nil_r.
    unfold join_check in Hcheck.
    repeat (case_match; simplify_eq; try by constructor).
  - destruct (join_check_room _ _ _ _ _ _ Hcheck) as (room & Hroom & _).
    rewrite (post_rooms_join_passed _ _ _ _ _ _ _ Hcheck Hroom).
    unfold sent_rooms. simpl. by repeat constructor.
Qed.

(** Nor has any entry of the room list. *)
Lemma get_rooms_omits_password db :
  password_omitted (sent_rooms (get_rooms db)).
Proof.
  unfold get_rooms, sent_rooms, password_omitted. simpl. rewrite app_nil_r.
  apply Forall_fmap, Forall_true. done.
Qed.

(** The leave route sends the stored document, password included. *)
Lemma post_rooms_leave_sends_password uid roomId room db p ps :
  rooms db !! roomId = Some room →
  filter (λ p, userId p ≠ uid) (players room) = p :: ps →
  ∃ j, sent_rooms (post_rooms_leave uid (Some roomId) db) = [j]
       ∧ j_password j = password room.
Proof.
  intros Hroom Hsome.
  rewrite (post_rooms_leave_stays uid roomId room db p ps Hroom Hsome).
  unfold sent_rooms. simpl. eexists. split; [done|].
  by case_bool_decide.
Qed.

(** C1 fails on the leave route: when Alice leaves the room she opened
    with the password "secret" and Bob stays, the [player-left] event sent
    to the sockets of the room carries [password: "secret"]. *)
Theorem C1_player_left_carries_password :
  let o := post_rooms_leave alice (Some 1%positive) db_secret in
  ∃ j, emitted o = [io_to_emit 1%positive "player-left" (PRoom (Some j))]
       ∧ j_password j = value "secret"
       ∧ ¬ password_omitted (sent_rooms o).
Proof.
  eexists. split; [by vm_compute|]. split; [reflexivity|].
  intros Hno. vm_compute in Hno. by inv Hno.
Qed.

(** ** How one request changes the registry *)

(** The room the leave route stores when somebody stays. *)
Lemma leave_room_players uid room p ps :
  let room' :=
    if bool_decide (host room = uid)
    then set_host (set_players room (p :: ps)) (userId p)
    else set_players room (p :: ps) in
  players room' = p :: ps
  ∧ maxPlayers room' = maxPlayers room
  ∧ host room' = (if bool_decide (host room = uid) then userId p else host room).
Proof. simpl. by case_bool_decide. Qed.

(** A request leaves the rooms alone, inserts a new room, appends a player
    to a room with a free slot, deletes a room, or stores a room with
    fewer players. *)
Lemma handle_rooms now q db :
  rooms (db_after (handle now q db)) = rooms db
  ∨ (∃ uid b user,
       q = CreateRoom uid b
       ∧ rooms (db_after (handle now q db))
         = <[nextId db := new_room now uid user b]> (rooms db))
  ∨ (∃ uid b roomId room p,
       q = JoinRoom uid b
       ∧ rooms db !! roomId = Some room
       ∧ (Z.of_nat (length (players room)) < maxPlayers room)%num
       ∧ joinedAt p = now
       ∧ rooms (db_after (handle now q db))
         = <[roomId := set_players room (players room ++ [p])]> (rooms db))
  ∨ (∃ uid roomId,
       q = LeaveRoom uid (Some roomId)
       ∧ rooms (db_after (handle now q db)) = delete roomId (rooms db))
  ∨ (∃ uid roomId room p ps,
       q = LeaveRoom uid (Some roomId)
       ∧ rooms db !! roomId = Some room
       ∧ filter (λ p, userId p ≠ uid) (players room) = p :: ps
       ∧ rooms (db_after (handle now q db))
         = <[roomId := if bool_decide (host room = uid)
                       then set_host (set_players room (p :: ps)) (userId p)
                       else set_players room (p :: ps)]> (rooms db)).
Proof.
  destruct q as [uid b|uid b|uid [roomId|]|]; simpl.
  - unfold post_rooms. destruct (truthy (cb_name b)); simpl; [|by left].
    destruct (users db !! uid) as [user|]; simpl; [|by left].
    right; left. by exists uid, b, user.
  - destruct (join_check now uid b db) as [rejection|[roomId p]] eqn:Hcheck.
    + left. by rewrite (post_rooms_join_rejected _ _ _ _ _ Hcheck).
    + destruct (join_check_room _ _ _ _ _ _ Hcheck)
        as (room & Hroom & _ & Hfree & _ & _ & Hnow).
      rewrite (post_rooms_join_passed _ _ _ _ _ _ _ Hcheck Hroom). simpl.
      do 2 right; left. by exists uid, b, roomId, room, p.
  - destruct (rooms db !! roomId) as [room|] eqn:Hroom.
    + destruct (filter (λ p, userId p ≠ uid) (players room)) as [|p ps] eqn:Hrest.
      * rewrite (post_rooms_leave_last _ _ _ _ Hroom Hrest). simpl.
        do 3 right; left. by exists uid, roomId.
      * rewrite (post_rooms_leave_stays _ _ _ _ _ _ Hroom Hrest). simpl.
        do 4 right. by exists uid, roomId, room, p, ps.
    + left. by rewrite post_rooms_leave_absent.
  - by left.
  - by left.
Qed.

(** ** The invariant of registered rooms *)

Lemma room_ok_new_room now uid user b :
  (1 ≤ or_number (cb_maxPlayers b) 4)%num → room_ok (new_room now uid user b).
Proof.
  intros Hcap. split; simpl; [split; [lia|done]|].
  apply list_elem_of_singleton. done.
Qed.

(** One more player fits below a whole-number capacity. *)
Lemma room_ok_join room p :
  room_ok room →
  (Z.of_nat (length (players room)) < maxPlayers room)%num →
  is_whole (maxPlayers room) →
  room_ok (set_players room (players room ++ [p])).
Proof.
  intros [[Hsize _] Hhost] Hfree Hwhole. split; simpl.
  - rewrite length_app, Nat2Z.inj_add. simpl. split; [lia|].
    by apply whole_lt_succ.
  - rewrite fmap_app. apply elem_of_app. by left.
Qed.

Lemma room_ok_leave uid room p ps :
  room_ok room →
  filter (λ p, userId p ≠ uid) (players room) = p :: ps →
  room_ok (if bool_decide (host room = uid)
           then set_host (set_players room (p :: ps)) (userId p)
           else set_players room (p :: ps)).
Proof.
  intros [[Hsize Hmax] Hhost] Hrest.
  destruct (leave_room_players uid room p ps) as (Hps & Hmax' & Hh).
  split.
  - rewrite Hps, Hmax'.
    pose proof (length_filter (λ p, userId p ≠ uid) (players room)) as Hle.
    rewrite Hrest in Hle. split; [simpl; lia|].
    eapply Number_le_trans; [|exact Hmax].
    apply (proj2 (whole_le _ _)). lia.
  - rewrite Hps, Hh. case_bool_decide as Hleft.
    + apply list_elem_of_here.
    + apply list_elem_of_fmap in Hhost as (h & Hh' & Hin).
      apply list_elem_of_fmap. exists h. split; [done|].
      rewrite <- Hrest. apply list_elem_of_filter. split; [|done].
      congruence.
Qed.

(** C2 (as amended): if every registered room has between 1 and
    [maxPlayers] players and a host among them, then so has every room
    registered after one more create, join, leave or list request handled
    from start to end with no other request in between, as long as a
    create request asks (after the default for a missing or zero
    [maxPlayers]) for a capacity of at least 1, and the room a join request
    names has a whole number as [maxPlayers]. *)
Theorem C2_invariant_preserved now q db :
  registry_ok db →
  (∀ n, create_capacity q = Some n → (1 ≤ n)%num) →
  (∀ m, joined_capacity q db = Some m → is_whole m) →
  registry_ok (db_after (handle now q db)).
Proof.
  unfold registry_ok. intros Hok Hcap Hwhole.
  destruct q as [uid b|uid b|uid roomId|].
  - destruct (handle_rooms now (CreateRoom uid b) db)
      as [->|[(uid' & b' & user & [= <- <-] & ->)
         |[(? & ? & ? & ? & ? & [=] & _)
         |[(? & ? & [=] & _)|(? & ? & ? & ? & ? & [=] & _)]]]]; [done|].
    apply map_Forall_insert_2; [|done].
    apply room_ok_new_room, Hcap. reflexivity.
  - simpl.
    destruct (join_check now uid b db) as [rejection|[roomId p]] eqn:Hcheck.
    { by rewrite (post_rooms_join_rejected _ _ _ _ _ Hcheck). }
    destruct (join_check_passed _ _ _ _ _ _ Hcheck)
      as (room & n & Hid & _ & _ & Hroom & _ & Hfree & _).
    rewrite (post_rooms_join_passed _ _ _ _ _ _ _ Hcheck Hroom). simpl.
    apply map_Forall_insert_2; [|done].
    apply room_ok_join; [by apply (Hok roomId)|done|].
    apply Hwhole. simpl. rewrite Hid. simpl. by rewrite Hroom.
  - destruct (handle_rooms now (LeaveRoom uid roomId) db)
      as [->|[(? & ? & ? & [=] & _)
         |[(? & ? & ? & ? & ? & [=] & _)
         |[(uid' & roomId' & _ & ->)
         |(uid' & roomId' & room & p & ps & [= <- _] & Hroom & Hrest & ->)]]]].
    + done.
    + by apply map_Forall_delete.
    + apply map_Forall_insert_2; [|done].
      apply room_ok_leave; [|done]. by apply (Hok roomId').
  - done.
Qed.

Lemma C2_invariant_preserved_witness :
  registry_ok db_warriors_full.
Proof.
  apply (C2_invariant_preserved 20
           (JoinRoom bob (join_body 1%positive (Some "Bob") None)) db_warriors).
  - apply (C2_invariant_preserved 10
             (CreateRoom alice
                (create_body "Warriors" (Some (whole 2)) (js_bool true) None))
             db0).
    + apply map_Forall_empty.
    + intros n [= <-]. vm_compute. discriminate.
    + intros m [=].
  - intros n [=].
  - intros m Hm. vm_compute in Hm. injection Hm as <-. exists 2. reflexivity.
Defined.

(** C2 as stated fails, in three ways. A create request with
    [maxPlayers = -1] registers a room holding one player for a capacity of
    -1. A join on a room created with [maxPlayers = 1.5] is accepted and
    leaves two players in it. And when two joins for the last slot of a
    room both read the room before either saves, both are accepted and the
    room holds three players for a capacity of two. *)
Lemma C2_invariant_broken :
  (let q := CreateRoom alice
              (create_body "Pit" (Some (whole (-1))) js_undefined None) in
   registry_ok db0
   ∧ ¬ registry_ok (db_after (handle 10 q db0)))
  ∧ (let q := JoinRoom bob (join_body 1%positive (Some "Bob") None) in
     registry_ok db_half
     ∧ code (response (handle 20 q db_half)) = 200
     ∧ ¬ registry_ok (db_after (handle 20 q db_half)))
  ∧ (let s := race both_read_first
                (two_joins db_warriors
                   20 bob (join_body 1%positive (Some "Bob") None)
                   21 carol (join_body 1%positive (Some "Carol") None)) in
     registry_ok db_warriors
     ∧ answer (task1 s) ≫= (λ r, Some (code r)) = Some 200
     ∧ answer (task2 s) ≫= (λ r, Some (code r)) = Some 200
     ∧ ¬ registry_ok (shared s)).
Proof.
  assert (∀ db r, rooms db = {[ 1%positive := r ]} → room_ok r → registry_ok db)
    as Hone.
  { intros db r Hdb Hr. unfold registry_ok. rewrite Hdb.
    by apply map_Forall_singleton. }
  assert (∀ db r, rooms db !! 1%positive = Some r → ¬ room_ok r →
                  ¬ registry_ok db) as Hnot.
  { intros db r Hdb Hr Hok. by apply Hr, (Hok 1%positive). }
  split; [|split]; cbv zeta; split_and!.
  - apply map_Forall_empty.
  - eapply Hnot; [reflexivity|]. intros [[_ Hle] _]. vm_compute in Hle.
    by apply Hle.
  - eapply Hone; [reflexivity|]. split; [split|].
    + vm_compute. discriminate.
    + vm_compute. discriminate.
    + apply list_elem_of_here.
  - reflexivity.
  - eapply Hnot; [reflexivity|]. intros [[_ Hle] _]. vm_compute in Hle.
    by apply Hle.
  - eapply Hone; [reflexivity|]. split; [split|].
    + vm_compute. discriminate.
    + vm_compute. discriminate.
    + apply list_elem_of_here.
  - reflexivity.
  - reflexivity.
  - eapply Hnot; [reflexivity|]. intros [[_ Hle] _]. vm_compute in Hle.
    by apply Hle.
Qed.

(** ** Join order *)

Lemma in_join_order_filter (P : Player → Prop) `{∀ p, Decision (P p)} ps :
  in_join_order ps → in_join_order (filter P ps).
Proof.
  unfold in_join_order. induction 1 as [|p ps Hps IH Hp]; [constructor|].
  rewrite filter_cons. case_decide; [|done].
  constructor; [done|]. apply Forall_forall. intros q [_ Hq]%list_elem_of_filter.
  by eapply Forall_forall in Hp.
Qed.

Lemma room_timeline_mono t t' r :
  t ≤ t' → room_timeline t r → room_timeline t' r.
Proof.
  intros Ht [Hord Hpast]. split; [done|].
  eapply Forall_impl; [done|]. simpl. intros p Hp. lia.
Qed.

Lemma room_timeline_new_room now uid user b :
  room_timeline now (new_room now uid user b).
Proof.
  split; simpl.
  - repeat constructor.
  - repeat constructor. simpl. lia.
Qed.

Lemma room_timeline_join t room p :
  room_timeline t room →
  t ≤ joinedAt p →
  room_timeline (joinedAt p) (set_players room (players room ++ [p])).
Proof.
  intros [Hord Hpast] Ht. split; simpl.
  - apply StronglySorted_app. split_and!; [|done|repeat constructor].
    intros q1 q2 Hq1 ->%list_elem_of_singleton.
    eapply Forall_forall in Hpast; [|done]. unfold joined_before. simpl in *. lia.
  - apply Forall_app. split.
    + eapply Forall_impl; [done|]. simpl. intros q Hq. lia.
    + repeat constructor. simpl. lia.
Qed.

Lemma room_timeline_leave t uid room p ps :
  room_timeline t room →
  filter (λ p, userId p ≠ uid) (players room) = p :: ps →
  room_timeline t (if bool_decide (host room = uid)
                   then set_host (set_players room (p :: ps)) (userId p)
                   else set_players room (p :: ps)).
Proof.
  intros [Hord Hpast] Hrest.
  destruct (leave_room_players uid room p ps) as (Hps & _ & _).
  unfold room_timeline. rewrite Hps, <- Hrest. split.
  - by apply in_join_order_filter.
  - apply Forall_forall. intros q [_ Hq]%list_elem_of_filter.
    by eapply Forall_forall in Hpast.
Qed.

(** One request handled at a time not before [t] keeps the players of
    every room in the order they joined. *)
Lemma handle_timeline t now q db :
  registry_timeline t db → t ≤ now →
  registry_timeline now (db_after (handle now q db)).
Proof.
  unfold registry_timeline. intros IH Hnow.
  assert (map_Forall (λ _ r, room_timeline now r) (rooms db)) as IH'.
  { eapply map_Forall_impl; [done|]. simpl. intros _ r.
    by apply room_timeline_mono. }
  destruct (handle_rooms now q db)
    as [->|[(uid & b & user & -> & ->)
       |[(uid & b & roomId & room & p & -> & Hroom & Hfree & <- & ->)
       |[(uid & roomId & -> & ->)
       |(uid & roomId & room & p & ps & -> & Hroom & Hrest & ->)]]]].
  - done.
  - apply map_Forall_insert_2; [|done]. apply room_timeline_new_room.
  - apply map_Forall_insert_2; [|done].
    apply (room_timeline_join t); [|done]. by apply (IH roomId).
  - by apply map_Forall_delete.
  - apply map_Forall_insert_2; [|done].
    apply room_timeline_leave; [|done]. by apply (IH' roomId).
Qed.

Lemma run_timeline requests t db :
  registry_timeline t db →
  clock_never_back requests →
  Forall (λ tq, t ≤ tq.1) requests →
  ∃ t', registry_timeline t' (run requests db).
Proof.
  unfold clock_never_back. revert t db.
  induction requests as [|[now q] requests IH]; intros t db Hdb Hclock Hafter.
  { by exists t. }
  rewrite fmap_cons in Hclock.
  apply StronglySorted_cons in Hclock as [Hnow Hclock].
  apply Forall_cons in Hafter as [Ht _]. simpl in Ht, Hnow.
  change (run ((now, q) :: requests) db)
    with (run requests (db_after (handle now q db))).
  apply (IH now); [by apply (handle_timeline t)|done|].
  rewrite Forall_fmap in Hnow. eapply Forall_impl; [exact Hnow|]. done.
Qed.

(** When requests are handled in turn while the clock does not run
    backwards, starting without rooms, the players of every room stand in
    the order they joined. *)
Lemma run_in_join_order requests db id r :
  rooms db = ∅ →
  clock_never_back requests →
  rooms (run requests db) !! id = Some r →
  in_join_order (players r).
Proof.
  intros Hempty Hclock Hr.
  assert (∀ t, registry_timeline t db) as Hstart.
  { intros t. unfold registry_timeline. rewrite Hempty. apply map_Forall_empty. }
  destruct requests as [|[now q] requests].
  { simpl in Hr. by rewrite Hempty in Hr. }
  destruct (run_timeline ((now, q) :: requests) now db (Hstart now) Hclock)
    as [t' Ht'].
  - constructor; [simpl; lia|].
    unfold clock_never_back in Hclock. rewrite fmap_cons in Hclock.
    apply StronglySorted_cons in Hclock as [Hnow _].
    rewrite Forall_fmap in Hnow. eapply Forall_impl; [exact Hnow|]. done.
  - by destruct (Ht' id r Hr).
Qed.

(** The first of a list in join order is an earliest member. *)
Lemma in_join_order_head p ps :
  in_join_order (p :: ps) → earliest p (p :: ps).
Proof.
  intros [Hp _]%StronglySorted_cons. split; [apply list_elem_of_here|].
  constructor; [|done]. unfold joined_before. lia.
Qed.

(** The Firestore leave route changes a room that is there as the Mongoose
    route does. *)
Lemma Firestore_leave_same_database uid roomId room db :
  rooms db !! roomId = Some room →
  db_after (Firestore.post_rooms_leave uid (Some roomId) db)
    = db_after (post_rooms_leave uid (Some roomId) db)
  ∧ response (Firestore.post_rooms_leave uid (Some roomId) db)
    = response (post_rooms_leave uid (Some roomId) db).
Proof.
  intros Hroom. unfold Firestore.post_rooms_leave. rewrite Hroom.
  destruct (filter (λ p, userId p ≠ uid) (players room)) as [|p ps] eqn:Hrest.
  - by rewrite (post_rooms_leave_last _ _ _ _ Hroom Hrest).
  - rewrite (post_rooms_leave_stays _ _ _ _ _ _ Hroom Hrest). simpl.
    split; [|done]. by case_bool_decide.
Qed.

(** C3 (as amended): when the host of a room leaves it and some member
    remains, the room is stored with the remaining members, and its new
    host is the first of them in stored order, on the Mongoose route and on
    the Firestore route. None of the remaining members joined before that
    one when the stored members stand in the order of their [joinedAt], as
    they do in every database reached from an empty registry by requests
    handled in turn while the clock does not run backwards. *)
Theorem C3_host_succession db uid roomId room :
  rooms db !! roomId = Some room →
  host room = uid →
  filter (λ p, userId p ≠ uid) (players room) ≠ [] →
  ∃ p room',
    rooms (db_after (post_rooms_leave uid (Some roomId) db)) !! roomId
      = Some room'
    ∧ rooms (db_after (Firestore.post_rooms_leave uid (Some roomId) db))
        !! roomId = Some room'
    ∧ players room' = filter (λ p, userId p ≠ uid) (players room)
    ∧ head (players room') = Some p
    ∧ host room' = userId p
    ∧ (in_join_order (players room)
       ∨ (∃ requests db0,
            rooms db0 = ∅ ∧ clock_never_back requests
            ∧ db = run requests db0) →
       earliest p (players room')).
Proof.
  intros Hroom Hhost Hrest.
  rewrite (proj1 (Firestore_leave_same_database uid roomId room db Hroom)).
  destruct (filter (λ p, userId p ≠ uid) (players room)) as [|p ps] eqn:Hfilter;
    [done|].
  rewrite (post_rooms_leave_stays _ _ _ _ _ _ Hroom Hfilter). simpl.
  rewrite lookup_insert_eq, bool_decide_eq_true_2 by done.
  eexists p, _. split; [done|]. split; [done|]. simpl.
  split_and!; [done|done|done|].
  intros Horder.
  assert (in_join_order (players room)) as Hsorted.
  { destruct Horder as [?|(requests & db0 & Hempty & Hclock & ->)]; [done|].
    by eapply run_in_join_order. }
  apply in_join_order_head. rewrite <- Hfilter.
  by apply in_join_order_filter.
Qed.

Lemma C3_host_succession_witness :
  ∃ p room',
    rooms (db_after (post_rooms_leave alice (Some 1%positive) db_arena_three))
      !! 1%positive = Some room'
    ∧ rooms (db_after (Firestore.post_rooms_leave alice (Some 1%positive)
                         db_arena_three)) !! 1%positive = Some room'
    ∧ players room'
      = filter (λ p, userId p ≠ alice) (players room_arena_three)
    ∧ length (players room') = 2%nat
    ∧ head (players room') = Some p
    ∧ host room' = userId p
    ∧ userId p = bob
    ∧ earliest p (players room').
Proof.
  destruct (C3_host_succession db_arena_three alice 1%positive room_arena_three)
    as (p & room' & Hroom' & Hfire & Hplayers & Hhead & Hhost & Hearliest).
  - reflexivity.
  - reflexivity.
  - vm_compute. discriminate.
  - exists p, room'.
    assert (head (players room')
            = Some {| userId := bob; playerName := "Bob";
                      characterClass := "Warrior"; level := 1;
                      joinedAt := 20 |}) as Hbob
      by (rewrite Hplayers; reflexivity).
    split_and!; [exact Hroom'|exact Hfire|exact Hplayers|by rewrite Hplayers
                |exact Hhead|exact Hhost| |].
    + rewrite Hhead in Hbob. by injection Hbob as ->.
    + apply Hearliest. right. exists arena_requests, db0.
      split; [reflexivity|]. split; [|reflexivity].
      unfold clock_never_back. simpl.
      repeat (constructor; [|repeat (constructor; [lia|]); constructor]).
      constructor.
Defined.

(** C3 as stated fails: Bob's join (stamped 20) and Carol's (stamped 21)
    both read Alice's room before either saves, and Carol's save comes
    first; both are accepted and Carol is stored before Bob. When Alice,
    the host, then leaves, Carol becomes host although Bob, who remains,
    has the earlier [joinedAt]. *)
Lemma C3_later_joiner_becomes_host :
  let s := race second_overtakes
             (two_joins db_arena
                20 bob (join_body 1%positive (Some "Bob") None)
                21 carol (join_body 1%positive (Some "Carol") None)) in
  let o := post_rooms_leave alice (Some 1%positive) (shared s) in
  (code <$> answer (task1 s) = Some 200 ∧ code <$> answer (task2 s) = Some 200)
  ∧ (host <$> rooms (shared s) !! 1%positive = Some alice)
  ∧ ∃ room' p q,
      rooms (db_after o) !! 1%positive = Some room'
      ∧ players room' = [p; q]
      ∧ host room' = userId p
      ∧ userId p = carol ∧ userId q = bob
      ∧ joinedAt q < joinedAt p
      ∧ ¬ earliest p (players room').
Proof.
  split; [split; reflexivity|]. split; [reflexivity|].
  eexists _, _, _. split; [reflexivity|]. split; [reflexivity|].
  split_and!; [reflexivity..|].
  intros [_ Hall]. apply Forall_cons in Hall as [_ Hall].
  apply Forall_cons in Hall as [Hle _]. vm_compute in Hle. by apply Hle.
Qed.

(** ** Two joins for the last slot *)

Lemma race_app l1 l2 s : race (l1 ++ l2) s = race l2 (race l1 s).
Proof. apply foldl_app. Qed.

(** What holds before a schedule and is kept by every step holds after
    it. *)
Lemma race_invariant (I : Race → Prop) schedule s :
  (∀ s b, I s → I (race_step s b)) → I s → I (race schedule s).
Proof.
  intros Hstep. revert s.
  induction schedule as [|b schedule IH]; intros s Hs; [done|].
  simpl. apply IH, Hstep, Hs.
Qed.

Lemma negb_negb_list (l : list bool) : negb <$> (negb <$> l) = l.
Proof.
  induction l as [|b l IH]; [done|]. rewrite !fmap_cons, IH. by destruct b.
Qed.

(** The two tasks in each other's place. *)
Lemma race_swap schedule s :
  race (negb <$> schedule)
    {| task1 := task2 s; task2 := task1 s; shared := shared s; log := log s |}
  = let s' := race schedule s in
    {| task1 := task2 s'; task2 := task1 s'; shared := shared s';
       log := log s' |}.
Proof.
  revert s. induction schedule as [|b schedule IH]; intros s; [done|].
  simpl. rewrite <- IH. f_equal.
  destruct b; unfold race_step; simpl.
  - by destruct (task_step (task2 s) (shared s)) as [[t db] evs].
  - by destruct (task_step (task1 s) (shared s)) as [[t db] evs].
Qed.

(** A task that runs alone does what the handler does. *)
Lemma task_alone now uid b db :
  let o := post_rooms_join now uid b db in
  ∃ t1 db1 evs1 t2 db2 evs2 evs3,
    task_step (Arrived now uid b) db = (t1, db1, evs1)
    ∧ task_step t1 db1 = (t2, db2, evs2)
    ∧ task_step t2 db2 = (Answered (response o), db_after o, evs3)
    ∧ evs1 ++ evs2 ++ evs3 = emitted o.
Proof.
  unfold post_rooms_join. simpl.
  destruct (join_check now uid b db) as [rejection|[roomId p]]; simpl.
  { by eexists _, _, _, _, _, _, _. }
  destruct (join_save roomId p db) as [db1|] eqn:Hsave; simpl.
  - eexists _, _, _, _, _, _, _. split; [done|]. simpl. rewrite Hsave. done.
  - eexists _, _, _, _, _, _, _. split; [done|]. simpl. rewrite Hsave. done.
Qed.

(** A schedule that lets the first task run alone handles its request from
    start to end. *)
Lemma race_first_alone s now uid b :
  task1 s = Arrived now uid b →
  let o := post_rooms_join now uid b (shared s) in
  race [false; false; false] s =
    {| task1 := Answered (response o); task2 := task2 s;
       shared := db_after o; log := log s ++ emitted o |}.
Proof.
  destruct s as [t1 t2 db evs]. simpl. intros ->.
  destruct (task_alone now uid b db)
    as (ta & dba & evsa & tb & dbb & evsb & evsc & Ha & Hb & Hc & <-).
  unfold race, race_step. cbn [foldl task1 task2 shared log].
  rewrite Ha. cbn [task1 task2 shared log].
  rewrite Hb. cbn [task1 task2 shared log].
  rewrite Hc. by rewrite <- !(assoc_L (++)).
Qed.

(** The first task reads and saves before the second reads: the second
    finds the room full, whatever the schedule does after. *)
Lemma first_saves_before_second_reads
  db roomId room now1 uid1 b1 now2 uid2 b2 rest :
  rooms db !! roomId = Some room →
  status room = waiting →
  maxPlayers room = whole (Z.of_nat (length (players room)) + 1) →
  jb_roomId b1 = Some roomId →
  truthy (jb_playerName b1) = true →
  wrong_password (password room) (jb_password b1) = false →
  uid1 ∉ (userId <$> players room) →
  jb_roomId b2 = Some roomId →
  truthy (jb_playerName b2) = true →
  let s := race (false :: false :: rest)
             (two_joins db now1 uid1 b1 now2 uid2 b2) in
  (∃ room', rooms (shared s) !! roomId = Some room'
            ∧ Z.of_nat (length (players room'))
              = Z.of_nat (length (players room)) + 1
            ∧ maxPlayers room' = maxPlayers room)
  ∧ (task1 s = Saved roomId ∨ ∃ r, task1 s = Answered r ∧ code r = 200)
  ∧ (task2 s = Arrived now2 uid2 b2 ∨ task2 s = Answered RoomFull).
Proof.
  intros Hroom Hstatus Hslot Hid1 Hname1 Hpw1 Hnew1 Hid2 Hname2.
  assert (Z.of_nat (length (players room)) < maxPlayers room)%num as Hfree.
  { rewrite Hslot. apply (proj2 (whole_lt _ _)). lia. }
  pose proof (join_check_passes now1 uid1 b1 db roomId room Hid1 Hname1 Hroom
                Hstatus Hfree Hpw1 Hnew1) as Hcheck1.
  match type of Hcheck1 with
  | _ = inr (_, ?p) => set (p1 := p) in *
  end.
  set (room1 := set_players room (players room ++ [p1])).
  set (db1 := set_rooms db (<[roomId := room1]> (rooms db))).
  assert (rooms db1 !! roomId = Some room1) as Hroom1 by apply lookup_insert_eq.
  assert (join_check now2 uid2 b2 db1 = inl RoomFull) as Hcheck2.
  { apply (join_check_full now2 uid2 b2 db1 roomId room1); try done.
    unfold room1. simpl. rewrite Hslot, length_app, Nat2Z.inj_add. simpl.
    apply (proj2 (whole_le _ _)). lia. }
  intros s.
  assert (shared s = db1
          ∧ (task1 s = Saved roomId
             ∨ ∃ r, task1 s = Answered r ∧ code r = 200)
          ∧ (task2 s = Arrived now2 uid2 b2
             ∨ task2 s = Answered RoomFull)) as (Hdb & H1 & H2).
  { subst s.
    change (race (false :: false :: rest) ?start)
      with (race rest (race_step (race_step start false) false)).
    apply (race_invariant
             (λ s, shared s = db1
                   ∧ (task1 s = Saved roomId
                      ∨ ∃ r, task1 s = Answered r ∧ code r = 200)
                   ∧ (task2 s = Arrived now2 uid2 b2
                      ∨ task2 s = Answered RoomFull))).
    - intros [t1 t2 dbs evs] [] (Hdb & H1 & H2); simpl in *; subst dbs;
        unfold race_step; simpl.
      + destruct H2 as [-> | ->]; simpl; [rewrite Hcheck2|]; simpl;
          split_and!; auto.
      + destruct H1 as [-> |(r & -> & Hr)]; simpl; split_and!; eauto.
    - unfold two_joins, race_step. simpl. rewrite Hcheck1. simpl.
      rewrite (join_save_found _ _ _ _ Hroom). simpl. split_and!; auto. }
  split_and!; [|done|done].
  exists room1. rewrite Hdb. split; [done|]. split; [|done].
  unfold room1. simpl. rewrite length_app, Nat2Z.inj_add. done.
Qed.

(** Both tasks read before either saves: both push, whatever the schedule
    does after. *)
Lemma both_read_before_either_saves
  db roomId room now1 uid1 b1 now2 uid2 b2 first rest :
  rooms db !! roomId = Some room →
  status room = waiting →
  (Z.of_nat (length (players room)) < maxPlayers room)%num →
  jb_roomId b1 = Some roomId ∧ jb_roomId b2 = Some roomId →
  truthy (jb_playerName b1) = true ∧ truthy (jb_playerName b2) = true →
  wrong_password (password room) (jb_password b1) = false
  ∧ wrong_password (password room) (jb_password b2) = false →
  (uid1 ∉ userId <$> players room) ∧ (uid2 ∉ userId <$> players room) →
  let s := race (first :: negb first :: rest)
             (two_joins db now1 uid1 b1 now2 uid2 b2) in
  ∃ extra n1 n2 p1 p2,
    rooms (shared s) !! roomId
      = Some (set_players room (players room ++ extra))
    ∧ length extra = (n1 + n2)%nat
    ∧ (task1 s = Pushed roomId p1 ∧ n1 = 0%nat
       ∨ (task1 s = Saved roomId ∨ ∃ r, task1 s = Answered r ∧ code r = 200)
         ∧ n1 = 1%nat)
    ∧ (task2 s = Pushed roomId p2 ∧ n2 = 0%nat
       ∨ (task2 s = Saved roomId ∨ ∃ r, task2 s = Answered r ∧ code r = 200)
         ∧ n2 = 1%nat).
Proof.
  intros Hroom Hstatus Hfree [Hid1 Hid2] [Hname1 Hname2] [Hpw1 Hpw2] [Hnew1 Hnew2].
  pose proof (join_check_passes now1 uid1 b1 db roomId room Hid1 Hname1 Hroom
                Hstatus Hfree Hpw1 Hnew1) as Hcheck1.
  pose proof (join_check_passes now2 uid2 b2 db roomId room Hid2 Hname2 Hroom
                Hstatus Hfree Hpw2 Hnew2) as Hcheck2.
  match type of Hcheck1 with
  | _ = inr (_, ?p) => set (p1 := p) in *
  end.
  match type of Hcheck2 with
  | _ = inr (_, ?p) => set (p2 := p) in *
  end.
  intros s. subst s.
  change (race (first :: negb first :: rest) ?start)
    with (race rest (race_step (race_step start first) (negb first))).
  apply (race_invariant
           (λ s, ∃ extra n1 n2 q1 q2,
              rooms (shared s) !! roomId
                = Some (set_players room (players room ++ extra))
              ∧ length extra = (n1 + n2)%nat
              ∧ (task1 s = Pushed roomId q1 ∧ n1 = 0%nat
                 ∨ (task1 s = Saved roomId
                    ∨ ∃ r, task1 s = Answered r ∧ code r = 200)
                   ∧ n1 = 1%nat)
              ∧ (task2 s = Pushed roomId q2 ∧ n2 = 0%nat
                 ∨ (task2 s = Saved roomId
                    ∨ ∃ r, task2 s = Answered r ∧ code r = 200)
                   ∧ n2 = 1%nat))).
  - intros [t1 t2 dbs evs] second
      (extra & n1 & n2 & q1 & q2 & Hdb & Hlen & H1 & H2).
    simpl in *.
    assert (∀ q, join_save roomId q dbs
                 = Some (set_rooms dbs
                           (<[roomId := set_players room
                                          (players room ++ extra ++ [q])]>
                              (rooms dbs)))) as Hsave.
    { intros q. rewrite (join_save_found _ _ _ _ Hdb). simpl.
      by rewrite <- (assoc_L (++)). }
    destruct second; unfold race_step; simpl.
    + destruct H2 as [[-> ->]|[[-> |(r & -> & Hr)] ->]]; simpl.
      * rewrite Hsave. simpl.
        exists (extra ++ [q2]), n1, 1%nat, q1, q2.
        rewrite lookup_insert_eq, length_app. simpl.
        split_and!; [done|lia|done|auto].
      * exists extra, n1, 1%nat, q1, q2. split_and!; eauto 10.
      * exists extra, n1, 1%nat, q1, q2. split_and!; eauto 10.
    + destruct H1 as [[-> ->]|[[-> |(r & -> & Hr)] ->]]; simpl.
      * rewrite Hsave. simpl.
        exists (extra ++ [q1]), 1%nat, n2, q1, q2.
        rewrite lookup_insert_eq, length_app. simpl.
        split_and!; [done|lia|auto|done].
      * exists extra, 1%nat, n2, q1, q2. split_and!; eauto 10.
      * exists extra, 1%nat, n2, q1, q2. split_and!; eauto 10.
  - exists [], 0%nat, 0%nat, p1, p2. rewrite app_nil_r.
    destruct first; unfold two_joins, race_step; simpl;
      rewrite ?Hcheck1, ?Hcheck2; simpl; rewrite ?Hcheck1, ?Hcheck2; simpl;
      (split_and!; [by destruct room|done|auto|auto]).
Qed.

(** C8 (as amended): take two well-formed join requests for the same
    waiting room with exactly one free slot, each acceptable on its own,
    and let their handlers interleave at their awaits in any way (a task
    reads the room at its first step and saves at its second, so a
    schedule that starts with two steps of one task is one in which that
    task saves before the other reads). Once both have answered: if one
    saved before the other read, that one is accepted, the other is
    answered "Room is full", and [players.length] equals [maxPlayers]; if
    both read before either saved, both are accepted and [players.length]
    is [maxPlayers + 1]. *)
Theorem C8_two_joins_for_the_last_slot
  db roomId room now1 uid1 b1 now2 uid2 b2 rest :
  rooms db !! roomId = Some room →
  status room = waiting →
  maxPlayers room = whole (Z.of_nat (length (players room)) + 1) →
  jb_roomId b1 = Some roomId ∧ jb_roomId b2 = Some roomId →
  truthy (jb_playerName b1) = true ∧ truthy (jb_playerName b2) = true →
  wrong_password (password room) (jb_password b1) = false
  ∧ wrong_password (password room) (jb_password b2) = false →
  (uid1 ∉ userId <$> players room) ∧ (uid2 ∉ userId <$> players room) →
  let start := two_joins db now1 uid1 b1 now2 uid2 b2 in
  let answered s := is_Some (answer (task1 s)) ∧ is_Some (answer (task2 s)) in
  let accepted t := ∃ r, answer t = Some r ∧ code r = 200 in
  let holds s (n : Z) :=
    ∃ room', rooms (shared s) !! roomId = Some room'
             ∧ Z.of_nat (length (players room')) = n
             ∧ maxPlayers room' = maxPlayers room in
  let s1 := race (false :: false :: rest) start in
  let s2 := race (true :: true :: rest) start in
  (answered s1 →
   accepted (task1 s1) ∧ answer (task2 s1) = Some RoomFull
   ∧ holds s1 (Z.of_nat (length (players room)) + 1)
   ∧ ∃ room', rooms (shared s1) !! roomId = Some room'
              ∧ whole (Z.of_nat (length (players room'))) = maxPlayers room')
  ∧ (answered s2 →
     accepted (task2 s2) ∧ answer (task1 s2) = Some RoomFull
     ∧ holds s2 (Z.of_nat (length (players room)) + 1)
     ∧ ∃ room', rooms (shared s2) !! roomId = Some room'
                ∧ whole (Z.of_nat (length (players room'))) = maxPlayers room')
  ∧ (∀ first,
       let s := race (first :: negb first :: rest) start in
       answered s →
       accepted (task1 s) ∧ accepted (task2 s)
       ∧ holds s (Z.of_nat (length (players room)) + 2)).
Proof.
  intros Hroom Hstatus Hslot [Hid1 Hid2] [Hname1 Hname2] [Hpw1 Hpw2] [Hnew1 Hnew2].
  intros start answered accepted holds s1 s2.
  assert (∀ t, is_Some (answer t) →
               (t = Saved roomId ∨ ∃ r, t = Answered r ∧ code r = 200) →
               ∃ r, answer t = Some r ∧ code r = 200) as Haccepted.
  { intros t [r Hr] [-> |(r' & -> & Hcode)]; [done|]. by exists r'. }
  assert (∀ t now uid b, is_Some (answer t) →
               (t = Arrived now uid b ∨ t = Answered RoomFull) →
               answer t = Some RoomFull) as Hfull.
  { intros t now uid b [r Hr] [-> | ->]; done. }
  split_and!.
  - intros [Ha1 Ha2].
    destruct (first_saves_before_second_reads db roomId room now1 uid1 b1
                now2 uid2 b2 rest) as ((room' & Hroom' & Hlen & Hmax) & H1 & H2);
      [done..|].
    split; [by apply Haccepted|]. split; [by eapply Hfull|].
    split; exists room'; (split; [done|]).
    + split; [by rewrite Hlen|done].
    + by rewrite Hmax, Hslot, Hlen.
  - intros [Ha1 Ha2].
    destruct (first_saves_before_second_reads db roomId room now2 uid2 b2
                now1 uid1 b1 (negb <$> rest))
      as ((room' & Hroom' & Hlen & Hmax) & H1 & H2); [done..|].
    set (s' := race (false :: false :: (negb <$> rest))
                 (two_joins db now2 uid2 b2 now1 uid1 b1)) in *.
    assert (task1 s2 = task2 s' ∧ task2 s2 = task1 s' ∧ shared s2 = shared s')
      as (Ht1 & Ht2 & Hsh).
    { pose proof (race_swap (false :: false :: (negb <$> rest))
                    (two_joins db now2 uid2 b2 now1 uid1 b1)) as Hswap.
      change (negb <$> false :: false :: (negb <$> rest))
        with (true :: true :: (negb <$> (negb <$> rest))) in Hswap.
      rewrite negb_negb_list in Hswap.
      change (race (true :: true :: rest) _) with s2 in Hswap.
      by rewrite Hswap. }
    rewrite Ht1 in Ha1 |- *. rewrite Ht2 in Ha2 |- *. unfold holds.
    rewrite Hsh.
    split; [by apply Haccepted|]. split; [by eapply Hfull|].
    split; exists room'; (split; [done|]).
    + split; [by rewrite Hlen|done].
    + by rewrite Hmax, Hslot, Hlen.
  - intros first s [Ha1 Ha2].
    assert (Z.of_nat (length (players room)) < maxPlayers room)%num as Hfree.
    { rewrite Hslot. apply (proj2 (whole_lt _ _)). lia. }
    destruct (both_read_before_either_saves db roomId room now1 uid1 b1
                now2 uid2 b2 first rest)
      as (extra & n1 & n2 & p1 & p2 & Hroom' & Hlen & H1 & H2); [done..|].
    fold start s in Hroom', H1, H2.
    destruct H1 as [[H1 _]|[H1 ->]].
    { rewrite H1 in Ha1. by destruct Ha1. }
    destruct H2 as [[H2 _]|[H2 ->]].
    { rewrite H2 in Ha2. by destruct Ha2. }
    split; [by apply Haccepted|]. split; [by apply Haccepted|].
    eexists. split; [done|]. simpl. split; [|done].
    rewrite length_app, Hlen. f_equal. lia.
Qed.

Lemma C8_two_joins_for_the_last_slot_witness :
  let b1 := join_body 1%positive (Some "Bob") None in
  let b2 := join_body 1%positive (Some "Carol") None in
  let s := race [false; false; true; false; true; true]
             (two_joins db_warriors 20 bob b1 21 carol b2) in
  (∃ r, answer (task1 s) = Some r ∧ code r = 200)
  ∧ answer (task2 s) = Some RoomFull
  ∧ ∃ room', rooms (shared s) !! 1%positive = Some room'
             ∧ whole (Z.of_nat (length (players room'))) = maxPlayers room'.
Proof.
  destruct (C8_two_joins_for_the_last_slot db_warriors 1%positive room_warriors
              20 bob (join_body 1%positive (Some "Bob") None)
              21 carol (join_body 1%positive (Some "Carol") None)
              [true; false; true; true]) as (Hfirst & _ & _).
  - reflexivity.
  - reflexivity.
  - reflexivity.
  - split; reflexivity.
  - split; reflexivity.
  - split; reflexivity.
  - simpl. split; (apply not_elem_of_cons; split; [discriminate | apply not_elem_of_nil]).
  - destruct Hfirst as (Hbob & Hcarol & _ & Hfull).
    + split; eexists; reflexivity.
    + split; [exact Hbob|]. split; [exact Hcarol | exact Hfull].
Defined.

(** When both handlers read the room before either saves, both pass the
    capacity check and both players are pushed. *)
Lemma both_read_first_overbooks db roomId room now1 uid1 b1 now2 uid2 b2 :
  rooms db !! roomId = Some room →
  status room = waiting →
  (Z.of_nat (length (players room)) < maxPlayers room)%num →
  jb_roomId b1 = Some roomId ∧ jb_roomId b2 = Some roomId →
  truthy (jb_playerName b1) = true ∧ truthy (jb_playerName b2) = true →
  wrong_password (password room) (jb_password b1) = false
  ∧ wrong_password (password room) (jb_password b2) = false →
  (uid1 ∉ userId <$> players room) ∧ (uid2 ∉ userId <$> players room) →
  let s := race both_read_first (two_joins db now1 uid1 b1 now2 uid2 b2) in
  (∃ r1 r2, answer (task1 s) = Some r1 ∧ answer (task2 s) = Some r2
            ∧ code r1 = 200 ∧ code r2 = 200)
  ∧ ∃ room', rooms (shared s) !! roomId = Some room'
             ∧ length (players room') = S (S (length (players room)))
             ∧ maxPlayers room' = maxPlayers room.
Proof.
  intros Hroom Hstatus Hfree [Hid1 Hid2] [Hname1 Hname2] [Hpw1 Hpw2] [Hnew1 Hnew2].
  pose proof (join_check_passes now1 uid1 b1 db roomId room Hid1 Hname1 Hroom
                Hstatus Hfree Hpw1 Hnew1) as Hcheck1.
  pose proof (join_check_passes now2 uid2 b2 db roomId room Hid2 Hname2 Hroom
                Hstatus Hfree Hpw2 Hnew2) as Hcheck2.
  unfold race, both_read_first, two_joins, race_step. simpl.
  rewrite Hcheck1. simpl. rewrite Hcheck2. simpl.
  rewrite (join_save_found _ _ _ _ Hroom). simpl.
  erewrite join_save_found by apply lookup_insert_eq. simpl.
  split; [by eexists _, _|].
  eexists. rewrite lookup_insert_eq. split; [done|]. simpl.
  split; [|done]. rewrite !length_app. simpl. lia.
Qed.

(** C8 as stated fails: Bob and Carol ask for the last slot of Alice's
    room for two; both handlers read the room before either saves, both are
    answered 200, and the room ends with three players. *)
Lemma C8_both_joins_succeed :
  let s := race both_read_first
             (two_joins db_warriors
                20 bob (join_body 1%positive (Some "Bob") None)
                21 carol (join_body 1%positive (Some "Carol") None)) in
  (∃ room, rooms db_warriors !! 1%positive = Some room
           ∧ maxPlayers room = whole (Z.of_nat (length (players room)) + 1))
  ∧ (∃ r1 r2, answer (task1 s) = Some r1 ∧ answer (task2 s) = Some r2
              ∧ code r1 = 200 ∧ code r2 = 200)
  ∧ (∃ room', rooms (shared s) !! 1%positive = Some room'
              ∧ length (players room') = 3%nat ∧ maxPlayers room' = 2).
Proof.
  split; [eexists; split; reflexivity|].
  split; [eexists _, _; split_and!; reflexivity|].
  eexists; split_and!; reflexivity.
Qed.

(** ** The other back ends *)

Lemma alter_found {A} (f : A → A) (m : gmap positive A) k x :
  m !! k = Some x → alter f k m = <[k := f x]> m.
Proof.
  intros Hk. apply map_eq. intros i.
  rewrite lookup_alter, lookup_insert. case_decide; subst; [|done].
  by rewrite Hk.
Qed.

(** With a driver that lets [ObjectId] be called without [new], the
    native-driver leave route leaves the same database and gives the same
    answer as the Mongoose one. *)
Lemma Native_leave_same_database uid roomId db :
  db_after (Native.post_rooms_leave true uid roomId db)
    = db_after (post_rooms_leave uid roomId db)
  ∧ response (Native.post_rooms_leave true uid roomId db)
    = response (post_rooms_leave uid roomId db).
Proof.
  destruct roomId as [roomId|]; [|done].
  destruct (rooms db !! roomId) as [room|] eqn:Hroom;
    [|by rewrite post_rooms_leave_absent; unfold Native.post_rooms_leave;
         simpl; rewrite Hroom].
  unfold Native.post_rooms_leave, Native.pull_player.
  rewrite (post_rooms_leave_lookup roomId room db Hroom).
  cbn [rooms set_rooms].
  rewrite (alter_found _ _ _ _ Hroom), lookup_insert_eq.
  destruct (filter (λ p, userId p ≠ uid) (players room)) as [|p ps] eqn:Hrest.
  - rewrite (post_rooms_leave_last _ _ _ _ Hroom Hrest). simpl.
    by rewrite delete_insert_eq.
  - rewrite (post_rooms_leave_stays _ _ _ _ _ _ Hroom Hrest). simpl.
    split; [|done].
    case_bool_decide; [|done].
    unfold Native.set_room_host, set_rooms. simpl. f_equal.
    erewrite alter_found by apply lookup_insert_eq.
    by rewrite insert_insert_eq.
Qed.

(** With any other driver it answers 500 to every leave. *)
Lemma Native_leave_throws uid roomId db :
  Native.post_rooms_leave false uid roomId db = reply db InternalError.
Proof. reflexivity. Qed.

(** It sends the document it read before it reassigned the host: with the
    password, and with the host who left. *)
Lemma Native_player_left_payload :
  let o := Native.post_rooms_leave true alice (Some 1%positive) db_secret in
  host <$> rooms (db_after o) !! 1%positive = Some bob
  ∧ ∃ j, emitted o = [io_to_emit 1%positive "player-left" (PRoom (Some j))]
         ∧ j_password j = value "secret"
         ∧ j_host j = HostId alice.
Proof. split; [by vm_compute|]. eexists. by vm_compute. Qed.

(** The Firestore create route has the defaults of the Mongoose one, keeps
    [null] where that one drops the password, and announces every room it
    creates. *)
Lemma Firestore_new_room now uid user b :
  let r := Firestore.new_room now uid user b in
  maxPlayers r = maxPlayers (new_room now uid user b)
  ∧ isPublic r = isPublic (new_room now uid user b)
  ∧ players r = players (new_room now uid user b)
  ∧ password r = or_null (cb_password b).
Proof. done. Qed.

Lemma Firestore_room_created now uid b db :
  let o := Firestore.post_rooms now uid b db in
  succeeded (response o) = true →
  ∃ j, emitted o = [io_emit "room-created" (PRoom (Some j))]
       ∧ j_isPublic j = not_false (cb_isPublic b).
Proof.
  unfold Firestore.post_rooms. destruct (truthy (cb_name b)); simpl; [|done].
  destruct (users db !! uid) as [user|]; simpl; [|done].
  intros _. by eexists.
Qed.

(** ** The scenario of the specification, run on the Mongoose back end

    Alice opens "Warriors" for two; Bob joins; Carol is told the room is
    full; Alice leaves and Bob becomes host; Bob leaves, the room is closed,
    and the room is not found any more. *)
Lemma warriors_scenario :
  let carol_joins := JoinRoom carol (join_body 1%positive (Some "Carol") None) in
  let o3 := handle 30 carol_joins db_warriors_full in
  let o4 := handle 40 (LeaveRoom alice (Some 1%positive)) (db_after o3) in
  let o5 := handle 50 (LeaveRoom bob (Some 1%positive)) (db_after o4) in
  let o6 := handle 60 carol_joins (db_after o5) in
  rooms db_warriors !! 1%positive = Some room_warriors
  ∧ rooms db_warriors_full !! 1%positive = Some room_warriors_full
  ∧ response o3 = RoomFull
  ∧ (host <$> rooms (db_after o4) !! 1%positive = Some bob
     ∧ (map userId ∘ players) <$> rooms (db_after o4) !! 1%positive = Some [bob]
     ∧ event_rooms <$> emitted o4 = [[toJSON 1%positive
                                        (set_host (set_players room_warriors_full
                                           (drop 1 (players room_warriors_full))) bob)]])
  ∧ (rooms (db_after o5) = ∅
     ∧ emitted o5 = [io_emit "room-closed" (PRoomId 1%positive)])
  ∧ response o6 = NotFound.
Proof.
  split_and!; reflexivity.
Qed.

(** * Further properties of the room routes *)

(** ** The room list *)

Global Instance newest_first_total : Total newest_first.
Proof. intros a b. unfold newest_first. lia. Qed.

Global Instance newest_first_trans : Transitive newest_first.
Proof. intros a b c. unfold newest_first. lia. Qed.

(** X1: the list route answers 200 with the public waiting rooms, each once
    and no other room, newest first, and changes and emits nothing. *)
Theorem get_rooms_public_waiting db :
  db_after (get_rooms db) = db
  ∧ emitted (get_rooms db) = []
  ∧ ∃ js,
      response (get_rooms db) = json 200 (BRooms js)
      ∧ StronglySorted (λ j1 j2, j_createdAt j2 ≤ j_createdAt j1) js
      ∧ NoDup (j_id <$> js)
      ∧ ∀ j, j ∈ js ↔
          ∃ id r, rooms db !! id = Some r
                  ∧ status r = waiting ∧ isPublic r = true
                  ∧ j = populated (users db) id r.
Proof.
  split; [done|]. split; [done|]. eexists. split; [reflexivity|].
  set (P := λ ir : ObjectId * Room, status ir.2 = waiting ∧ isPublic ir.2 = true).
  set (found := filter P (map_to_list (rooms db))).
  pose proof (merge_sort_Permutation newest_first found) as Hperm.
  split.
  { eapply StronglySorted_fmap; [|apply (StronglySorted_merge_sort newest_first)].
    intros [id1 r1] [id2 r2] Hle. exact Hle. }
  split.
  - rewrite <- list_fmap_compose.
    assert (j_id ∘ (λ ir : ObjectId * Room, populated (users db) ir.1 ir.2)
            = Some ∘ fst) as -> by done.
    rewrite list_fmap_compose. apply (NoDup_fmap_2 Some).
    rewrite Hperm.
    apply (sublist_NoDup _ ((map_to_list (rooms db)).*1)).
    + apply NoDup_fst_map_to_list.
    + apply fmap_sublist, sublist_filter.
  - intros j. rewrite list_elem_of_fmap. split.
    + intros ([id r] & -> & Hin). rewrite Hperm in Hin.
      apply list_elem_of_filter in Hin as [[Hs Hp] Hin].
      apply elem_of_map_to_list in Hin. by exists id, r.
    + intros (id & r & Hr & Hs & Hp & ->). exists (id, r). split; [done|].
      rewrite Hperm. apply list_elem_of_filter. split; [done|].
      by apply elem_of_map_to_list.
Qed.

(** ** When a join is accepted *)

Lemma wrong_password_false (stored : Field string) supplied :
  wrong_password stored supplied = false ↔
  ∀ s, stored = value s → s ≠ "" → supplied = Some s.
Proof.
  destruct stored as [| |s]; simpl; [by split|by split|].
  rewrite andb_false_iff, !bool_decide_eq_false. split.
  - intros [Hs|Hs] s' [= <-] Hne; [done|].
    by destruct (decide (supplied = Some s)).
  - intros Hs. destruct (decide (s = "")) as [->|Hne].
    + left. by intros [].
    + right. intros Hsup. by apply Hsup, Hs.
Qed.

(** X2: a join is answered 2xx exactly when the request names the room and a
    player, the room exists and is waiting, it has a free slot, the body
    holds the room's password if the room has a non-empty one, and the
    user is not yet among its players. *)
Theorem join_accepted_iff now uid b db :
  succeeded (response (post_rooms_join now uid b db)) = true ↔
  ∃ roomId room,
    jb_roomId b = Some roomId
    ∧ (∃ n, jb_playerName b = Some n ∧ n ≠ "")
    ∧ rooms db !! roomId = Some room
    ∧ status room = waiting
    ∧ (Z.of_nat (length (players room)) < maxPlayers room)%num
    ∧ (∀ s, password room = value s → s ≠ "" → jb_password b = Some s)
    ∧ (uid ∉ userId <$> players room).
Proof.
  split.
  - destruct (join_check now uid b db) as [rejection|[roomId p]] eqn:Hcheck.
    + rewrite (post_rooms_join_rejected _ _ _ _ _ Hcheck). simpl.
      by rewrite (join_check_rejection _ _ _ _ _ Hcheck).
    + intros _.
      destruct (join_check_passed _ _ _ _ _ _ Hcheck)
        as (room & n & Hid & Hn & Hne & Hroom & Hs & Hfree & Hpw & Hnew & _).
      exists roomId, room.
      pose proof (proj1 (wrong_password_false _ _) Hpw) as Hpw'.
      split_and!; try done. by exists n.
  - intros (roomId & room & Hid & Hname%truthy_true & Hroom & Hs & Hfree
            & Hpw & Hnew).
    apply (proj2 (wrong_password_false _ _)) in Hpw.
    pose proof (join_check_passes now uid b db roomId room Hid Hname Hroom
                  Hs Hfree Hpw Hnew) as Hcheck.
    by rewrite (post_rooms_join_passed _ _ _ _ _ _ _ Hcheck Hroom).
Qed.

(** X3: an accepted join appends one player to the room it names, built from
    the body with "Warrior" and 1 as defaults and stamped with the time of
    the request; it answers 200 with the snapshot of the room after, and
    sends that snapshot as [player-joined] to the sockets of the room
    only. *)
Theorem join_accepted_effect now uid b db :
  succeeded (response (post_rooms_join now uid b db)) = true →
  ∃ roomId room n,
    jb_roomId b = Some roomId
    ∧ jb_playerName b = Some n
    ∧ rooms db !! roomId = Some room
    ∧ let p := {| userId := uid; playerName := n;
                  characterClass := or_string (jb_characterClass b) "Warrior";
                  level := or_number (jb_level b) 1;
                  joinedAt := now |} in
      let room' := set_players room (players room ++ [p]) in
      let snapshot := Some (populated (users db) roomId room') in
      db_after (post_rooms_join now uid b db)
        = set_rooms db (<[roomId := room']> (rooms db))
      ∧ response (post_rooms_join now uid b db) = json 200 (BRoom snapshot)
      ∧ emitted (post_rooms_join now uid b db)
        = [io_to_emit roomId "player-joined" (PRoom snapshot)].
Proof.
  destruct (join_check now uid b db) as [rejection|[roomId p]] eqn:Hcheck.
  - rewrite (post_rooms_join_rejected _ _ _ _ _ Hcheck). simpl.
    by rewrite (join_check_rejection _ _ _ _ _ Hcheck).
  - intros _.
    destruct (join_check_passed _ _ _ _ _ _ Hcheck)
      as (room & n & Hid & Hn & _ & Hroom & _ & _ & _ & _ & ->).
    exists roomId, room, n. split_and!; [done..|].
    by rewrite (post_rooms_join_passed _ _ _ _ _ _ _ Hcheck Hroom).
Qed.

Lemma join_accepted_effect_witness :
  ∃ roomId room n,
    jb_roomId (join_body 1%positive (Some "Bob") None) = Some roomId
    ∧ jb_playerName (join_body 1%positive (Some "Bob") None) = Some n
    ∧ rooms db_warriors !! roomId = Some room
    ∧ let p := {| userId := bob; playerName := n;
                  characterClass := "Warrior"; level := 1; joinedAt := 20 |} in
      let room' := set_players room (players room ++ [p]) in
      let snapshot := Some (populated (users db_warriors) roomId room') in
      let o := post_rooms_join 20 bob (join_body 1%positive (Some "Bob") None)
                 db_warriors in
      db_after o = set_rooms db_warriors (<[roomId := room']> (rooms db_warriors))
      ∧ response o = json 200 (BRoom snapshot)
      ∧ emitted o = [io_to_emit roomId "player-joined" (PRoom snapshot)].
Proof.
  apply (join_accepted_effect 20 bob (join_body 1%positive (Some "Bob") None)
           db_warriors).
  reflexivity.
Defined.

(** ** When a join is turned away *)

(** X4: a join with the wrong password, or none, on a waiting room with a free
    slot and a non-empty password is answered 401 "Invalid room password",
    whether or not the user is already in the room; nothing changes. *)
Theorem join_wrong_password now uid b db roomId room s :
  jb_roomId b = Some roomId →
  (∃ n, jb_playerName b = Some n ∧ n ≠ "") →
  rooms db !! roomId = Some room →
  status room = waiting →
  (Z.of_nat (length (players room)) < maxPlayers room)%num →
  password room = value s → s ≠ "" →
  jb_password b ≠ Some s →
  post_rooms_join now uid b db = reply db Unauthorized.
Proof.
  intros Hid Hname%truthy_true Hroom Hs Hfree Hpw Hne Hsup.
  apply post_rooms_join_rejected.
  unfold join_check. rewrite Hid, Hname, Hroom, Hpw. simpl.
  rewrite bool_decide_eq_false_2 by (intros H; by apply H).
  rewrite bool_decide_eq_false_2 by (by apply Number_lt_nge).
  by rewrite !bool_decide_eq_true_2.
Qed.

Lemma join_wrong_password_witness :
  post_rooms_join 30 carol (join_body 1%positive (Some "Carol") (Some "guess"))
    db_secret
  = reply db_secret Unauthorized.
Proof.
  eapply (join_wrong_password 30 carol _ db_secret 1%positive _ "secret").
  - reflexivity.
  - exists "Carol". split; [reflexivity | discriminate].
  - reflexivity.
  - reflexivity.
  - vm_compute. reflexivity.
  - reflexivity.
  - discriminate.
  - discriminate.
Defined.

(** X5: a join by a user who is already among the players of a waiting room
    with a free slot, with the right password if there is one, is answered
    400 "Already in room"; nothing changes. *)
Theorem join_twice now uid b db roomId room :
  jb_roomId b = Some roomId →
  (∃ n, jb_playerName b = Some n ∧ n ≠ "") →
  rooms db !! roomId = Some room →
  status room = waiting →
  (Z.of_nat (length (players room)) < maxPlayers room)%num →
  (∀ s, password room = value s → s ≠ "" → jb_password b = Some s) →
  uid ∈ userId <$> players room →
  post_rooms_join now uid b db = reply db AlreadyJoined.
Proof.
  intros Hid Hname%truthy_true Hroom Hs Hfree Hpw Hin.
  apply (proj2 (wrong_password_false _ _)) in Hpw.
  apply post_rooms_join_rejected.
  unfold join_check. rewrite Hid, Hname, Hroom, Hpw. simpl.
  rewrite bool_decide_eq_false_2 by (intros H; by apply H).
  rewrite bool_decide_eq_false_2 by (by apply Number_lt_nge).
  destruct (existingPlayer uid (players room)) eqn:Hnew; [done|].
  by apply existingPlayer_None in Hnew.
Qed.

Lemma join_twice_witness :
  post_rooms_join 30 bob (join_body 1%positive (Some "Bob") (Some "secret"))
    db_secret
  = reply db_secret AlreadyJoined.
Proof.
  eapply (join_twice 30 bob _ db_secret 1%positive).
  - reflexivity.
  - exists "Bob". split; [reflexivity | discriminate].
  - reflexivity.
  - reflexivity.
  - vm_compute. reflexivity.
  - intros s [= <-] _. reflexivity.
  - simpl. apply list_elem_of_further, list_elem_of_here.
Defined.

(** X6: a request that is not answered 2xx leaves the database as it was and
    emits nothing. *)
Theorem handle_failure_changes_nothing now q db :
  succeeded (response (handle now q db)) = false →
  db_after (handle now q db) = db ∧ emitted (handle now q db) = [].
Proof.
  destruct q as [uid b|uid b|uid [roomId|]|]; simpl.
  - unfold post_rooms. destruct (truthy (cb_name b)); simpl; [|done].
    by destruct (users db !! uid).
  - destruct (join_check now uid b db) as [rejection|[roomId p]] eqn:Hcheck.
    + by rewrite (post_rooms_join_rejected _ _ _ _ _ Hcheck).
    + destruct (join_check_room _ _ _ _ _ _ Hcheck) as (room & Hroom & _).
      by rewrite (post_rooms_join_passed _ _ _ _ _ _ _ Hcheck Hroom).
  - destruct (rooms db !! roomId) as [room|] eqn:Hroom.
    + destruct (filter (λ p, userId p ≠ uid) (players room)) as [|p ps] eqn:Hrest.
      * by rewrite (post_rooms_leave_last _ _ _ _ Hroom Hrest).
      * by rewrite (post_rooms_leave_stays _ _ _ _ _ _ Hroom Hrest).
    + by rewrite post_rooms_leave_absent.
  - done.
  - done.
Qed.

Lemma handle_failure_changes_nothing_witness :
  let q := JoinRoom carol (join_body 1%positive (Some "Carol") None) in
  db_after (handle 30 q db_warriors_full) = db_warriors_full
  ∧ emitted (handle 30 q db_warriors_full) = [].
Proof.
  apply (handle_failure_changes_nothing 30
           (JoinRoom carol (join_body 1%positive (Some "Carol") None))
           db_warriors_full).
  reflexivity.
Defined.

(** ** What the routes keep and what they leave alone *)

Lemma filter_others_stranger uid (ps : list Player) :
  uid ∉ (userId <$> ps) → filter (λ p, userId p ≠ uid) ps = ps.
Proof.
  induction ps as [|p ps IH]; [done|]. simpl.
  rewrite not_elem_of_cons. intros [Hp Hps].
  rewrite filter_cons_True by done. by rewrite IH.
Qed.

Lemma NoDup_userId_filter (P : Player → Prop) `{∀ p, Decision (P p)} ps :
  NoDup (userId <$> ps) → NoDup (userId <$> filter P ps).
Proof.
  intros Hnd. eapply sublist_NoDup; [done|].
  apply fmap_sublist, sublist_filter.
Qed.

(** X7: no request handled from start to end puts a user twice into a room. *)
Theorem members_unique_preserved now q db :
  members_unique db → members_unique (db_after (handle now q db)).
Proof.
  unfold members_unique. intros Huniq.
  destruct q as [uid b|uid b|uid [roomId|]|]; simpl; [| | |done|done].
  - unfold post_rooms. destruct (truthy (cb_name b)); simpl; [|done].
    destruct (users db !! uid) as [user|]; simpl; [|done].
    apply map_Forall_insert_2; [|done]. simpl. apply NoDup_singleton.
  - destruct (join_check now uid b db) as [rejection|[roomId p]] eqn:Hcheck.
    + by rewrite (post_rooms_join_rejected _ _ _ _ _ Hcheck).
    + destruct (join_check_passed _ _ _ _ _ _ Hcheck)
        as (room & n & _ & _ & _ & Hroom & _ & _ & _ & Hnew & ->).
      rewrite (post_rooms_join_passed _ _ _ _ _ _ _ Hcheck Hroom). simpl.
      apply map_Forall_insert_2; [|done]. simpl. rewrite fmap_app.
      apply NoDup_app. split_and!.
      * by apply (Huniq roomId).
      * intros x Hx ->%list_elem_of_singleton. done.
      * apply NoDup_singleton.
  - destruct (rooms db !! roomId) as [room|] eqn:Hroom.
    + destruct (filter (λ p, userId p ≠ uid) (players room)) as [|p ps] eqn:Hrest.
      * rewrite (post_rooms_leave_last _ _ _ _ Hroom Hrest). simpl.
        by apply map_Forall_delete.
      * rewrite (post_rooms_leave_stays _ _ _ _ _ _ Hroom Hrest). simpl.
        apply map_Forall_insert_2; [|done].
        destruct (leave_room_players uid room p ps) as (-> & _ & _).
        rewrite <- Hrest. apply NoDup_userId_filter. by apply (Huniq roomId).
    + by rewrite post_rooms_leave_absent.
Qed.

Lemma members_unique_preserved_witness :
  members_unique db_warriors_full.
Proof.
  apply (members_unique_preserved 20
           (JoinRoom bob (join_body 1%positive (Some "Bob") None)) db_warriors).
  apply (members_unique_preserved 10
           (CreateRoom alice (create_body "Warriors" (Some (whole 2)) (js_bool true) None))
           db0).
  apply map_Forall_empty.
Defined.

(** X8: no room route changes the users, and a request changes no room but
    the one it names or, for a create, the one it inserts. *)
Theorem handle_frame now q db :
  users (db_after (handle now q db)) = users db
  ∧ ∀ id, id ≠ nextId db → target q ≠ Some id →
          rooms (db_after (handle now q db)) !! id = rooms db !! id.
Proof.
  split.
  - destruct q as [uid b|uid b|uid [roomId|]|]; simpl; [| | |done|done].
    + unfold post_rooms. destruct (truthy (cb_name b)); simpl; [|done].
      by destruct (users db !! uid).
    + unfold post_rooms_join.
      destruct (join_check now uid b db) as [rejection|[roomId p]]; [done|].
      unfold join_save. by destruct (rooms db !! roomId).
    + unfold post_rooms_leave. simpl.
      destruct (rooms db !! roomId); simpl; [|done].
      by case_bool_decide.
  - intros id Hfresh Htarget.
    destruct (handle_rooms now q db)
      as [->|[(uid & b & user & -> & ->)
         |[(uid & b & roomId & room & p & -> & Hroom & Hfree & _ & Heq)
         |[(uid & roomId & -> & ->)
         |(uid & roomId & room & p & ps & -> & Hroom & Hrest & ->)]]]].
    + done.
    + by rewrite lookup_insert_ne.
    + clear Heq. simpl in *.
      destruct (join_check now uid b db) as [rejection|[roomId' p']] eqn:Hcheck.
      { by rewrite (post_rooms_join_rejected _ _ _ _ _ Hcheck). }
      destruct (join_check_passed _ _ _ _ _ _ Hcheck)
        as (room' & n & Hid & _ & _ & Hroom' & _).
      rewrite (post_rooms_join_passed _ _ _ _ _ _ _ Hcheck Hroom'). simpl.
      rewrite lookup_insert_ne; [done|]. congruence.
    + simpl in Htarget. rewrite lookup_delete_ne; [done|]. congruence.
    + simpl in Htarget. rewrite lookup_insert_ne; [done|]. congruence.
Qed.

(** X9: once a room is created, its name, capacity, visibility, status,
    password and creation time never change: a request that leaves the room
    in the registry leaves these as they were. *)
Theorem room_settings_fixed now q db id r r' :
  rooms db !! nextId db = None →
  rooms db !! id = Some r →
  rooms (db_after (handle now q db)) !! id = Some r' →
  name r' = name r ∧ maxPlayers r' = maxPlayers r ∧ isPublic r' = isPublic r
  ∧ status r' = status r ∧ password r' = password r
  ∧ createdAt r' = createdAt r.
Proof.
  intros Hfresh Hr.
  destruct (handle_rooms now q db)
    as [->|[(uid & b & user & -> & ->)
       |[(uid & b & roomId & room & p & -> & Hroom & Hfree & _ & ->)
       |[(uid & roomId & -> & ->)
       |(uid & roomId & room & p & ps & -> & Hroom & Hrest & ->)]]]].
  - rewrite Hr. by intros [= <-].
  - rewrite lookup_insert_ne by congruence. rewrite Hr. by intros [= <-].
  - destruct (decide (roomId = id)) as [->|Hne].
    + rewrite lookup_insert_eq. intros [= <-]. by simplify_eq.
    + rewrite lookup_insert_ne by done. rewrite Hr. by intros [= <-].
  - destruct (decide (roomId = id)) as [->|Hne].
    + by rewrite lookup_delete_eq.
    + rewrite lookup_delete_ne by done. rewrite Hr. by intros [= <-].
  - destruct (decide (roomId = id)) as [->|Hne].
    + rewrite lookup_insert_eq. intros [= <-]. simplify_eq.
      by case_bool_decide.
    + rewrite lookup_insert_ne by done. rewrite Hr. by intros [= <-].
Qed.

Lemma room_settings_fixed_witness :
  name room_warriors_full = name room_warriors
  ∧ maxPlayers room_warriors_full = maxPlayers room_warriors
  ∧ isPublic room_warriors_full = isPublic room_warriors
  ∧ status room_warriors_full = status room_warriors
  ∧ password room_warriors_full = password room_warriors
  ∧ createdAt room_warriors_full = createdAt room_warriors.
Proof.
  apply (room_settings_fixed 20
           (JoinRoom bob (join_body 1%positive (Some "Bob") None))
           db_warriors 1%positive); reflexivity.
Defined.

(** One request keeps every room waiting. *)
Lemma handle_stays_waiting now q db :
  (∀ id r, rooms db !! id = Some r → status r = waiting) →
  ∀ id r, rooms (db_after (handle now q db)) !! id = Some r →
          status r = waiting.
Proof.
  intros IH id r.
  destruct (handle_rooms now q db)
    as [->|[(uid & b & user & -> & ->)
       |[(uid & b & roomId & room & p & -> & Hroom & Hfree & _ & ->)
       |[(uid & roomId & -> & ->)
       |(uid & roomId & room & p & ps & -> & Hroom & Hrest & ->)]]]].
  - apply IH.
  - rewrite lookup_insert. case_decide; [by intros [= <-]|apply IH].
  - rewrite lookup_insert. case_decide; [|apply IH].
    intros [= <-]. simpl. by apply (IH roomId).
  - rewrite lookup_delete. case_decide; [done|apply IH].
  - rewrite lookup_insert. case_decide; [|apply IH].
    intros [= <-]. case_bool_decide; simpl; by apply (IH roomId).
Qed.

(** Where every room is waiting, no request is answered "Room is not
    accepting players". *)
Lemma handle_never_InvalidState now q db :
  (∀ id r, rooms db !! id = Some r → status r = waiting) →
  response (handle now q db) ≠ InvalidState.
Proof.
  intros Hwaiting. destruct q as [uid b|uid b|uid [roomId|]|]; simpl.
  - unfold post_rooms. destruct (truthy (cb_name b)); simpl; [|done].
    by destruct (users db !! uid).
  - destruct (join_check now uid b db) as [rejection|[roomId p]] eqn:Hcheck.
    + rewrite (post_rooms_join_rejected _ _ _ _ _ Hcheck). simpl. intros ->.
      unfold join_check in Hcheck.
      destruct (jb_roomId b) as [roomId|]; [|done].
      destruct (truthy (jb_playerName b)); simpl in Hcheck; [|done].
      destruct (rooms db !! roomId) as [room|] eqn:Hroom; [|done].
      case_bool_decide as Hstatus; [by apply Hstatus, (Hwaiting roomId)|].
      repeat (case_match; simplify_eq).
    + destruct (join_check_room _ _ _ _ _ _ Hcheck) as (room & Hroom & _).
      by rewrite (post_rooms_join_passed _ _ _ _ _ _ _ Hcheck Hroom).
  - destruct (rooms db !! roomId) as [room|] eqn:Hroom.
    + destruct (filter (λ p, userId p ≠ uid) (players room)) as [|p ps] eqn:Hrest.
      * by rewrite (post_rooms_leave_last _ _ _ _ Hroom Hrest).
      * by rewrite (post_rooms_leave_stays _ _ _ _ _ _ Hroom Hrest).
    + by rewrite post_rooms_leave_absent.
  - done.
  - done.
Qed.

(** X10: every room the server holds after handling requests one after the
    other, starting without rooms, is waiting: no route moves a room to
    another status. So no request that follows is answered "Room is not
    accepting players". *)
Theorem rooms_stay_waiting requests db :
  rooms db = ∅ →
  (∀ id r, rooms (run requests db) !! id = Some r → status r = waiting)
  ∧ (∀ now q, response (handle now q (run requests db)) ≠ InvalidState).
Proof.
  intros Hempty.
  assert (∀ id r, rooms db !! id = Some r → status r = waiting) as Hstart.
  { intros id' r'. by rewrite Hempty, lookup_empty. }
  clear Hempty.
  assert (∀ id r, rooms (run requests db) !! id = Some r → status r = waiting)
    as Hwaiting.
  { revert db Hstart.
    induction requests as [|[now q] requests IH]; intros db Hstart id r.
    - apply Hstart.
    - apply (IH (db_after (handle now q db))).
      by apply handle_stays_waiting. }
  split; [done|]. intros now q. by apply handle_never_InvalidState.
Qed.

Lemma rooms_stay_waiting_witness :
  status room_warriors_full = waiting
  ∧ response (handle 30 (JoinRoom carol (join_body 1%positive (Some "Carol") None))
                db_warriors_full) ≠ InvalidState.
Proof.
  destruct (rooms_stay_waiting
              [ (10, CreateRoom alice
                       (create_body "Warriors" (Some (whole 2)) (js_bool true)
                          None));
                (20, JoinRoom bob (join_body 1%positive (Some "Bob") None)) ]
              db0) as [Hwaiting Hnever].
  - reflexivity.
  - split.
    + apply (Hwaiting 1%positive). reflexivity.
    + apply Hnever.
Defined.

(** ** Leaving without being in, and joining and leaving again *)

Lemma set_rooms_same db : set_rooms db (rooms db) = db.
Proof. by destruct db. Qed.

Lemma set_players_same r : set_players r (players r) = r.
Proof. by destruct r. Qed.

(** X11: the leave route does not ask whether the user is in the room: a leave
    by a user who is not among the players of a room is answered 200, leaves
    the database as it was, and still sends the stored room, password
    included, to the sockets of the room as [player-left]. *)
Theorem leave_by_stranger uid roomId room db :
  rooms db !! roomId = Some room →
  room_ok room →
  uid ∉ (userId <$> players room) →
  let o := post_rooms_leave uid (Some roomId) db in
  db_after o = db
  ∧ response o = LeftRoom
  ∧ emitted o = [io_to_emit roomId "player-left"
                   (PRoom (Some (toJSON roomId room)))].
Proof.
  intros Hroom [Hsize Hhost] Hnew.
  pose proof (filter_others_stranger uid _ Hnew) as Hrest.
  destruct (players room) as [|p ps] eqn:Hps; [simpl in Hsize; lia|].
  rewrite <- Hps in *. rewrite Hps in Hrest at 2.
  simpl. rewrite (post_rooms_leave_stays _ _ _ _ _ _ Hroom Hrest).
  rewrite bool_decide_eq_false_2 by (intros <-; done).
  rewrite <- Hps, set_players_same, insert_id, set_rooms_same by done.
  done.
Qed.

Lemma leave_by_stranger_witness :
  let o := post_rooms_leave carol (Some 1%positive) db_secret in
  db_after o = db_secret
  ∧ response o = LeftRoom
  ∧ ∃ j, emitted o = [io_to_emit 1%positive "player-left" (PRoom (Some j))]
         ∧ j_password j = value "secret".
Proof.
  destruct (leave_by_stranger carol 1%positive
              {| name := "Vault"; host := alice;
                 players :=
                   [ {| userId := alice; playerName := "alice";
                        characterClass := "Warrior"; level := 1;
                        joinedAt := 10 |};
                     {| userId := bob; playerName := "Bob";
                        characterClass := "Warrior"; level := 1;
                        joinedAt := 20 |} ];
                 maxPlayers := 4; isPublic := true; status := waiting;
                 password := value "secret"; createdAt := 10 |}
              db_secret) as (Hdb & Hres & Hev).
  - reflexivity.
  - split; [split; vm_compute; discriminate|]. simpl. apply list_elem_of_here.
  - simpl. repeat (apply not_elem_of_cons; split; [discriminate|]).
    apply not_elem_of_nil.
  - split; [exact Hdb|]. split; [exact Hres|].
    eexists. split; [exact Hev|]. reflexivity.
Defined.

(** X12: a user who joins a room and then leaves it puts the database back as
    it was before the join. *)
Theorem join_then_leave_restores now uid b db roomId room :
  jb_roomId b = Some roomId →
  rooms db !! roomId = Some room →
  room_ok room →
  succeeded (response (post_rooms_join now uid b db)) = true →
  db_after (post_rooms_leave uid (Some roomId)
              (db_after (post_rooms_join now uid b db))) = db.
Proof.
  intros Hid Hroom [Hsize Hhost].
  destruct (join_check now uid b db) as [rejection|[roomId' p]] eqn:Hcheck.
  { rewrite (post_rooms_join_rejected _ _ _ _ _ Hcheck). simpl.
    by rewrite (join_check_rejection _ _ _ _ _ Hcheck). }
  intros _.
  destruct (join_check_passed _ _ _ _ _ _ Hcheck)
    as (room' & n & Hid' & _ & _ & Hroom' & _ & _ & _ & Hnew & Hp).
  assert (roomId' = roomId) as -> by congruence.
  assert (room' = room) as -> by congruence.
  rewrite (post_rooms_join_passed _ _ _ _ _ _ _ Hcheck Hroom). simpl.
  assert (userId p = uid) as Huid by (by rewrite Hp).
  assert (filter (λ q, userId q ≠ uid) (players room ++ [p]) = players room)
    as Hrest.
  { rewrite filter_app, filter_others_stranger by done.
    rewrite filter_cons_False, filter_nil by (intros Hne; by apply Hne).
    apply app_nil_r. }
  destruct (players room) as [|p0 ps] eqn:Hps; [simpl in Hsize; lia|].
  rewrite <- Hps in *. rewrite Hps in Hrest at 2.
  match goal with
  | |- db_after (post_rooms_leave _ _ ?db1) = _ => set (dbj := db1)
  end.
  assert (rooms dbj !! roomId
          = Some (set_players room (players room ++ [p]))) as Hroomj
    by apply lookup_insert_eq.
  rewrite (post_rooms_leave_stays _ _ _ _ _ _ Hroomj Hrest). simpl.
  rewrite bool_decide_eq_false_2 by (intros <-; done).
  rewrite insert_insert_eq.
  assert (set_players (set_players room (players room ++ [p])) (p0 :: ps) = room)
    as -> by (rewrite <- Hps; by destruct room).
  rewrite insert_id by done. by destruct db.
Qed.

Lemma join_then_leave_restores_witness :
  db_after (post_rooms_leave bob (Some 1%positive)
              (db_after (post_rooms_join 20 bob
                           (join_body 1%positive (Some "Bob") None) db_warriors)))
  = db_warriors.
Proof.
  apply (join_then_leave_restores 20 bob _ db_warriors 1%positive room_warriors).
  - reflexivity.
  - reflexivity.
  - split; [split; vm_compute; discriminate|]. simpl. apply list_elem_of_here.
  - reflexivity.
Defined.

(** ** The same user joining twice at once *)

(** X13: when two join requests of one user for a room with a free slot both
    read the room before either saves, neither sees the user among the
    players: both are answered 200 and the user is stored twice. *)
Theorem same_user_joins_twice db roomId room uid now1 b1 now2 b2 :
  rooms db !! roomId = Some room →
  status room = waiting →
  (Z.of_nat (length (players room)) < maxPlayers room)%num →
  jb_roomId b1 = Some roomId ∧ jb_roomId b2 = Some roomId →
  truthy (jb_playerName b1) = true ∧ truthy (jb_playerName b2) = true →
  wrong_password (password room) (jb_password b1) = false
  ∧ wrong_password (password room) (jb_password b2) = false →
  uid ∉ (userId <$> players room) →
  let s := race both_read_first (two_joins db now1 uid b1 now2 uid b2) in
  (∃ r1 r2, answer (task1 s) = Some r1 ∧ answer (task2 s) = Some r2
            ∧ code r1 = 200 ∧ code r2 = 200)
  ∧ ∃ room' p1 p2,
      rooms (shared s) !! roomId = Some room'
      ∧ players room' = players room ++ [p1; p2]
      ∧ userId p1 = uid ∧ userId p2 = uid.
Proof.
  intros Hroom Hstatus Hfree [Hid1 Hid2] [Hname1 Hname2] [Hpw1 Hpw2] Hnew.
  pose proof (join_check_passes now1 uid b1 db roomId room Hid1 Hname1 Hroom
                Hstatus Hfree Hpw1 Hnew) as Hcheck1.
  pose proof (join_check_passes now2 uid b2 db roomId room Hid2 Hname2 Hroom
                Hstatus Hfree Hpw2 Hnew) as Hcheck2.
  unfold race, both_read_first, two_joins, race_step. simpl.
  rewrite Hcheck1. simpl. rewrite Hcheck2. simpl.
  rewrite (join_save_found _ _ _ _ Hroom). simpl.
  erewrite join_save_found by apply lookup_insert_eq. simpl.
  split; [by eexists _, _|].
  eexists _, _, _. rewrite lookup_insert_eq. split; [done|]. simpl.
  by rewrite <- (assoc_L (++)).
Qed.

Lemma same_user_joins_twice_witness :
  let s := race both_read_first
             (two_joins db_warriors
                20 bob (join_body 1%positive (Some "Bob") None)
                21 bob (join_body 1%positive (Some "Bobby") None)) in
  (∃ r1 r2, answer (task1 s) = Some r1 ∧ answer (task2 s) = Some r2
            ∧ code r1 = 200 ∧ code r2 = 200)
  ∧ ∃ room' p1 p2,
      rooms (shared s) !! 1%positive = Some room'
      ∧ players room' = players room_warriors ++ [p1; p2]
      ∧ userId p1 = bob ∧ userId p2 = bob.
Proof.
  apply (same_user_joins_twice db_warriors 1%positive room_warriors bob).
  - reflexivity.
  - reflexivity.
  - vm_compute. reflexivity.
  - split; reflexivity.
  - split; reflexivity.
  - split; reflexivity.
  - simpl. apply not_elem_of_cons. split; [discriminate | apply not_elem_of_nil].
Defined.

(** * The room routes of the other back ends *)

(** ** Native driver: create, join and list *)

(** X14: with a driver that lets [ObjectId] be called without [new], the
    native-driver create route accepts what the Mongoose route accepts, and
    sends the password it was given back: the 201 answer and the
    [room-created] event to all connections carry it. With a later driver
    the same request is answered 500, and nothing is stored or emitted. *)
Theorem native_create_announces_password plain_call now uid b db s :
  cb_password b = Some s → s ≠ "" →
  succeeded (response (post_rooms now uid b db)) = true →
  let o := NativeRoutes.post_rooms plain_call now uid b db in
  if plain_call then
    ∃ j,
      response o = json 201 (BRoom (Some j))
      ∧ emitted o = [io_emit "room-created" (PRoom (Some j))]
      ∧ j_id j = Some (nextId db)
      ∧ j_password j = value s
      ∧ password <$> rooms (db_after o) !! nextId db = Some (value s)
  else o = reply db InternalError.
Proof.
  intros Hpw Hne [Hname [user Huser]]%post_rooms_succeeded.
  unfold NativeRoutes.post_rooms. rewrite Hname. simpl.
  destruct plain_call; simpl; [|done]. rewrite Huser. simpl.
  assert (or_undefined (cb_password b) = value s) as Hstored.
  { rewrite Hpw. simpl. by rewrite bool_decide_eq_false_2. }
  eexists. split; [done|]. split; [done|]. split; [done|].
  split; [exact Hstored|].
  rewrite lookup_insert_eq. cbn [fmap option_fmap option_map]. f_equal.
  unfold NativeRoutes.as_inserted, new_room. cbn [password].
  by rewrite Hstored.
Qed.

Lemma native_create_announces_password_witness :
  let b := create_body "Vault" None js_undefined (Some "secret") in
  let o := NativeRoutes.post_rooms true 10 alice b db0 in
  ∃ j,
    response o = json 201 (BRoom (Some j))
    ∧ emitted o = [io_emit "room-created" (PRoom (Some j))]
    ∧ j_id j = Some (nextId db0)
    ∧ j_password j = value "secret"
    ∧ password <$> rooms (db_after o) !! nextId db0 = Some (value "secret").
Proof.
  apply (native_create_announces_password true 10 alice
           (create_body "Vault" None js_undefined (Some "secret")) db0 "secret").
  - reflexivity.
  - discriminate.
  - reflexivity.
Defined.

(** X15: with a driver that lets [ObjectId] be called without [new], the
    native-driver join route leaves the database the Mongoose route leaves
    and answers with the same status, and what it sends of the room is the
    stored document, password included. With a later driver it changes and
    emits nothing, and answers 500 to every join that names a room and a
    player. *)
Theorem native_join_same_database plain_call now uid b db :
  let o := NativeRoutes.post_rooms_join plain_call now uid b db in
  if plain_call then
    db_after o = db_after (post_rooms_join now uid b db)
    ∧ code (response o) = code (response (post_rooms_join now uid b db))
    ∧ Forall (λ j, ∃ id r,
                rooms (db_after o) !! id = Some r
                ∧ j_id j = Some id
                ∧ j_players j = players r
                ∧ j_password j = password r)
        (sent_rooms o)
  else
    db_after o = db
    ∧ emitted o = []
    ∧ response o = (if bool_decide (is_Some (jb_roomId b))
                       && truthy (jb_playerName b)
                    then InternalError else ValidationError_join).
Proof.
  unfold NativeRoutes.post_rooms_join, post_rooms_join.
  destruct plain_call; simpl; [|by destruct (_ && _)].
  destruct (join_check now uid b db) as [rejection|[roomId p]] eqn:Hcheck.
  - split; [done|]. split; [done|].
    unfold sent_rooms. simpl. rewrite app_nil_r.
    unfold join_check in Hcheck.
    repeat (case_match; simplify_eq; try by constructor).
  - destruct (join_check_room _ _ _ _ _ _ Hcheck) as (room & Hroom & _).
    rewrite (join_save_found _ _ _ _ Hroom). simpl.
    rewrite lookup_insert_eq. split; [done|]. split; [done|].
    unfold sent_rooms. simpl.
    repeat constructor; eexists roomId, _; by rewrite lookup_insert_eq.
Qed.

(** X16: with a driver that lets [ObjectId] be called without [new], the
    native-driver list has, for every public waiting room, an entry with
    the room's id, players and stored password, and no other entry. With a
    later driver the list is answered 500 as soon as there is such a room,
    and is empty otherwise. *)
Theorem native_list_shows_passwords plain_call db :
  let o := NativeRoutes.get_rooms plain_call db in
  let listed id r :=
    rooms db !! id = Some r ∧ status r = waiting ∧ isPublic r = true in
  if plain_call then
    ∃ js,
      response o = json 200 (BRooms js)
      ∧ (∀ id r, listed id r →
                 ∃ j, j ∈ js ∧ j_id j = Some id ∧ j_players j = players r
                      ∧ j_password j = password r)
      ∧ (∀ j, j ∈ js →
              ∃ id r, listed id r
                      ∧ j_id j = Some id ∧ j_password j = password r)
  else
    ((∃ id r, listed id r) → o = reply db InternalError)
    ∧ ((∀ id r, ¬ listed id r) → o = reply db (json 200 (BRooms []))).
Proof.
  intros o listed. subst o. unfold NativeRoutes.get_rooms.
  set (P := λ ir : ObjectId * Room, status ir.2 = waiting ∧ isPublic ir.2 = true).
  set (found := filter P (map_to_list (rooms db))).
  assert (∀ id r, (id, r) ∈ found ↔ listed id r) as Hfound.
  { intros id r. unfold found. rewrite list_elem_of_filter, elem_of_map_to_list.
    unfold listed, P. simpl. tauto. }
  pose proof (merge_sort_Permutation newest_first found) as Hperm.
  destruct plain_call; simpl.
  - eexists. split; [reflexivity|]. split.
    + intros id r Hr. exists (NativeRoutes.with_host (users db) id r).
      split; [|done]. apply list_elem_of_fmap. exists (id, r). split; [done|].
      rewrite Hperm. by apply Hfound.
    + intros j ([id r] & -> & Hin)%list_elem_of_fmap. rewrite Hperm in Hin.
      apply Hfound in Hin. by exists id, r.
  - split.
    + intros (id & r & Hr). rewrite bool_decide_eq_true_2; [done|].
      intros Hnil. apply Hfound in Hr. rewrite Hnil in Hr.
      by apply elem_of_nil in Hr.
    + intros Hnone. destruct found as [|[id r] rest] eqn:Hrest.
      * by rewrite bool_decide_eq_false_2 by (intros Hne; by apply Hne).
      * destruct (Hnone id r). apply Hfound. apply list_elem_of_here.
Qed.

(** ** Firestore: join *)

(** X17: the Firestore join route never adds a player. Whatever the
    request, it leaves the database as it was and emits nothing; it answers
    what the Mongoose route answers when that one turns the join away, and
    500 when that one accepts it. *)
Theorem firestore_join_never_succeeds now uid b db :
  let o := FirestoreRoutes.post_rooms_join now uid b db in
  let mongoose := post_rooms_join now uid b db in
  db_after o = db
  ∧ emitted o = []
  ∧ succeeded (response o) = false
  ∧ response o = (if succeeded (response mongoose) then InternalError
                  else response mongoose).
Proof.
  unfold FirestoreRoutes.post_rooms_join.
  destruct (join_check now uid b db) as [rejection|[roomId p]] eqn:Hcheck; simpl.
  - rewrite (post_rooms_join_rejected _ _ _ _ _ Hcheck). simpl.
    by rewrite (join_check_rejection _ _ _ _ _ Hcheck).
  - destruct (join_check_room _ _ _ _ _ _ Hcheck) as (room & Hroom & _).
    by rewrite (post_rooms_join_passed _ _ _ _ _ _ _ Hcheck Hroom).
Qed.

(** * The token middleware and the lobby *)

Lemma split_space_cons s : ∃ piece pieces, split_space s = piece :: pieces.
Proof.
  induction s as [|c s (piece & pieces & IH)]; simpl; [by eexists _, _|].
  case_decide; [by eexists _, _|]. rewrite IH. by eexists _, _.
Qed.

Lemma split_space_word s : has_space s = false → split_space s = [s].
Proof.
  induction s as [|c s IH]; simpl; [done|].
  intros [Hc Hs]%orb_false_iff. apply bool_decide_eq_false in Hc.
  rewrite decide_False by done. by rewrite IH.
Qed.

Lemma split_space_first s t :
  has_space s = false →
  split_space (s +:+ " " +:+ t) = s :: split_space t.
Proof.
  induction s as [|c s IH]; simpl; [done|].
  intros [Hc Hs]%orb_false_iff. apply bool_decide_eq_false in Hc.
  rewrite decide_False by done. by rewrite IH.
Qed.

Section middleware_properties.

Variable jwt_verify : string → option ObjectId.

(** X18: the middleware takes the second of the pieces of the header between
    spaces as the token, whatever the first piece is and whatever follows
    the second: the request goes on under the user the token names, or is
    answered 403 when the token is not valid. *)
Theorem token_is_second_piece scheme tok rest :
  has_space scheme = false →
  has_space tok = false →
  tok ≠ "" →
  let outcome := match jwt_verify tok with
                 | None => inl InvalidToken
                 | Some user => inr user
                 end in
  authenticateToken jwt_verify (Some (scheme +:+ " " +:+ tok)) = outcome
  ∧ authenticateToken jwt_verify (Some (scheme +:+ " " +:+ tok +:+ " " +:+ rest))
    = outcome.
Proof.
  intros Hscheme Htok Hne.
  assert (∀ h pieces, h ≠ "" → split_space h = scheme :: tok :: pieces →
            authenticateToken jwt_verify (Some h)
            = match jwt_verify tok with
              | None => inl InvalidToken
              | Some user => inr user
              end) as Hauth.
  { intros h pieces Hh Hsplit. unfold authenticateToken, header_token.
    rewrite bool_decide_eq_false_2 by done. rewrite Hsplit. simpl.
    by rewrite bool_decide_eq_true_2. }
  split.
  - apply (Hauth _ []); [by destruct scheme|].
    by rewrite split_space_first, split_space_word.
  - destruct (split_space_cons rest) as (piece & pieces & Hrest).
    apply (Hauth _ (split_space rest)); [by destruct scheme|].
    by rewrite !split_space_first.
Qed.

(** X19: a request without the header, with an empty one, with a header of one
    word, or with nothing or a space right after the first space, is
    answered 401 "Access token required", whatever the tokens are. *)
Theorem no_token_no_entry authHeader :
  authHeader = None
  ∨ (∃ word, authHeader = Some word ∧ has_space word = false)
  ∨ (∃ scheme, authHeader = Some (scheme +:+ " ") ∧ has_space scheme = false)
  ∨ (∃ scheme rest, authHeader = Some (scheme +:+ " " +:+ " " +:+ rest)
                    ∧ has_space scheme = false) →
  authenticateToken jwt_verify authHeader = inl AccessTokenRequired.
Proof.
  unfold authenticateToken, header_token.
  intros [->|[(word & -> & Hword)|[(scheme & -> & Hs)|(scheme & rest & -> & Hs)]]].
  - done.
  - case_bool_decide; [done|]. by rewrite split_space_word.
  - case_bool_decide; [done|].
    change (scheme +:+ " ") with (scheme +:+ " " +:+ "").
    by rewrite (split_space_first scheme ""), (split_space_word "").
  - case_bool_decide; [done|].
    rewrite (split_space_first scheme (" " +:+ rest)) by done.
    change (" " +:+ rest) with ("" +:+ " " +:+ rest).
    by rewrite (split_space_first "" rest).
Qed.

(** X20: the lobby can load the room list, but its create and join requests
    carry no token: the server answers both 401 "Access token required",
    whatever the names and whatever the rooms, and changes and emits
    nothing. *)
Theorem lobby_cannot_create_or_join now roomName playerName roomId db :
  serve jwt_verify now (lobby_create roomName playerName) db
    = reply db AccessTokenRequired
  ∧ serve jwt_verify now (lobby_join roomId playerName) db
    = reply db AccessTokenRequired
  ∧ serve jwt_verify now lobby_load db = get_rooms db.
Proof. done. Qed.

End middleware_properties.

(** A verifier that knows one token, Alice's. *)
Lemma token_is_second_piece_witness :
  let verify := λ tok, if bool_decide (tok = "t0k3n") then Some alice else None in
  authenticateToken verify (Some "Bearer t0k3n") = inr alice
  ∧ authenticateToken verify (Some "Basic t0k3n and more") = inr alice.
Proof.
  pose (verify := λ tok : string,
          if bool_decide (tok = "t0k3n") then Some alice else None).
  destruct (token_is_second_piece verify "Bearer" "t0k3n" "") as [Hbearer _];
    [reflexivity|reflexivity|discriminate|].
  destruct (token_is_second_piece verify "Basic" "t0k3n" "and more") as [_ Hbasic];
    [reflexivity|reflexivity|discriminate|].
  split; [exact Hbearer | exact Hbasic].
Defined.

Lemma no_token_no_entry_witness :
  let verify := λ tok : string, Some alice in
  authenticateToken verify (Some "Bearer ") = inl AccessTokenRequired.
Proof.
  apply (no_token_no_entry (λ tok : string, Some alice) (Some "Bearer ")).
  right; right; left. exists "Bearer". split; reflexivity.
Defined.

(** * The save-game routes *)

Lemma findOne_Some (matches : ObjectId * SaveGame → Prop)
  `{∀ ix, Decision (matches ix)} m i x :
  findOne matches m = Some (i, x) → m !! i = Some x ∧ matches (i, x).
Proof.
  unfold findOne. intros Hhead.
  apply head_Some_elem_of, list_elem_of_filter in Hhead as [Hm Hin].
  by apply elem_of_map_to_list in Hin.
Qed.

Lemma findOne_None (matches : ObjectId * SaveGame → Prop)
  `{∀ ix, Decision (matches ix)} m i x :
  findOne matches m = None → m !! i = Some x → ¬ matches (i, x).
Proof.
  unfold findOne. intros Hhead%head_None Hx Hm.
  eapply filter_nil_not_elem_of; [done|done|].
  by apply elem_of_map_to_list.
Qed.

(** Looking a save up by [_id] and owner. *)
Lemma findOne_id uid id m :
  findOne (λ ix, ix.1 = id ∧ s_userId ix.2 = uid) m =
    match m !! id with
    | Some x => if decide (s_userId x = uid) then Some (id, x) else None
    | None => None
    end.
Proof.
  destruct (findOne _ m) as [[i y]|] eqn:Hfind.
  - apply findOne_Some in Hfind as (Hy & Hi & Hu). simpl in *. subst i.
    rewrite Hy. by rewrite decide_True.
  - destruct (m !! id) as [x|] eqn:Hx; [|done].
    case_decide as Hu; [|done].
    by destruct (findOne_None _ _ _ _ Hfind Hx).
Qed.

Global Instance latest_first_total : Total latest_first.
Proof. intros a b. unfold latest_first. lia. Qed.

Global Instance latest_first_trans : Transitive latest_first.
Proof. intros a b c. unfold latest_first. lia. Qed.

(** X21: the list of saves holds the user's saves, each once and nobody
    else's, latest first. *)
Theorem get_saves_own_latest_first uid st :
  ∃ saves,
    get_saves uid st = {| sv_code := 200; sv_body := SvList saves |}
    ∧ NoDup (i_id <$> saves)
    ∧ (∀ i, i ∈ saves ↔
         ∃ id x, savegames st !! id = Some x ∧ s_userId x = uid
                 ∧ i = info id x)
    ∧ StronglySorted (λ i1 i2, i_lastSaved i2 ≤ i_lastSaved i1) saves.
Proof.
  eexists. split; [reflexivity|].
  set (found := filter (λ ix : ObjectId * SaveGame, s_userId ix.2 = uid)
                  (map_to_list (savegames st))).
  pose proof (merge_sort_Permutation latest_first found) as Hperm.
  split_and!.
  - rewrite <- list_fmap_compose.
    assert (i_id ∘ (λ ix : ObjectId * SaveGame, info ix.1 ix.2) = fst)
      as -> by done.
    rewrite Hperm.
    apply (sublist_NoDup _ ((map_to_list (savegames st)).*1)).
    + apply NoDup_fst_map_to_list.
    + apply fmap_sublist, sublist_filter.
  - intros i. rewrite list_elem_of_fmap. split.
    + intros ([id x] & -> & Hin). rewrite Hperm in Hin.
      apply list_elem_of_filter in Hin as [Hu Hin].
      apply elem_of_map_to_list in Hin. by exists id, x.
    + intros (id & x & Hx & Hu & ->). exists (id, x). split; [done|].
      rewrite Hperm. apply list_elem_of_filter. split; [done|].
      by apply elem_of_map_to_list.
  - eapply StronglySorted_fmap; [|apply (StronglySorted_merge_sort latest_first)].
    intros [id1 x1] [id2 x2] Hle. exact Hle.
Qed.

(** X22: a save of another user cannot be read or deleted, and is as if it did
    not exist: both routes answer 404 "Save not found" and the delete
    changes nothing. *)
Theorem saves_are_private uid id x st :
  savegames st !! id = Some x →
  s_userId x ≠ uid →
  get_save uid id st = SaveNotFound
  ∧ delete_save uid id st = (st, SaveNotFound).
Proof.
  intros Hx Hu. unfold get_save, delete_save.
  by rewrite findOne_id, Hx, decide_False.
Qed.

(** X23: deleting one's save removes that save and no other; afterwards the save
    is not found, and deleting it again is answered 404. *)
Theorem delete_own_save uid id x st :
  savegames st !! id = Some x →
  s_userId x = uid →
  let st' := (delete_save uid id st).1 in
  (delete_save uid id st).2 = SaveDeleted
  ∧ savegames st' = delete id (savegames st)
  ∧ get_save uid id st' = SaveNotFound
  ∧ delete_save uid id st' = (st', SaveNotFound).
Proof.
  intros Hx Hu.
  assert (delete_save uid id st
          = ({| savegames := delete id (savegames st);
                nextSaveId := nextSaveId st |}, SaveDeleted)) as ->.
  { unfold delete_save. by rewrite findOne_id, Hx, decide_True. }
  simpl. split; [done|]. split; [done|].
  unfold get_save, delete_save. simpl.
  by rewrite findOne_id, lookup_delete_eq.
Qed.

Section saves_properties.

Variable from_base64 : string → string.

(** X24: a save without a character name, a class or save data, or with no
    level or level 0, is answered 400 "Missing required fields" and nothing
    is stored. *)
Theorem post_saves_missing_field now uid b st :
  (sr_characterName b = None ∨ sr_characterName b = Some "")
  ∨ (sr_characterClass b = None ∨ sr_characterClass b = Some "")
  ∨ (sr_level b = None ∨ sr_level b = Some (whole 0))
  ∨ (sr_saveData b = None ∨ sr_saveData b = Some "") →
  post_saves from_base64 now uid b st = (st, MissingFields).
Proof.
  assert (∀ o, o = None ∨ o = Some (whole 0) → truthy_number o = false) as Hnum.
  { by intros o [->| ->]. }
  unfold post_saves.
  intros [Hf%truthy_false|[Hf%truthy_false|[Hf%Hnum|Hf%truthy_false]]];
    rewrite Hf; simpl; by rewrite ?orb_true_r.
Qed.

(** What a well-formed save request stores: a new save for a character
    the user has no save of, and otherwise the save that is there with new
    data, level and time. *)
Lemma post_saves_insert now uid n c (l : Number) d st :
  n ≠ "" → c ≠ "" → l ≠ 0 → d ≠ "" → from_base64 d ≠ "" →
  findOne (λ ix, s_userId ix.2 = uid ∧ s_characterName ix.2 = n)
    (savegames st) = None →
  let x := {| s_userId := uid; s_characterName := n; s_characterClass := c;
              s_level := l; s_saveData := from_base64 d; s_lastSaved := now;
              s_gameVersion := "1.0" |} in
  post_saves from_base64 now uid (save_request n c l d) st
  = ({| savegames := <[nextSaveId st := x]> (savegames st);
        nextSaveId := Pos.succ (nextSaveId st) |},
     {| sv_code := 201;
        sv_body := SvSaved "Game saved successfully" (saved (nextSaveId st) x) |}).
Proof.
  intros Hn Hc Hl Hd Hbuf Hfind. unfold post_saves. simpl.
  rewrite !bool_decide_eq_true_2 by done. simpl. rewrite Hfind.
  by rewrite bool_decide_eq_false_2.
Qed.

Lemma post_saves_update now uid n c (l : Number) d st id existing :
  n ≠ "" → c ≠ "" → l ≠ 0 → d ≠ "" → from_base64 d ≠ "" →
  findOne (λ ix, s_userId ix.2 = uid ∧ s_characterName ix.2 = n)
    (savegames st) = Some (id, existing) →
  let x := {| s_userId := s_userId existing;
              s_characterName := s_characterName existing;
              s_characterClass := s_characterClass existing;
              s_level := l; s_saveData := from_base64 d; s_lastSaved := now;
              s_gameVersion := s_gameVersion existing |} in
  post_saves from_base64 now uid (save_request n c l d) st
  = ({| savegames := <[id := x]> (savegames st);
        nextSaveId := nextSaveId st |},
     {| sv_code := 201;
        sv_body := SvSaved "Game saved successfully" (saved id x) |}).
Proof.
  intros Hn Hc Hl Hd Hbuf Hfind. unfold post_saves. simpl.
  rewrite !bool_decide_eq_true_2 by done. simpl. rewrite Hfind.
  by rewrite bool_decide_eq_false_2.
Qed.

(** X25: saving and loading: after a well-formed save request with data
    that decode to a non-empty buffer, the answer is 201 with the id of the
    save, and loading that id as the same user sends the decoded data back
    under the file name of the character when that name can go into a
    header; when it cannot, the save is stored but every load of it is
    answered 500. *)
Theorem save_then_load now uid n c (l : Number) d st :
  n ≠ "" → c ≠ "" → l ≠ 0 → d ≠ "" → from_base64 d ≠ "" →
  let r := post_saves from_base64 now uid (save_request n c l d) st in
  ∃ id x,
    r.2 = {| sv_code := 201;
             sv_body := SvSaved "Game saved successfully" (saved id x) |}
    ∧ savegames r.1 !! id = Some x
    ∧ s_characterName x = n ∧ s_saveData x = from_base64 d
    ∧ get_save uid id r.1
      = (if header_value n
         then {| sv_code := 200;
                 sv_body := SvFile (n +:+ ".sv") (from_base64 d) |}
         else SaveInternalError).
Proof.
  intros Hn Hc Hl Hd Hbuf.
  destruct (findOne (λ ix, s_userId ix.2 = uid ∧ s_characterName ix.2 = n)
              (savegames st)) as [[i existing]|] eqn:Hfind.
  - simpl. rewrite (post_saves_update _ _ _ _ _ _ _ _ _ Hn Hc Hl Hd Hbuf Hfind).
    apply findOne_Some in Hfind as (_ & Hu & Hname). simpl in *.
    eexists _, _. split; [done|]. simpl. rewrite lookup_insert_eq.
    split; [done|]. simpl. split; [done|]. split; [done|].
    unfold get_save. simpl.
    rewrite findOne_id, lookup_insert_eq. simpl.
    rewrite decide_True by done. simpl. by rewrite Hname.
  - simpl. rewrite (post_saves_insert _ _ _ _ _ _ _ Hn Hc Hl Hd Hbuf Hfind).
    eexists _, _. split; [done|]. simpl. rewrite lookup_insert_eq.
    split; [done|]. simpl. split; [done|]. split; [done|].
    unfold get_save. simpl.
    rewrite findOne_id, lookup_insert_eq. simpl.
    by rewrite decide_True.
Qed.

(** A request that passes the field check is a full one. *)
Lemma post_saves_checked now uid b st :
  post_saves from_base64 now uid b st = (st, MissingFields)
  ∨ ∃ n c l d, b = save_request n c l d ∧ n ≠ "" ∧ c ≠ "" ∧ l ≠ 0 ∧ d ≠ "".
Proof.
  unfold post_saves.
  destruct (truthy (sr_characterName b)) eqn:Hn; simpl; [|by left].
  destruct (truthy (sr_characterClass b)) eqn:Hc; simpl; [|by left].
  destruct (truthy_number (sr_level b)) eqn:Hl; simpl; [|by left].
  destruct (truthy (sr_saveData b)) eqn:Hd; simpl; [|by left].
  right. destruct b as [[n|] [c|] [l|] [d|]]; simpl in *; try done.
  apply bool_decide_eq_true in Hn, Hc, Hl, Hd. by exists n, c, l, d.
Qed.

(** X26: the save routes keep the collection in order: ids are the database's,
    and no user gets two saves of one character name. *)
Theorem store_ok_preserved now uid b id st :
  store_ok st →
  store_ok (post_saves from_base64 now uid b st).1
  ∧ store_ok (delete_save uid id st).1.
Proof.
  intros [Hids Huniq]. split.
  - destruct (post_saves_checked now uid b st)
      as [->|(n & c & l & d & -> & Hn & Hc & Hl & Hd)]; [done|].
    destruct (decide (from_base64 d = "")) as [Hbuf|Hbuf].
    { unfold post_saves. simpl. rewrite !bool_decide_eq_true_2 by done. simpl.
      by destruct (findOne _ _) as [[??]|]. }
    destruct (findOne (λ ix, s_userId ix.2 = uid ∧ s_characterName ix.2 = n)
                (savegames st)) as [[i existing]|] eqn:Hfind.
    + rewrite (post_saves_update _ _ _ _ _ _ _ _ _ Hn Hc Hl Hd Hbuf Hfind).
      apply findOne_Some in Hfind as (Hi & _). simpl. split; simpl.
      * intros j. rewrite lookup_insert. case_decide; [subst j|]; eauto.
      * intros j k x y. rewrite !lookup_insert.
        repeat case_decide; subst; intros; simplify_eq; simpl in *;
          try done; eauto using eq_sym.
    + rewrite (post_saves_insert _ _ _ _ _ _ _ Hn Hc Hl Hd Hbuf Hfind).
      simpl. split; simpl.
      * intros j. rewrite lookup_insert. case_decide; [subst j; lia|].
        intros Hj%Hids. lia.
      * intros j k x y. rewrite !lookup_insert.
        repeat case_decide; subst; intros; simplify_eq; simpl in *;
          try done; eauto.
        -- exfalso. eapply (findOne_None _ _ k y Hfind); [done|]. by split.
        -- exfalso. eapply (findOne_None _ _ j x Hfind); [done|]. by split.
  - unfold delete_save. rewrite findOne_id.
    destruct (savegames st !! id) as [x|] eqn:Hx; [|done].
    case_decide; [|done]. simpl. split; simpl.
    + intros j. rewrite lookup_delete. case_decide; [by intros []|]. apply Hids.
    + intros j k y z. rewrite !lookup_delete.
      repeat case_decide; try done. apply Huniq.
Qed.

(** X27: saving a character again overwrites the save that is there: the save
    keeps its id and its character class, whatever class the request names,
    takes the new level, data and time, and no save is added. *)
Theorem resave_overwrites now uid n c (l : Number) d st id x :
  store_ok st →
  savegames st !! id = Some x →
  s_userId x = uid → s_characterName x = n →
  n ≠ "" → c ≠ "" → l ≠ 0 → d ≠ "" → from_base64 d ≠ "" →
  let x' := {| s_userId := uid; s_characterName := n;
               s_characterClass := s_characterClass x;
               s_level := l; s_saveData := from_base64 d; s_lastSaved := now;
               s_gameVersion := s_gameVersion x |} in
  post_saves from_base64 now uid (save_request n c l d) st
  = ({| savegames := <[id := x']> (savegames st);
        nextSaveId := nextSaveId st |},
     {| sv_code := 201;
        sv_body := SvSaved "Game saved successfully" (saved id x') |})
  ∧ size (<[id := x']> (savegames st)) = size (savegames st).
Proof.
  intros [_ Huniq] Hx Hu Hname Hn Hc Hl Hd Hbuf.
  destruct (findOne (λ ix, s_userId ix.2 = uid ∧ s_characterName ix.2 = n)
              (savegames st)) as [[i existing]|] eqn:Hfind.
  - pose proof (findOne_Some _ _ _ _ Hfind) as (Hi & Hu' & Hname'). simpl in *.
    assert (i = id) as -> by (eapply Huniq; [done|done|congruence|congruence]).
    assert (existing = x) as -> by congruence.
    rewrite (post_saves_update _ _ _ _ _ _ _ _ _ Hn Hc Hl Hd Hbuf Hfind).
    simpl. rewrite Hu, Hname. split; [done|].
    by apply map_size_insert_Some.
  - exfalso. eapply (findOne_None _ _ id x Hfind); [done|]. by split.
Qed.

End saves_properties.

Lemma post_saves_missing_field_witness :
  post_saves (λ d, d) 10 alice (save_request "Conan" "Warrior" 0 "c2F2ZQ==")
    no_saves
  = (no_saves, MissingFields).
Proof.
  apply (post_saves_missing_field (λ d, d) 10 alice
           (save_request "Conan" "Warrior" 0 "c2F2ZQ==") no_saves).
  right; right; left. right. reflexivity.
Defined.

Lemma save_then_load_witness :
  let r := post_saves (λ d, d) 10 alice
             (save_request "Conan" "Warrior" 7 "c2F2ZQ==") no_saves in
  ∃ id x,
    r.2 = {| sv_code := 201;
             sv_body := SvSaved "Game saved successfully" (saved id x) |}
    ∧ savegames r.1 !! id = Some x
    ∧ s_characterName x = "Conan" ∧ s_saveData x = "c2F2ZQ=="
    ∧ get_save alice id r.1
      = {| sv_code := 200; sv_body := SvFile "Conan.sv" "c2F2ZQ==" |}.
Proof.
  apply (save_then_load (λ d, d) 10 alice "Conan" "Warrior" 7 "c2F2ZQ==" no_saves);
    discriminate.
Defined.

Lemma no_saves_ok : store_ok no_saves.
Proof. split; [by intros i [x Hx]|by intros i j x y Hx]. Qed.

Lemma store_ok_preserved_witness :
  store_ok (post_saves (λ d, d) 10 alice
              (save_request "Conan" "Warrior" 7 "c2F2ZQ==") no_saves).1
  ∧ store_ok (delete_save alice 1%positive no_saves).1.
Proof.
  apply (store_ok_preserved (λ d, d) 10 alice
           (save_request "Conan" "Warrior" 7 "c2F2ZQ==") 1%positive no_saves).
  apply no_saves_ok.
Defined.

Lemma one_save_ok : store_ok one_save.
Proof.
  unfold store_ok, one_save. simpl. split.
  - intros i [x Hx]. apply lookup_singleton_Some in Hx as [<- _]. done.
  - intros i j x y [<- _]%lookup_singleton_Some [<- _]%lookup_singleton_Some.
    done.
Qed.

Lemma saves_are_private_witness :
  get_save bob 1%positive one_save = SaveNotFound
  ∧ delete_save bob 1%positive one_save = (one_save, SaveNotFound).
Proof.
  apply (saves_are_private bob 1%positive conan one_save).
  - reflexivity.
  - discriminate.
Defined.

Lemma delete_own_save_witness :
  let st' := (delete_save alice 1%positive one_save).1 in
  (delete_save alice 1%positive one_save).2 = SaveDeleted
  ∧ savegames st' = delete 1%positive (savegames one_save)
  ∧ get_save alice 1%positive st' = SaveNotFound
  ∧ delete_save alice 1%positive st' = (st', SaveNotFound).
Proof.
  apply (delete_own_save alice 1%positive conan one_save); reflexivity.
Defined.

Lemma resave_overwrites_witness :
  let x' := {| s_userId := alice; s_characterName := "Conan";
               s_characterClass := "Warrior"; s_level := 9;
               s_saveData := "bW9yZQ=="; s_lastSaved := 20;
               s_gameVersion := "1.0" |} in
  post_saves (λ d, d) 20 alice (save_request "Conan" "Rogue" 9 "bW9yZQ==")
    one_save
  = ({| savegames := <[1%positive := x']> (savegames one_save);
        nextSaveId := nextSaveId one_save |},
     {| sv_code := 201;
        sv_body := SvSaved "Game saved successfully" (saved 1%positive x') |})
  ∧ size (<[1%positive := x']> (savegames one_save)) = size (savegames one_save).
Proof.
  apply (resave_overwrites (λ d, d) 20 alice "Conan" "Rogue" 9 "bW9yZQ=="
           one_save 1%positive conan).
  - apply one_save_ok.
  - reflexivity.
  - reflexivity.
  - reflexivity.
  - discriminate.
  - discriminate.
  - discriminate.
  - discriminate.
  - discriminate.
Defined.

(** * The account routes *)

Lemma findUser_Some (matches : ObjectId * Account → Prop)
  `{∀ ia, Decision (matches ia)} m i x :
  findUser matches m = Some (i, x) → m !! i = Some x ∧ matches (i, x).
Proof.
  unfold findUser. intros Hhead.
  apply head_Some_elem_of, list_elem_of_filter in Hhead as [Hm Hin].
  by apply elem_of_map_to_list in Hin.
Qed.

Lemma findUser_None (matches : ObjectId * Account → Prop)
  `{∀ ia, Decision (matches ia)} m i x :
  findUser matches m = None → m !! i = Some x → ¬ matches (i, x).
Proof.
  unfold findUser. intros Hhead%head_None Hx Hm.
  eapply filter_nil_not_elem_of; [done|done|].
  by apply elem_of_map_to_list.
Qed.

Section accounts_properties.

Variable bcrypt_hash : string → string → string.
Variable bcrypt_compare : string → string → bool.
Variable jwt_sign : ObjectId → Z → string.

(** What a full registration does. *)
Lemma register_full now salt u e p st :
  u ≠ "" → e ≠ "" → p ≠ "" → (6 ≤ String.length p)%nat →
  register bcrypt_hash jwt_sign now salt (register_body u e p) st =
    match findUser (λ ia, a_username ia.2 = u ∨ a_email ia.2 = e)
            (accounts st) with
    | Some _ => (st, auth_error 400 "User already exists")
    | None =>
        ({| accounts :=
              <[nextAccountId st :=
                  {| a_username := u; a_email := e;
                     a_password := bcrypt_hash salt p;
                     a_createdAt := now; a_lastLogin := now |}]> (accounts st);
            nextAccountId := Pos.succ (nextAccountId st) |},
         {| au_code := 201;
            au_body := AuSession
                         {| token := jwt_sign (nextAccountId st) now;
                            user_id := nextAccountId st;
                            user_username := u; user_email := e |} |})
    end.
Proof.
  intros Hu He Hp Hlen. unfold register. simpl.
  rewrite !bool_decide_eq_true_2 by done. simpl.
  by rewrite bool_decide_eq_false_2 by lia.
Qed.

(** A registration with a password of fewer than six code units is
    answered 400 "Password must be at least 6 characters", whoever
    registers, and no account is created. *)
Lemma register_short_password now salt u e p st :
  u ≠ "" → e ≠ "" → p ≠ "" → (String.length p < 6)%nat →
  register bcrypt_hash jwt_sign now salt (register_body u e p) st
  = (st, auth_error 400 "Password must be at least 6 characters").
Proof.
  intros Hu He Hp Hlen. unfold register. simpl.
  by rewrite !bool_decide_eq_true_2 by done.
Qed.

(** A registration under a user name or an email an account already has is
    answered 400 "User already exists" and no account is created. *)
Lemma register_taken now salt u e p st i x :
  accounts st !! i = Some x →
  a_username x = u ∨ a_email x = e →
  u ≠ "" → e ≠ "" → (6 ≤ String.length p)%nat →
  register bcrypt_hash jwt_sign now salt (register_body u e p) st
  = (st, auth_error 400 "User already exists").
Proof.
  intros Hx Hmatch Hu He Hlen.
  assert (p ≠ "") as Hp by (intros ->; simpl in Hlen; lia).
  rewrite register_full by done.
  destruct (findUser _ (accounts st)) as [[j y]|] eqn:Hfind; [done|].
  by destruct (findUser_None _ _ i x Hfind Hx).
Qed.

(** X28: neither route ever gives two accounts the same user name or the same
    email. *)
Theorem accounts_unique_preserved now salt rb lb st :
  accounts_unique st →
  accounts st !! nextAccountId st = None →
  accounts_unique (register bcrypt_hash jwt_sign now salt rb st).1
  ∧ accounts_unique (login bcrypt_compare jwt_sign now lb st).1.
Proof.
  intros Huniq Hfresh. split.
  - unfold register.
    destruct (_ || _); [done|].
    case_bool_decide; [done|].
    destruct (findUser _ (accounts st)) as [[k z]|] eqn:Hfind; [done|].
    simpl. intros i j x y. simpl. rewrite !lookup_insert.
    repeat case_decide; subst; intros; simplify_eq; simpl in *; try done.
    + exfalso. eapply (findUser_None _ _ j y Hfind); [done|].
      simpl. intuition congruence.
    + exfalso. eapply (findUser_None _ _ i x Hfind); [done|].
      simpl. intuition congruence.
    + by eapply Huniq.
  - unfold login.
    destruct (_ || _); [done|].
    destruct (findUser _ (accounts st)) as [[k z]|] eqn:Hfind; [|done].
    destruct (negb _); [done|].
    apply findUser_Some in Hfind as [Hz _].
    simpl. intros i j x y. simpl. rewrite !lookup_insert.
    repeat case_decide; subst; intros; simplify_eq; simpl in *; try done.
    + by eapply Huniq.
    + symmetry. eapply Huniq; [done|done|]. simpl in *. intuition congruence.
    + by eapply Huniq.
Qed.

(** X29: registering and then logging in: when [bcrypt.compare] accepts a
    password against its own hash, a user who has just registered can log
    in with the same password, by user name or by email, as long as no
    other account has that name as user name or email; the session is for
    the id the registration was given. *)
Theorem register_then_login now salt u e p st now' name :
  (∀ s pw, bcrypt_compare pw (bcrypt_hash s pw) = true) →
  accounts st !! nextAccountId st = None →
  (∀ i x, accounts st !! i = Some x → a_username x ≠ name ∧ a_email x ≠ name) →
  name = u ∨ name = e →
  au_code (register bcrypt_hash jwt_sign now salt (register_body u e p) st).2 = 201 →
  (login bcrypt_compare jwt_sign now' (login_body name p) (register bcrypt_hash jwt_sign now salt (register_body u e p) st).1).2
  = {| au_code := 200;
       au_body := AuSession {| token := jwt_sign (nextAccountId st) now';
                               user_id := nextAccountId st;
                               user_username := u; user_email := e |} |}.
Proof.
  intros Hbcrypt Hfresh Hother Hname.
  unfold register. simpl.
  case_bool_decide as Hu; simpl; [|by intros [=]].
  case_bool_decide as He; simpl; [|by intros [=]].
  case_bool_decide as Hp; simpl; [|by intros [=]].
  case_bool_decide as Hlen; [by intros [=]|].
  destruct (findUser _ (accounts st)) as [[k z]|] eqn:Hfind; [by intros [=]|].
  intros _. simpl.
  assert (name ≠ "") as Hn by (by destruct Hname as [->| ->]).
  unfold login. simpl. rewrite !bool_decide_eq_true_2 by done. simpl.
  match goal with
  | |- context [findUser ?P ?m] =>
      destruct (findUser P m) as [[j y]|] eqn:Hlogin
  end.
  - apply findUser_Some in Hlogin as [Hy Hm]. simpl in Hm.
    rewrite lookup_insert in Hy. case_decide as Hj.
    + simplify_eq. simpl. by rewrite Hbcrypt.
    + destruct (Hother j y Hy) as [Hyu Hye]. intuition congruence.
  - exfalso.
    eapply (findUser_None _ _ (nextAccountId st) _ Hlogin);
      [apply lookup_insert_eq|].
    simpl. intuition congruence.
Qed.

End accounts_properties.

Lemma register_short_password_witness :
  register toy_hash toy_sign 10 "salt" (register_body "demo" "demo@x.org" "12345")
    no_accounts
  = (no_accounts, auth_error 400 "Password must be at least 6 characters").
Proof.
  apply (register_short_password toy_hash toy_sign 10 "salt" "demo" "demo@x.org"
           "12345" no_accounts); try discriminate.
  simpl. lia.
Defined.

Lemma accounts_unique_preserved_witness :
  accounts_unique
    (register toy_hash toy_sign 10 "salt"
       (register_body "demo" "demo@x.org" "demo123") no_accounts).1
  ∧ accounts_unique
      (login toy_compare toy_sign 10 (login_body "demo" "demo123") no_accounts).1.
Proof.
  apply (accounts_unique_preserved toy_hash toy_compare toy_sign 10 "salt"
           (register_body "demo" "demo@x.org" "demo123")
           (login_body "demo" "demo123") no_accounts).
  - by intros i j x y Hx.
  - reflexivity.
Defined.

Lemma register_taken_witness :
  let st := (register toy_hash toy_sign 10 "salt"
               (register_body "demo" "demo@x.org" "demo123") no_accounts).1 in
  register toy_hash toy_sign 20 "pepper"
    (register_body "other" "demo@x.org" "other123") st
  = (st, auth_error 400 "User already exists").
Proof.
  eapply (register_taken toy_hash toy_sign 20 "pepper" "other" "demo@x.org"
            "other123" _ 1%positive).
  - reflexivity.
  - right. reflexivity.
  - discriminate.
  - discriminate.
  - simpl. lia.
Defined.

Lemma register_then_login_witness :
  (login toy_compare toy_sign 20 (login_body "demo@x.org" "demo123")
     (register toy_hash toy_sign 10 "salt"
        (register_body "demo" "demo@x.org" "demo123") no_accounts).1).2
  = {| au_code := 200;
       au_body := AuSession {| token := toy_sign 1%positive 20;
                               user_id := 1%positive;
                               user_username := "demo";
                               user_email := "demo@x.org" |} |}.
Proof.
  apply (register_then_login toy_hash toy_compare toy_sign 10 "salt" "demo"
           "demo@x.org" "demo123" no_accounts 20 "demo@x.org").
  - intros s pw. unfold toy_compare, toy_hash. by apply bool_decide_eq_true_2.
  - reflexivity.
  - intros i x Hx. simpl in Hx. by destruct (lookup_empty_Some i x).
  - right. reflexivity.
  - reflexivity.
Defined.

(** * The Socket.IO handlers *)

Lemma elem_of_in_room room (sockets : gmap string (gset string)) t :
  t ∈ in_room room sockets ↔ ∃ rooms, sockets !! t = Some rooms ∧ room ∈ rooms.
Proof.
  unfold in_room. rewrite elem_of_dom. unfold is_Some.
  setoid_rewrite map_lookup_filter_Some. simpl.
  split; intros (rooms & Hrooms & Hin); by exists rooms.
Qed.

(** Relaying asks for no membership: a game event goes to every socket in
    the room it names except the sender, a chat message to every socket in
    the room, the sender too if it is in. *)
Lemma relay_receivers_aux sid roomId data
  (sockets : gmap string (gset string)) t :
  (t ∈ receivers sid (on_game_event roomId data) sockets ↔
     t ≠ sid ∧ ∃ rooms, sockets !! t = Some rooms ∧ roomId ∈ rooms)
  ∧ (t ∈ receivers sid (on_chat_message roomId data) sockets ↔
       ∃ rooms, sockets !! t = Some rooms ∧ roomId ∈ rooms).
Proof.
  unfold receivers. simpl. rewrite elem_of_difference, elem_of_singleton.
  rewrite !elem_of_in_room. split; [|done]. tauto.
Qed.

(** X30: after [join-room] a connected socket gets what is sent to the room by
    others, after [leave-room] or a disconnect it gets nothing sent to
    it. *)
Theorem join_and_leave_room sid roomId other data m
  (sockets : gmap string (gset string)) :
  is_Some (sockets !! sid) →
  other ≠ sid →
  m = on_game_event roomId data ∨ m = on_chat_message roomId data →
  sid ∈ receivers other m (on_message sid (on_join_room roomId) sockets).1
  ∧ (sid ∉ receivers other m (on_message sid (on_leave_room roomId) sockets).1)
  ∧ (sid ∉ receivers other m (on_message sid on_disconnect sockets).1).
Proof.
  intros [rooms Hrooms] Hother Hm.
  assert (∀ s' : gmap string (gset string),
            sid ∈ receivers other m s' ↔
            ∃ rooms', s' !! sid = Some rooms' ∧ roomId ∈ rooms') as Hrecv.
  { intros s'. destruct Hm as [-> | ->].
    - rewrite (proj1 (relay_receivers_aux other roomId data s' sid)).
      split; [by intros [_ ?]|]. intros Hin. split; [congruence|done].
    - by rewrite (proj2 (relay_receivers_aux other roomId data s' sid)). }
  rewrite !Hrecv. simpl. split_and!.
  - exists (rooms ∪ {[roomId]}). rewrite lookup_alter_eq, Hrooms.
    split; [done|]. apply elem_of_union. right. by apply elem_of_singleton.
  - intros (rooms' & Hr & Hin). rewrite lookup_alter_eq, Hrooms in Hr.
    simplify_eq/=. apply elem_of_difference in Hin as [_ Hn].
    apply Hn. by apply elem_of_singleton.
  - intros (rooms' & Hr & Hin). by rewrite lookup_delete_eq in Hr.
Qed.

Lemma join_and_leave_room_witness :
  let sockets : gmap string (gset string) :=
    <["s1" := {["s1"]}]> (<["s2" := {["s2"]}]> ∅) in
  let m := on_chat_message "room" "hello" in
  "s1" ∈ receivers "s2" m (on_message "s1" (on_join_room "room") sockets).1
  ∧ ("s1" ∉ receivers "s2" m (on_message "s1" (on_leave_room "room") sockets).1)
  ∧ ("s1" ∉ receivers "s2" m (on_message "s1" on_disconnect sockets).1).
Proof.
  apply (join_and_leave_room "s1" "room" "s2" "hello"
           (on_chat_message "room" "hello")).
  - eexists. apply lookup_insert_eq.
  - discriminate.
  - right. reflexivity.
Defined.
